(** * Volume provisioning coordinator of deckhouse/local-lvm-provisioner

    A shallow embedding of the helper functions of the two CSI images,
    [images/sds-local-volume-csi/src/pkg/utils/func.go] and
    [images/sds-lvm-csi/pkg/utils/func.go], together with the properties
    the specification states about them. *)

From Stdlib Require Import ZArith Lia Bool.
From stdpp Require Import base option list strings gmap.

Local Open Scope Z_scope.
Set Warnings "-register-all".

(** ** Quantities and float64 arithmetic *)

(** Where the code uses a [resource.Quantity] only through [Value()], the
    number of bytes as an int64, and [resource.NewQuantity], the quantity
    is modelled by that number.  The capacity functions of sds-lvm-csi
    parse and subtract quantities: they are modelled over
    [SdsLvmCsi.ResourceQuantity]. *)
Record Quantity : Type := NewQuantity { Value : Z }.

(** The zero value of the Go struct. *)
Definition zeroQuantity : Quantity := NewQuantity 0.

(** Go's conversion [float64(x)] of an int64: the nearest binary64 number,
    ties to the even significand.  A binary64 number has a 53-bit
    significand, so every integer of magnitude below 2^53 is kept; a larger
    one is rounded to a multiple of 2^e, where e is its bit length minus
    53.  All float64 values the code computes are integers of magnitude at
    most 2^65, so they are represented by the integer they denote. *)
Definition float64_of_Z (z : Z) : Z :=
  let m := Z.abs z in
  if m <? 2 ^ 53 then z
  else
    let e := Z.log2 m - 52 in
    let q := m / 2 ^ e in
    let r := m mod 2 ^ e in
    let half := 2 ^ (e - 1) in
    let q' := if (half <? r) || ((r =? half) && Z.odd q) then q + 1 else q in
    Z.sgn z * (q' * 2 ^ e).

(** Subtraction of two float64 values: the exact difference, rounded. *)
Definition float64_sub (x y : Z) : Z := float64_of_Z (x - y).

(** [math.Abs] is exact. *)
Definition math_Abs (x : Z) : Z := Z.abs x.

(** [AreSizesEqualWithinDelta], the same text in both images. *)
Definition AreSizesEqualWithinDelta (leftSize rightSize allowedDelta : Quantity) : bool :=
  let leftSizeFloat := float64_of_Z (Value leftSize) in
  let rightSizeFloat := float64_of_Z (Value rightSize) in
  math_Abs (float64_sub leftSizeFloat rightSizeFloat) <? float64_of_Z (Value allowedDelta).

(** ** Records of the store

    The fields the functions read or write.  [TypeMeta] (kind and API
    version) is set by one image and never read; it is left out. *)

Record LVMLogicalVolumeThinSpec : Type := { PoolName : string }.

(** [Contiguous] is a [*bool]. *)
Record LVMLogicalVolumeThickSpec : Type := { Contiguous : option bool }.

Record LVMLogicalVolumeSpec : Type := {
  ActualLVNameOnTheNode : string;
  Type_ : string;
  Size : string;
  LVMVolumeGroupName : string;
  Thin : option LVMLogicalVolumeThinSpec;
  Thick : option LVMLogicalVolumeThickSpec
}.

Record LVMLogicalVolumeStatus : Type := {
  Phase : string;
  Reason : string;
  ActualSize : Quantity
}.

(** [DeletionTimestamp] is a [*metav1.Time] and [Status] a pointer: both
    may be nil. *)
Record LVMLogicalVolume : Type := {
  llv_Name : string;
  OwnerReferences : list string;
  Finalizers : list string;
  DeletionTimestamp : option Z;
  llv_Spec : LVMLogicalVolumeSpec;
  llv_Status : option LVMLogicalVolumeStatus
}.

Definition zeroLVMLogicalVolumeSpec : LVMLogicalVolumeSpec :=
  {| ActualLVNameOnTheNode := ""; Type_ := ""; Size := "";
     LVMVolumeGroupName := ""; Thin := None; Thick := None |}.

(** The zero value [var llv LVMLogicalVolume]. *)
Definition zeroLVMLogicalVolume : LVMLogicalVolume :=
  {| llv_Name := ""; OwnerReferences := []; Finalizers := [];
     DeletionTimestamp := None; llv_Spec := zeroLVMLogicalVolumeSpec;
     llv_Status := None |}.

Record LVMVolumeGroupNode : Type := { node_Name : string }.

Record LVMVolumeGroupThinPoolStatus : Type := {
  tp_Name : string;
  AvailableSpace : Quantity
}.

(** [snc.LVMVolumeGroup] of sds-local-volume-csi: sizes are quantities. *)
Record LVMVolumeGroup : Type := {
  lvg_Name : string;
  ActualVGNameOnTheNode : string;
  VGSize : Quantity;
  VGFree : Quantity;
  AllocatedSize : Quantity;
  Nodes : list LVMVolumeGroupNode;
  ThinPools : list LVMVolumeGroupThinPoolStatus
}.

(** [v1alpha1.LvmVolumeGroup] of sds-lvm-csi: sizes are strings, parsed
    by [resource.ParseQuantity]. *)
Record LvmVolumeGroup : Type := {
  lvmvg_Name : string;
  lvmvg_VGSize : string;
  lvmvg_AllocatedSize : string;
  lvmvg_Nodes : list LVMVolumeGroupNode
}.

(** ** Errors *)

(** The reasons of an API status error that the code asks about
    ([kerrors.IsAlreadyExists], [kerrors.IsConflict]). *)
Inductive StatusReason : Type :=
| StatusReasonAlreadyExists
| StatusReasonConflict
| StatusReasonNotFound
| StatusReasonUnknown.

Inductive fmt_arg : Type :=
| ArgS (s : string)
| ArgD (n : Z)
| ArgParams (m : gmap string string)
| ArgLVG (lvg : LVMVolumeGroup).

(** An error is a status error of the store, an error of the context
    ([ctx.Err()]), an error of [resource.ParseQuantity], or the result of
    [fmt.Errorf format args...].  [wrapped] is the operand of the [%w]
    verb: [None] when that operand is nil, in which case [fmt.Errorf]
    wraps nothing. *)
Inductive error : Type :=
| StatusError (reason : StatusReason) (message : string)
| ContextError (message : string)
| ParseError (message : string)
| Errorf (format : string) (args : list fmt_arg) (wrapped : option error).

(** [errors.Unwrap]. *)
Definition Unwrap (e : error) : option error :=
  match e with
  | Errorf _ _ w => w
  | _ => None
  end.

(** [kerrors.ReasonForError]: the reason of the first status error on the
    chain of wrapped errors. *)
Fixpoint ReasonForError (e : error) : StatusReason :=
  match e with
  | StatusError r _ => r
  | ContextError _ => StatusReasonUnknown
  | ParseError _ => StatusReasonUnknown
  | Errorf _ _ w =>
      match w with
      | Some e' => ReasonForError e'
      | None => StatusReasonUnknown
      end
  end.

Definition reason_eqb (a b : StatusReason) : bool :=
  match a, b with
  | StatusReasonAlreadyExists, StatusReasonAlreadyExists => true
  | StatusReasonConflict, StatusReasonConflict => true
  | StatusReasonNotFound, StatusReasonNotFound => true
  | StatusReasonUnknown, StatusReasonUnknown => true
  | _, _ => false
  end.

Definition IsAlreadyExists (e : error) : bool :=
  reason_eqb (ReasonForError e) StatusReasonAlreadyExists.

Definition IsConflict (e : error) : bool :=
  reason_eqb (ReasonForError e) StatusReasonConflict.

(** A function either returns or panics (an index out of range). *)
Inductive outcome (A : Type) : Type :=
| Returns (a : A)
| Panics.
Arguments Returns {A} a.
Arguments Panics {A}.

(** ** The store, the context and the clock

    [client.Client], [context.Context] and the clock are the environment
    of the functions.  The environment answers the n-th call of each kind;
    a run records its calls, in order, in a trace. *)

Record World (G : Type) : Type := {
  kcCreate : nat -> LVMLogicalVolume -> option error;
  kcGet : nat -> string -> string -> LVMLogicalVolume + error;
  kcUpdate : nat -> LVMLogicalVolume -> option error;
  kcDelete : nat -> LVMLogicalVolume -> option error;
  kcList : nat -> list G + error;
  ctxDone : nat -> bool;
  ctxErr : error
}.
Arguments kcCreate {G} w n llv.
Arguments kcGet {G} w n name namespace.
Arguments kcUpdate {G} w n llv.
Arguments kcDelete {G} w n llv.
Arguments kcList {G} w n.
Arguments ctxDone {G} w n.
Arguments ctxErr {G} w.

Inductive Event : Type :=
| EvCreate (llv : LVMLogicalVolume)
| EvGet (name namespace : string)
| EvUpdate (llv : LVMLogicalVolume)
| EvDelete (llv : LVMLogicalVolume)
| EvList
| EvDone
| EvSleep (nanoseconds : Z)
| EvAfter (nanoseconds : Z).

Definition Trace : Type := list Event.

Definition isCreate (e : Event) : bool := match e with EvCreate _ => true | _ => false end.
Definition isGet (e : Event) : bool := match e with EvGet _ _ => true | _ => false end.
Definition isUpdate (e : Event) : bool := match e with EvUpdate _ => true | _ => false end.
Definition isDelete (e : Event) : bool := match e with EvDelete _ => true | _ => false end.
Definition isList (e : Event) : bool := match e with EvList => true | _ => false end.
Definition isDone (e : Event) : bool := match e with EvDone => true | _ => false end.

(** How many calls of one kind a trace holds. *)
Fixpoint calls (p : Event -> bool) (tr : Trace) : nat :=
  match tr with
  | [] => 0%nat
  | e :: tr' => if p e then S (calls p tr') else calls p tr'
  end.

(** Computations over the trace. *)
Definition M (A : Type) : Type := Trace -> A * Trace.

Definition ret {A : Type} (a : A) : M A := fun tr => (a, tr).

Definition bind {A B : Type} (m : M A) (k : A -> M B) : M B :=
  fun tr => let (a, tr') := m tr in k a tr'.

Declare Scope go_scope.
Delimit Scope go_scope with go.
Notation "x <- m ;; k" := (bind m (fun x => k))
  (at level 100, m at next level, right associativity) : go_scope.
Notation "m ;;; k" := (bind m (fun _ => k))
  (at level 100, right associativity) : go_scope.

Section Environment.
Context {G : Type} (w : World G).

Definition Create (llv : LVMLogicalVolume) : M (option error) :=
  fun tr => (kcCreate w (calls isCreate tr) llv, tr ++ [EvCreate llv]).

Definition Get (name namespace : string) : M (LVMLogicalVolume + error) :=
  fun tr => (kcGet w (calls isGet tr) name namespace, tr ++ [EvGet name namespace]).

Definition Update (llv : LVMLogicalVolume) : M (option error) :=
  fun tr => (kcUpdate w (calls isUpdate tr) llv, tr ++ [EvUpdate llv]).

Definition Delete (llv : LVMLogicalVolume) : M (option error) :=
  fun tr => (kcDelete w (calls isDelete tr) llv, tr ++ [EvDelete llv]).

Definition List_ : M (list G + error) :=
  fun tr => (kcList w (calls isList tr), tr ++ [EvList]).

(** Whether [<-ctx.Done()] is ready. *)
Definition Done : M bool :=
  fun tr => (ctxDone w (calls isDone tr), tr ++ [EvDone]).

Definition Sleep (d : Z) : M unit := fun tr => (tt, tr ++ [EvSleep d]).

Definition After (d : Z) : M unit := fun tr => (tt, tr ++ [EvAfter d]).
End Environment.

Definition Millisecond : Z := 1000000.
Definition Second : Z := 1000000000.

(** Go's [int] on the 64-bit platforms the images are built for. *)
Definition int_wrap (z : Z) : Z := (z + 2 ^ 63) mod 2 ^ 64 - 2 ^ 63.

(** ** images/sds-local-volume-csi/src/pkg/utils/func.go

    The arguments [ctx], [kc] and [log] are the environment; a trace
    identifier is only logged.  Logging is not modelled. *)

Module SdsLocalVolumeCsi.
Local Open Scope go_scope.

Definition LLVStatusCreated : string := "Created".
Definition LLVStatusFailed : string := "Failed".
Definition LLVTypeThin : string := "Thin".
Definition KubernetesAPIRequestLimit : Z := 3.
Definition KubernetesAPIRequestTimeout : Z := 1.
Definition SDSLocalVolumeCSIFinalizer : string :=
  "storage.deckhouse.io/sds-local-volume-csi".

(** Modelled from the spec: the constants [internal.LVMTypeThick] and
    [internal.LVMTypeThin] of package [internal], which is not among the
    sources.  The spec names the two volume types Thick and Thin. *)
Definition LVMTypeThick : string := "Thick".
Definition LVMTypeThin : string := "Thin".

Definition withFinalizers (llv : LVMLogicalVolume) (fs : list string) : LVMLogicalVolume :=
  {| llv_Name := llv_Name llv; OwnerReferences := OwnerReferences llv;
     Finalizers := fs; DeletionTimestamp := DeletionTimestamp llv;
     llv_Spec := llv_Spec llv; llv_Status := llv_Status llv |}.

(** The inner loop of [removeLLVFinalizerIfExist]: [slices.Delete] of the
    first element equal to [finalizer]; [None] when there is none
    ([removed] stays false). *)
Fixpoint deleteFirst (finalizer : string) (finalizers : list string) : option (list string) :=
  match finalizers with
  | [] => None
  | val :: rest =>
      if String.eqb val finalizer then Some rest
      else match deleteFirst finalizer rest with
           | Some rest' => Some (val :: rest')
           | None => None
           end
  end.

Definition GetLVMThinPoolFreeSpace (lvg : LVMVolumeGroup) (thinPoolName : string)
  : Quantity * option error :=
  match List.find (fun thinPool => String.eqb (tp_Name thinPool) thinPoolName) (ThinPools lvg) with
  | Some storagePoolThinPool => (AvailableSpace storagePoolThinPool, None)
  | None =>
      (zeroQuantity,
       Some (Errorf "[GetLVMThinPoolFreeSpace] thin pool %s not found in lvg %+v"
                    [ArgS thinPoolName; ArgLVG lvg] None))
  end.

(** The [switch lvmType] of [GetNodeWithMaxFreeSpace]: the new value of
    [freeSpace], or the values returned with an error.  An [lvmType] that
    is neither constant leaves [freeSpace] as it was. *)
Definition freeSpaceOf (storageClassLVGParametersMap : gmap string string)
    (lvmType : string) (freeSpace : Quantity) (lvg : LVMVolumeGroup)
  : Quantity + Quantity * error :=
  if String.eqb lvmType LVMTypeThick then inl (VGFree lvg)
  else if String.eqb lvmType LVMTypeThin then
    match storageClassLVGParametersMap !! lvg_Name lvg with
    | None =>
        inr (freeSpace,
             Errorf "thin pool name for lvg %s not found in storage class parameters: %+v"
                    [ArgS (lvg_Name lvg); ArgParams storageClassLVGParametersMap] None)
    | Some thinPoolName =>
        match GetLVMThinPoolFreeSpace lvg thinPoolName with
        | (freeSpace', Some err) =>
            inr (freeSpace',
                 Errorf "get free space for thin pool %s in lvg %s: %w"
                        [ArgS thinPoolName; ArgS (lvg_Name lvg)] (Some err))
        | (freeSpace', None) => inl freeSpace'
        end
    end
  else inl freeSpace.

Fixpoint GetNodeWithMaxFreeSpace_loop (lvgs : list LVMVolumeGroup)
    (storageClassLVGParametersMap : gmap string string) (lvmType : string)
    (nodeName : string) (freeSpace : Quantity) (maxFreeSpace : Z)
  : outcome (string * Quantity * option error) :=
  match lvgs with
  | [] => Returns (nodeName, NewQuantity maxFreeSpace, None)
  | lvg :: rest =>
      match freeSpaceOf storageClassLVGParametersMap lvmType freeSpace lvg with
      | inr (freeSpace', err) => Returns ("", freeSpace', Some err)
      | inl freeSpace' =>
          if Value freeSpace' >? maxFreeSpace then
            match Nodes lvg !! 0%nat with
            | Some node =>
                GetNodeWithMaxFreeSpace_loop rest storageClassLVGParametersMap lvmType
                  (node_Name node) freeSpace' (Value freeSpace')
            | None => Panics
            end
          else
            GetNodeWithMaxFreeSpace_loop rest storageClassLVGParametersMap lvmType
              nodeName freeSpace' maxFreeSpace
      end
  end.

Definition GetNodeWithMaxFreeSpace (lvgs : list LVMVolumeGroup)
    (storageClassLVGParametersMap : gmap string string) (lvmType : string)
  : outcome (string * Quantity * option error) :=
  GetNodeWithMaxFreeSpace_loop lvgs storageClassLVGParametersMap lvmType "" zeroQuantity 0.

(** The zero value [snc.LVMVolumeGroup{}]. *)
Definition zeroLVMVolumeGroup : LVMVolumeGroup :=
  {| lvg_Name := ""; ActualVGNameOnTheNode := ""; VGSize := zeroQuantity;
     VGFree := zeroQuantity; AllocatedSize := zeroQuantity; Nodes := []; ThinPools := [] |}.

Fixpoint SelectLVG (storageClassLVGs : list LVMVolumeGroup) (nodeName : string)
  : outcome (LVMVolumeGroup * option error) :=
  match storageClassLVGs with
  | [] =>
      Returns (zeroLVMVolumeGroup,
               Some (Errorf "[SelectLVG] no LVMVolumeGroup found for node %s"
                            [ArgS nodeName] None))
  | lvg :: rest =>
      match Nodes lvg !! 0%nat with
      | Some node =>
          if String.eqb (node_Name node) nodeName then Returns (lvg, None)
          else SelectLVG rest nodeName
      | None => Panics
      end
  end.

(** The two nested loops of [GetLVMVolumeGroupParams] over the thin pools
    of the group and the values of [lvmVG]: whether some pool is named by
    some value.  Go ranges over the map in no fixed order; whether a match
    exists does not depend on it. *)
Definition thinPoolListed (lvmVG : gmap string string) (lvg : LVMVolumeGroup) : bool :=
  existsb (fun thinPool =>
             existsb (fun kv : string * string => String.eqb (tp_Name thinPool) kv.2)
                     (map_to_list lvmVG))
          (ThinPools lvg).

(** The loop of [GetLVMVolumeGroupParams].  The log line of a group named
    in [lvmVG] reads [lvg.Status.Nodes[0].Name]. *)
Fixpoint GetLVMVolumeGroupParams_loop (items : list LVMVolumeGroup)
    (lvmVG : gmap string string) (nodeName lvmType : string)
  : outcome (string * string * option error) :=
  match items with
  | [] => Returns ("", "", Some (Errorf "there are no matches" [] None))
  | lvg :: rest =>
      match lvmVG !! lvg_Name lvg with
      | Some _ =>
          match Nodes lvg !! 0%nat with
          | None => Panics
          | Some node =>
              if String.eqb (node_Name node) nodeName then
                if String.eqb lvmType LLVTypeThin && thinPoolListed lvmVG lvg then
                  Returns (lvg_Name lvg, ActualVGNameOnTheNode lvg, None)
                else Returns (lvg_Name lvg, ActualVGNameOnTheNode lvg, None)
              else GetLVMVolumeGroupParams_loop rest lvmVG nodeName lvmType
          end
      | None => GetLVMVolumeGroupParams_loop rest lvmVG nodeName lvmType
      end
  end.

(** The first loop of [GetStorageClassLVGsAndParameters]:
    [storageClassLVGParametersMap[v.Name] = v.Thin.PoolName] for each
    entry, in order. *)
Fixpoint parametersMap (storageClassLVGParametersList : list (string * string))
    (storageClassLVGParametersMap : gmap string string) : gmap string string :=
  match storageClassLVGParametersList with
  | [] => storageClassLVGParametersMap
  | (name, poolName) :: rest =>
      parametersMap rest (<[name := poolName]> storageClassLVGParametersMap)
  end.

(** Its second loop: the groups named in the map are appended; the log
    line of such a group reads [lvg.Status.Nodes[0].Name]. *)
Fixpoint storageClassLVGs_loop (items : list LVMVolumeGroup)
    (storageClassLVGParametersMap : gmap string string)
    (storageClassLVGs : list LVMVolumeGroup) : outcome (list LVMVolumeGroup) :=
  match items with
  | [] => Returns storageClassLVGs
  | lvg :: rest =>
      match storageClassLVGParametersMap !! lvg_Name lvg with
      | Some _ =>
          match Nodes lvg !! 0%nat with
          | Some _ =>
              storageClassLVGs_loop rest storageClassLVGParametersMap (storageClassLVGs ++ [lvg])
          | None => Panics
          end
      | None => storageClassLVGs_loop rest storageClassLVGParametersMap storageClassLVGs
      end
  end.

Section Specs.
(** [Quantity.String] is taken as given. *)
Context (Quantity_String : Quantity -> string).

Definition GetLLVSpec (lvName : string) (selectedLVG : LVMVolumeGroup)
    (storageClassLVGParametersMap : gmap string string) (lvmType : string)
    (llvSize : Quantity) (contiguous : bool) : LVMLogicalVolumeSpec :=
  let thin :=
    if String.eqb lvmType LVMTypeThin then
      Some {| PoolName := default "" (storageClassLVGParametersMap !! lvg_Name selectedLVG) |}
    else None in
  let thick :=
    if String.eqb lvmType LVMTypeThin then None
    else if String.eqb lvmType LVMTypeThick then
      if contiguous then Some {| Contiguous := Some contiguous |} else None
    else None in
  {| ActualLVNameOnTheNode := lvName; Type_ := lvmType; Size := Quantity_String llvSize;
     LVMVolumeGroupName := lvg_Name selectedLVG; Thin := thin; Thick := thick |}.

(** The constant [internal.LVMVThickContiguousParamKey] of package
    [internal] is not among the sources; it is taken as given.
    [Parameters] is [request.Parameters]. *)
Context (LVMVThickContiguousParamKey : string).

Definition IsContiguous (Parameters : gmap string string) (lvmType : string) : bool :=
  if String.eqb lvmType LVMTypeThin then false
  else
    match Parameters !! LVMVThickContiguousParamKey with
    | Some val => String.eqb val "true"
    | None => false
    end.
End Specs.

Section WithWorld.
Context (w : World LVMVolumeGroup).

Definition CreateLVMLogicalVolume (name : string)
    (lvmLogicalVolumeSpec : LVMLogicalVolumeSpec)
  : M (LVMLogicalVolume * option error) :=
  let llv := {| llv_Name := name; OwnerReferences := [];
                Finalizers := [SDSLocalVolumeCSIFinalizer];
                DeletionTimestamp := None;
                llv_Spec := lvmLogicalVolumeSpec; llv_Status := None |} in
  err <- Create w llv ;;
  ret (llv, err).

(** [kc.Get] fills [llv], which starts as the zero value; the pointer
    returned is never nil. *)
Definition GetLVMLogicalVolume (lvmLogicalVolumeName namespace : string)
  : M (LVMLogicalVolume * option error) :=
  r <- Get w lvmLogicalVolumeName namespace ;;
  match r with
  | inl llv => ret (llv, None)
  | inr err => ret (zeroLVMLogicalVolume, Some err)
  end.

(** [n] is the number of iterations left, [KubernetesAPIRequestLimit -
    attempt].  The third component of the result is the record [llv]
    points to when the function returns. *)
Fixpoint removeLLVFinalizerIfExist_loop (n : nat) (attempt : Z)
    (llv : LVMLogicalVolume) (finalizer : string)
  : M (bool * option error * LVMLogicalVolume) :=
  match n with
  | O =>
      ret (false,
           Some (Errorf "after %d attempts of removing finalizer %s from LVMLogicalVolume %s, last error: %w"
                        [ArgD KubernetesAPIRequestLimit; ArgS finalizer; ArgS (llv_Name llv)]
                        None),
           llv)
  | S n' =>
      match deleteFirst finalizer (Finalizers llv) with
      | None => ret (false, None, llv)
      | Some finalizers =>
          let llv := withFinalizers llv finalizers in
          err <- Update w llv ;;
          match err with
          | None => ret (true, None, llv)
          | Some err =>
              if negb (IsConflict err) then
                ret (false,
                     Some (Errorf "[removeLLVFinalizerIfExist] error updating LVMLogicalVolume %s: %w"
                                  [ArgS (llv_Name llv)] (Some err)),
                     llv)
              else if attempt <? KubernetesAPIRequestLimit - 1 then
                done <- Done w ;;
                if done then ret (false, Some (ctxErr w), llv)
                else
                  Sleep (KubernetesAPIRequestTimeout * Second) ;;;
                  fresh <- GetLVMLogicalVolume (llv_Name llv) "" ;;
                  match fresh with
                  | (_, Some getErr) =>
                      ret (false,
                           Some (Errorf "[removeLLVFinalizerIfExist] error getting LVMLogicalVolume %s after update conflict: %w"
                                        [ArgS (llv_Name llv)] (Some getErr)),
                           llv)
                  | (freshLLV, None) =>
                      removeLLVFinalizerIfExist_loop n' (attempt + 1) freshLLV finalizer
                  end
              else removeLLVFinalizerIfExist_loop n' (attempt + 1) llv finalizer
          end
      end
  end.

Definition removeLLVFinalizerIfExist (llv : LVMLogicalVolume) (finalizer : string)
  : M (bool * option error * LVMLogicalVolume) :=
  removeLLVFinalizerIfExist_loop (Z.to_nat KubernetesAPIRequestLimit) 0 llv finalizer.

Definition DeleteLVMLogicalVolume (lvmLogicalVolumeName : string) : M (option error) :=
  got <- GetLVMLogicalVolume lvmLogicalVolumeName "" ;;
  match got with
  | (_, Some err) =>
      ret (Some (Errorf "get LVMLogicalVolume %s: %w" [ArgS lvmLogicalVolumeName] (Some err)))
  | (llv, None) =>
      r <- removeLLVFinalizerIfExist llv SDSLocalVolumeCSIFinalizer ;;
      match r with
      | (_, Some err, _) =>
          ret (Some (Errorf "remove finalizers from LVMLogicalVolume %s: %w"
                            [ArgS lvmLogicalVolumeName] (Some err)))
      | (_, None, llv) => Delete w llv
      end
  end.

(** The loop [for { ... }] has no bound; [fuel] bounds the number of
    iterations the model runs, and [None] says it ran out. *)
Fixpoint WaitForStatusUpdate_loop (fuel : nat) (lvmLogicalVolumeName namespace : string)
    (llvSize delta : Quantity) (attemptCounter : Z) (sizeEquals : bool)
  : M (option (Z * option error)) :=
  match fuel with
  | O => ret None
  | S fuel' =>
      let attemptCounter := int_wrap (attemptCounter + 1) in
      done <- Done w ;;
      if done then ret (Some (attemptCounter, Some (ctxErr w)))
      else
        Sleep (500 * Millisecond) ;;;
        got <- GetLVMLogicalVolume lvmLogicalVolumeName namespace ;;
        match got with
        | (_, Some err) => ret (Some (attemptCounter, Some err))
        | (llv, None) =>
            match llv_Status llv with
            | Some status =>
                let sizeEquals := AreSizesEqualWithinDelta llvSize (ActualSize status) delta in
                if DeletionTimestamp llv is Some _ then
                  ret (Some (attemptCounter,
                             Some (Errorf "failed to create LVM logical volume on node for LVMLogicalVolume %s, reason: LVMLogicalVolume is being deleted"
                                          [ArgS lvmLogicalVolumeName] None)))
                else if String.eqb (Phase status) LLVStatusFailed then
                  ret (Some (attemptCounter,
                             Some (Errorf "failed to create LVM logical volume on node for LVMLogicalVolume %s, reason: %s"
                                          [ArgS lvmLogicalVolumeName; ArgS (Reason status)] None)))
                else if String.eqb (Phase status) LLVStatusCreated then
                  if sizeEquals then ret (Some (attemptCounter, None))
                  else
                    WaitForStatusUpdate_loop fuel' lvmLogicalVolumeName namespace
                      llvSize delta attemptCounter sizeEquals
                else
                  WaitForStatusUpdate_loop fuel' lvmLogicalVolumeName namespace
                    llvSize delta attemptCounter sizeEquals
            | None =>
                WaitForStatusUpdate_loop fuel' lvmLogicalVolumeName namespace
                  llvSize delta attemptCounter sizeEquals
            end
        end
  end.

Definition WaitForStatusUpdate (fuel : nat) (lvmLogicalVolumeName namespace : string)
    (llvSize delta : Quantity) : M (option (Z * option error)) :=
  WaitForStatusUpdate_loop fuel lvmLogicalVolumeName namespace llvSize delta 0 false.

Definition withSize (llv : LVMLogicalVolume) (newSize : string) : LVMLogicalVolume :=
  {| llv_Name := llv_Name llv; OwnerReferences := OwnerReferences llv;
     Finalizers := Finalizers llv; DeletionTimestamp := DeletionTimestamp llv;
     llv_Spec := {| ActualLVNameOnTheNode := ActualLVNameOnTheNode (llv_Spec llv);
                    Type_ := Type_ (llv_Spec llv); Size := newSize;
                    LVMVolumeGroupName := LVMVolumeGroupName (llv_Spec llv);
                    Thin := Thin (llv_Spec llv); Thick := Thick (llv_Spec llv) |};
     llv_Status := llv_Status llv |}.

(** The second component is the record [llv] points to afterwards. *)
Definition ExpandLVMLogicalVolume (llv : LVMLogicalVolume) (newSize : string)
  : M (option error * LVMLogicalVolume) :=
  let llv := withSize llv newSize in
  err <- Update w llv ;;
  ret (err, llv).

(** [kc.List] fills the list, which starts empty. *)
Definition GetLVGList : M (list LVMVolumeGroup * option error) :=
  r <- List_ w ;;
  match r with
  | inl items => ret (items, None)
  | inr err => ret ([], Some err)
  end.

Definition GetLVMVolumeGroupParams (lvmVG : gmap string string) (nodeName lvmType : string)
  : M (outcome (string * string * option error)) :=
  r <- List_ w ;;
  match r with
  | inr err =>
      ret (Returns ("", "", Some (Errorf "error getting LVMVolumeGroup list: %w" [] (Some err))))
  | inl items => ret (GetLVMVolumeGroupParams_loop items lvmVG nodeName lvmType)
  end.

(** The type [LVMVolumeGroups] that [yaml.Unmarshal] fills is declared in
    a file that is not among the sources; the decoder is taken as given
    and answers, for each entry, the two fields read here: [v.Name] and
    [v.Thin.PoolName]. *)
Definition GetStorageClassLVGsAndParameters
    (yaml_Unmarshal : string -> list (string * string) + error)
    (storageClassLVGParametersString : string)
  : M (outcome (list LVMVolumeGroup * gmap string string * option error)) :=
  match yaml_Unmarshal storageClassLVGParametersString with
  | inr err => ret (Returns ([], ∅, Some err))
  | inl storageClassLVGParametersList =>
      let storageClassLVGParametersMap := parametersMap storageClassLVGParametersList ∅ in
      lvgs <- GetLVGList ;;
      match lvgs with
      | (_, Some err) => ret (Returns ([], ∅, Some err))
      | (items, None) =>
          match storageClassLVGs_loop items storageClassLVGParametersMap [] with
          | Returns storageClassLVGs =>
              ret (Returns (storageClassLVGs, storageClassLVGParametersMap, None))
          | Panics => ret Panics
          end
      end
  end.
End WithWorld.
End SdsLocalVolumeCsi.

(** ** images/sds-lvm-csi/pkg/utils/func.go *)

Module SdsLvmCsi.
Local Open Scope go_scope.

Definition LLVStatusCreated : string := "Created".
Definition LLVStatusFailed : string := "Failed".
Definition LLVTypeThin : string := "Thin".
Definition KubernetesApiRequestLimit : Z := 3.
(** [time.Sleep(KubernetesApiRequestTimeout)] sleeps for this many
    nanoseconds. *)
Definition KubernetesApiRequestTimeout : Z := 1.

(** The part of [k8s.io/apimachinery/pkg/api/resource] the capacity
    functions compute with, taken as given: [Q] is [resource.Quantity],
    an exact decimal number.  [Quantity_Sub q y] is the value of [q] after
    [q.Sub(y)], the exact difference; [Quantity_Value q] is the [int64]
    that [q.Value()] returns, which need not be exact: a fraction is
    rounded to a whole number, and a number outside [int64] is not kept.
    So [Quantity_Value] of a difference is not the difference of the
    [Quantity_Value]s.  [Quantity_zero] is [resource.Quantity{}] and
    [Quantity_New v] is [*resource.NewQuantity(v, resource.BinarySI)]. *)
Record ResourceQuantity (Q : Type) : Type := {
  ParseQuantity : string -> Q + error;
  Quantity_Sub : Q -> Q -> Q;
  Quantity_Value : Q -> Z;
  Quantity_zero : Q;
  Quantity_New : Z -> Q
}.
Arguments ParseQuantity {Q} _ _.
Arguments Quantity_Sub {Q} _ _ _.
Arguments Quantity_Value {Q} _ _.
Arguments Quantity_zero {Q} _.
Arguments Quantity_New {Q} _ _.

Section WithWorld.
Context (w : World LvmVolumeGroup) {Q : Type} (R : ResourceQuantity Q).

(** [err] is the variable declared before the loop; each attempt
    assigns it. *)
Fixpoint CreateLVMLogicalVolume_loop (n : nat) (name : string)
    (llv : LVMLogicalVolume) (err : option error)
  : M (option LVMLogicalVolume * option error) :=
  match n with
  | O =>
      match err with
      | Some err =>
          ret (None,
               Some (Errorf "after %d attempts of creating LVMLogicalVolume %s, last error: %w"
                            [ArgD KubernetesApiRequestLimit; ArgS name] (Some err)))
      | None => ret (Some llv, None)
      end
  | S n' =>
      err <- Create w llv ;;
      match err with
      | None => ret (Some llv, None)
      | Some e =>
          if IsAlreadyExists e then ret (None, Some e)
          else
            Sleep KubernetesApiRequestTimeout ;;;
            CreateLVMLogicalVolume_loop n' name llv err
      end
  end.

Definition CreateLVMLogicalVolume (name : string)
    (LVMLogicalVolumeSpec : LVMLogicalVolumeSpec)
  : M (option LVMLogicalVolume * option error) :=
  let err : option error := None in
  let llv := {| llv_Name := name; OwnerReferences := []; Finalizers := [];
                DeletionTimestamp := None;
                llv_Spec := LVMLogicalVolumeSpec; llv_Status := None |} in
  CreateLVMLogicalVolume_loop (Z.to_nat KubernetesApiRequestLimit) name llv err.

(** [err] is the variable declared before the loop.  The body declares
    its own, [err := kc.Delete(ctx, llv)], so the outer one is passed
    on as it is. *)
Fixpoint DeleteLVMLogicalVolume_loop (n : nat) (LVMLogicalVolumeName : string)
    (llv : LVMLogicalVolume) (err : option error) : M (option error) :=
  match n with
  | O =>
      match err with
      | Some err =>
          ret (Some (Errorf "after %d attempts of deleting LVMLogicalVolume %s, last error: %w"
                            [ArgD KubernetesApiRequestLimit; ArgS LVMLogicalVolumeName]
                            (Some err)))
      | None => ret None
      end
  | S n' =>
      err' <- Delete w llv ;;
      match err' with
      | None => ret None
      | Some _ =>
          Sleep KubernetesApiRequestTimeout ;;;
          DeleteLVMLogicalVolume_loop n' LVMLogicalVolumeName llv err
      end
  end.

Definition DeleteLVMLogicalVolume (LVMLogicalVolumeName : string) : M (option error) :=
  let err : option error := None in
  let llv := {| llv_Name := LVMLogicalVolumeName; OwnerReferences := [];
                Finalizers := []; DeletionTimestamp := None;
                llv_Spec := zeroLVMLogicalVolumeSpec; llv_Status := None |} in
  DeleteLVMLogicalVolume_loop (Z.to_nat KubernetesApiRequestLimit)
    LVMLogicalVolumeName llv err.

(** The result is [(&llv, nil)] or [(nil, err)]. *)
Fixpoint GetLVMLogicalVolume_loop (n : nat) (LVMLogicalVolumeName namespace : string)
    (err : option error) : M (LVMLogicalVolume + error) :=
  match n with
  | O =>
      ret (inr (Errorf "after %d attempts of getting LVMLogicalVolume %s in namespace %s, last error: %w"
                       [ArgD KubernetesApiRequestLimit; ArgS LVMLogicalVolumeName; ArgS namespace]
                       err))
  | S n' =>
      r <- Get w LVMLogicalVolumeName namespace ;;
      match r with
      | inl llv => ret (inl llv)
      | inr e =>
          Sleep KubernetesApiRequestTimeout ;;;
          GetLVMLogicalVolume_loop n' LVMLogicalVolumeName namespace (Some e)
      end
  end.

Definition GetLVMLogicalVolume (LVMLogicalVolumeName namespace : string)
  : M (LVMLogicalVolume + error) :=
  GetLVMLogicalVolume_loop (Z.to_nat KubernetesApiRequestLimit)
    LVMLogicalVolumeName namespace None.

(** The [select] waits for [ctx.Done()] or for [time.After]; [Done]
    says which of the two came first.  [fuel] is as in the other
    image. *)
Fixpoint WaitForStatusUpdate_loop (fuel : nat) (LVMLogicalVolumeName namespace : string)
    (llvSize delta : Quantity) (attemptCounter : Z) (sizeEquals : bool)
  : M (option (Z * option error)) :=
  match fuel with
  | O => ret None
  | S fuel' =>
      let attemptCounter := int_wrap (attemptCounter + 1) in
      After (500 * Millisecond) ;;;
      done <- Done w ;;
      if done then ret (Some (attemptCounter, Some (ctxErr w)))
      else
        got <- GetLVMLogicalVolume LVMLogicalVolumeName namespace ;;
        match got with
        | inr err => ret (Some (attemptCounter, Some err))
        | inl llv =>
            match llv_Status llv with
            | Some status =>
                let sizeEquals := AreSizesEqualWithinDelta llvSize (ActualSize status) delta in
                if String.eqb (Phase status) LLVStatusFailed then
                  ret (Some (attemptCounter,
                             Some (Errorf "LVM Logical Volume %s failed, reason: %s"
                                          [ArgS LVMLogicalVolumeName; ArgS (Reason status)] None)))
                else if String.eqb (Phase status) LLVStatusCreated && sizeEquals then
                  ret (Some (attemptCounter, None))
                else
                  WaitForStatusUpdate_loop fuel' LVMLogicalVolumeName namespace
                    llvSize delta attemptCounter sizeEquals
            | None =>
                WaitForStatusUpdate_loop fuel' LVMLogicalVolumeName namespace
                  llvSize delta attemptCounter sizeEquals
            end
        end
  end.

Definition WaitForStatusUpdate (fuel : nat) (LVMLogicalVolumeName namespace : string)
    (llvSize delta : Quantity) : M (option (Z * option error)) :=
  WaitForStatusUpdate_loop fuel LVMLogicalVolumeName namespace llvSize delta 0 false.

(** [vgFreeSpace] is the named result: the zero quantity until
    [vgFreeSpace = vgSize; vgFreeSpace.Sub(allocatedSize)]. *)
Definition GetLVMVolumeGroupFreeSpace (lvg : LvmVolumeGroup) : Q * option error :=
  match ParseQuantity R (lvmvg_VGSize lvg) with
  | inr err =>
      (Quantity_zero R,
       Some (Errorf "parse size vgSize (%s): %w" [ArgS (lvmvg_VGSize lvg)] (Some err)))
  | inl vgSize =>
      match ParseQuantity R (lvmvg_AllocatedSize lvg) with
      | inr err =>
          (Quantity_zero R,
           Some (Errorf "parse size vgSize (%s): %w" [ArgS (lvmvg_AllocatedSize lvg)] (Some err)))
      | inl allocatedSize => (Quantity_Sub R vgSize allocatedSize, None)
      end
  end.

(** The retried [kc.List]: the items listed and the last error. *)
Fixpoint GetNodeMaxFreeVGSize_list (n : nat) (items : list LvmVolumeGroup)
    (err : option error) : M (list LvmVolumeGroup * option error) :=
  match n with
  | O => ret (items, err)
  | S n' =>
      r <- List_ w ;;
      match r with
      | inl items' => ret (items', None)
      | inr e =>
          Sleep KubernetesApiRequestTimeout ;;;
          GetNodeMaxFreeVGSize_list n' items (Some e)
      end
  end.

Fixpoint GetNodeMaxFreeVGSize_loop (items : list LvmVolumeGroup)
    (nodeName : string) (maxFreeSpace : Z)
  : outcome (string * Q * option error) :=
  match items with
  | [] => Returns (nodeName, Quantity_New R maxFreeSpace, None)
  | lvg :: rest =>
      match GetLVMVolumeGroupFreeSpace lvg with
      | (freeSpace, Some err) =>
          Returns ("", freeSpace,
                   Some (Errorf "get free space for lvg %s: %w" [ArgS (lvmvg_Name lvg)] (Some err)))
      | (freeSpace, None) =>
          if Quantity_Value R freeSpace >? maxFreeSpace then
            match lvmvg_Nodes lvg !! 0%nat with
            | Some node =>
                GetNodeMaxFreeVGSize_loop rest (node_Name node) (Quantity_Value R freeSpace)
            | None => Panics
            end
          else GetNodeMaxFreeVGSize_loop rest nodeName maxFreeSpace
      end
  end.

Definition GetNodeMaxFreeVGSize : M (outcome (string * Q * option error)) :=
  listed <- GetNodeMaxFreeVGSize_list (Z.to_nat KubernetesApiRequestLimit) [] None ;;
  match listed with
  | (_, Some err) =>
      ret (Returns ("", Quantity_zero R,
                    Some (Errorf "after %d attempts of getting LvmVolumeGroups, last error: %w"
                                 [ArgD KubernetesApiRequestLimit] (Some err))))
  | (items, None) => ret (GetNodeMaxFreeVGSize_loop items "" 0)
  end.
(** [err] is the variable declared before the loop; each attempt assigns
    it. *)
Fixpoint UpdateLVMLogicalVolume_loop (n : nat) (llv : LVMLogicalVolume)
    (err : option error) : M (option error) :=
  match n with
  | O =>
      match err with
      | Some err =>
          ret (Some (Errorf "after %d attempts of updating LVMLogicalVolume %s, last error: %w"
                            [ArgD KubernetesApiRequestLimit; ArgS (llv_Name llv)] (Some err)))
      | None => ret None
      end
  | S n' =>
      err <- Update w llv ;;
      match err with
      | None => ret None
      | Some _ =>
          Sleep KubernetesApiRequestTimeout ;;;
          UpdateLVMLogicalVolume_loop n' llv err
      end
  end.

Definition UpdateLVMLogicalVolume (llv : LVMLogicalVolume) : M (option error) :=
  UpdateLVMLogicalVolume_loop (Z.to_nat KubernetesApiRequestLimit) llv None.
End WithWorld.
End SdsLvmCsi.

(** ** images/sds-lvm-csi/driver/node.go

    The requests are those of the CSI protocol; their getters answer nil
    on a nil receiver.  [d.mounter] is the environment: it answers each
    call, and a run records the calls it makes. *)

Module SdsLvmCsiDriver.

(** The [access_type] of a volume capability: a block volume, or a mount
    volume with its file system type and mount flags. *)
Inductive AccessType : Type :=
| Block
| Mount (FsType : string) (MountFlags : list string).

(** [AccessType] is nil when the capability sets neither. *)
Record VolumeCapability : Type := { accessType : option AccessType }.

Record NodePublishVolumeRequest : Type := {
  VolumeId : string;
  TargetPath : string;
  volumeCapability : option VolumeCapability;
  Readonly : bool;
  VolumeContext : gmap string string
}.

(** The arguments of [d.mounter.Mount], in order.  The interface of the
    mounter is not among the sources; the fields are named after the values
    the call passes, and [flag] is the boolean it passes fifth. *)
Record MountArgs : Type := {
  source : string;
  target : string;
  isBlock : bool;
  fsType : string;
  flag : bool;
  mntOpts : list string
}.

Inductive MounterCall : Type :=
| CallMount (args : MountArgs)
| CallUnmount (target : string).

Record Mounter : Type := {
  mounter_Mount : MountArgs -> option error;
  mounter_Unmount : string -> option error
}.

Definition GetBlock (c : option VolumeCapability) : bool :=
  match c with
  | Some {| accessType := Some Block |} => true
  | _ => false
  end.

Definition GetMount (c : option VolumeCapability) : option (string * list string) :=
  match c with
  | Some {| accessType := Some (Mount fs flags) |} => Some (fs, flags)
  | _ => None
  end.

Section Driver.
(** The constant [VGNameKey] is declared in a file that is not among the
    sources; it is taken as given. *)
Context (mounter : Mounter) (VGNameKey : string).

(** The result is the response (an empty message, or nil), the error and
    the calls made to the mounter. *)
Definition NodePublishVolume (request : NodePublishVolumeRequest)
  : option unit * option error * list MounterCall :=
  let dev := "/dev/" +:+ default "" (VolumeContext request !! VGNameKey)
             +:+ "/" +:+ VolumeId request in
  let mountOptions : list string := if Readonly request then ["ro"] else [] in
  let '(mountOptions, IsBlock) :=
    if GetBlock (volumeCapability request) then (["bind"], true)
    else (mountOptions, false) in
  let '(fsType, mountOptions) :=
    match GetMount (volumeCapability request) with
    | Some (fs, flags) => (fs, mountOptions ++ flags)
    | None => ("", mountOptions)
    end in
  let args := {| source := dev; target := TargetPath request; isBlock := IsBlock;
                 fsType := fsType; flag := false; mntOpts := mountOptions |} in
  match mounter_Mount mounter args with
  | Some err => (None, Some err, [CallMount args])
  | None => (Some tt, None, [CallMount args])
  end.

(** The error of [Unmount] is logged and dropped. *)
Definition NodeUnpublishVolume (targetPath : string)
  : option unit * option error * list MounterCall :=
  match mounter_Unmount mounter targetPath with
  | Some _ => (Some tt, None, [CallUnmount targetPath])
  | None => (Some tt, None, [CallUnmount targetPath])
  end.
End Driver.
End SdsLvmCsiDriver.

(** ** The selection the spec asks of NodeWithMaxFreeSpace

    Written after the spec: over the groups' (free space, host node) pairs,
    in list order, track the running maximum; a group replaces it only when
    its free space is strictly greater. *)
Fixpoint runningMax (groups : list (Z * string)) (nodeName : string) (maxFreeSpace : Z)
  : string * Z :=
  match groups with
  | [] => (nodeName, maxFreeSpace)
  | (free, node) :: rest =>
      if free >? maxFreeSpace then runningMax rest node free
      else runningMax rest nodeName maxFreeSpace
  end.

(** [lvg.Status.Nodes[0].Name], where there is such a node. *)
Definition hostNode (nodes : list LVMVolumeGroupNode) : string :=
  match nodes !! 0%nat with
  | Some node => node_Name node
  | None => ""
  end.

(** [free lvg] is the free space the [switch] of [GetNodeWithMaxFreeSpace]
    computes for [lvg], whatever [freeSpace] held before. *)
Definition computesFree (params : gmap string string) (lvmType : string)
    (free : LVMVolumeGroup -> Z) (lvg : LVMVolumeGroup) : Prop :=
  forall prev, exists q,
    SdsLocalVolumeCsi.freeSpaceOf params lvmType prev lvg = inl q /\ Value q = free lvg.

Definition groupsOf (free : LVMVolumeGroup -> Z) (lvgs : list LVMVolumeGroup)
  : list (Z * string) :=
  map (fun lvg => (free lvg, hostNode (Nodes lvg))) lvgs.

(** Both sizes of [lvg] parse, and [free lvg] is its free space as the
    loop of [GetNodeMaxFreeVGSize] reads it: [Value()] of the exact
    difference of [Status.VGSize] and [Status.AllocatedSize]. *)
Definition parsesFree {Q : Type} (R : SdsLvmCsi.ResourceQuantity Q)
    (free : LvmVolumeGroup -> Z) (lvg : LvmVolumeGroup) : Prop :=
  exists vgSize allocatedSize,
    SdsLvmCsi.ParseQuantity R (lvmvg_VGSize lvg) = inl vgSize
    /\ SdsLvmCsi.ParseQuantity R (lvmvg_AllocatedSize lvg) = inl allocatedSize
    /\ free lvg = SdsLvmCsi.Quantity_Value R (SdsLvmCsi.Quantity_Sub R vgSize allocatedSize).

Definition lvmGroupsOf (free : LvmVolumeGroup -> Z) (items : list LvmVolumeGroup)
  : list (Z * string) :=
  map (fun lvg => (free lvg, hostNode (lvmvg_Nodes lvg))) items.

(** The element [x] at index [i] is the first one of [xs] with the largest
    free space, and that is positive: every element before it has strictly
    less, none has more. *)
Definition firstMaxAt {A : Type} (free : A -> Z) (xs : list A) (i : nat) (x : A) : Prop :=
  xs !! i = Some x
  /\ 0 < free x
  /\ (forall (j : nat) y, (j < i)%nat -> xs !! j = Some y -> free y < free x)
  /\ (forall y, y ∈ xs -> free y <= free x).

(** The trace of [n] failed attempts of sds-lvm-csi: each is the call
    followed by the sleep. *)
Fixpoint failedAttempts (n : nat) (call : Event) : Trace :=
  match n with
  | O => []
  | S n' => call :: EvSleep SdsLvmCsi.KubernetesApiRequestTimeout :: failedAttempts n' call
  end.

(** The record [CreateLVMLogicalVolume] of sds-lvm-csi builds. *)
Definition lvmRecord (name : string) (spec : LVMLogicalVolumeSpec) : LVMLogicalVolume :=
  {| llv_Name := name; OwnerReferences := []; Finalizers := [];
     DeletionTimestamp := None; llv_Spec := spec; llv_Status := None |}.

(** The record [CreateLVMLogicalVolume] of sds-local-volume-csi builds. *)
Definition localRecord (name : string) (spec : LVMLogicalVolumeSpec) : LVMLogicalVolume :=
  {| llv_Name := name; OwnerReferences := [];
     Finalizers := [SdsLocalVolumeCsi.SDSLocalVolumeCSIFinalizer];
     DeletionTimestamp := None; llv_Spec := spec; llv_Status := None |}.

(** An observation after which [WaitForStatusUpdate] of
    sds-local-volume-csi goes on waiting: the record has no status yet, or
    it is not being deleted, its phase is not Failed, and it is not Created
    with a size within the tolerance. *)
Definition stillWaiting (llvSize delta : Quantity) (llv : LVMLogicalVolume) : bool :=
  match llv_Status llv with
  | None => true
  | Some status =>
      match DeletionTimestamp llv with
      | Some _ => false
      | None =>
          negb (String.eqb (Phase status) "Failed")
          && negb (String.eqb (Phase status) "Created"
                   && AreSizesEqualWithinDelta llvSize (ActualSize status) delta)
      end
  end.

(** The same for sds-lvm-csi, which does not look at the deletion
    timestamp. *)
Definition stillWaitingLvm (llvSize delta : Quantity) (llv : LVMLogicalVolume) : bool :=
  match llv_Status llv with
  | None => true
  | Some status =>
      negb (String.eqb (Phase status) "Failed")
      && negb (String.eqb (Phase status) "Created"
               && AreSizesEqualWithinDelta llvSize (ActualSize status) delta)
  end.

(** The first [k] observations of a wait that starts at trace [tr]: the
    context is not done and the fetch answers a record that satisfies
    [waiting]. *)
Definition waitsThrough {G : Type} (w : World G) (name namespace : string)
    (waiting : LVMLogicalVolume -> bool) (tr : Trace) (k : nat) : Prop :=
  forall j, (j < k)%nat ->
    ctxDone w (calls isDone tr + j) = false
    /\ exists llv, kcGet w (calls isGet tr + j) name namespace = inl llv
                   /\ waiting llv = true.

(** Observation [k] of such a wait is the record [llv]. *)
Definition observes {G : Type} (w : World G) (name namespace : string)
    (tr : Trace) (k : nat) (llv : LVMLogicalVolume) : Prop :=
  ctxDone w (calls isDone tr + k) = false
  /\ kcGet w (calls isGet tr + k) name namespace = inl llv.

(** A group the loop of [GetLVMVolumeGroupParams] passes over: the map
    does not name it, or it is hosted on another node. *)
Definition passedOver (lvmVG : gmap string string) (nodeName : string)
    (g : LVMVolumeGroup) : Prop :=
  lvmVG !! lvg_Name g = None \/ (Nodes g <> [] /\ hostNode (Nodes g) <> nodeName).

(** ** Sample data *)

Definition Gi : Z := 2 ^ 30.

Definition group (name node : string) (vgFree : Z) : LVMVolumeGroup :=
  {| lvg_Name := name; ActualVGNameOnTheNode := name;
     VGSize := NewQuantity (20 * Gi); VGFree := NewQuantity vgFree;
     AllocatedSize := NewQuantity (20 * Gi - vgFree);
     Nodes := [ {| node_Name := node |} ]; ThinPools := [] |}.

(** Free spaces 5Gi, 12Gi and 12Gi. *)
Definition threeGroups : list LVMVolumeGroup :=
  [group "lvg-a" "node-a" (5 * Gi); group "lvg-b" "node-b" (12 * Gi);
   group "lvg-c" "node-c" (12 * Gi)].

Definition lvmGroup (name node vgSize allocated : string) : LvmVolumeGroup :=
  {| lvmvg_Name := name; lvmvg_VGSize := vgSize; lvmvg_AllocatedSize := allocated;
     lvmvg_Nodes := [ {| node_Name := node |} ] |}.

Definition threeLvmGroups : list LvmVolumeGroup :=
  [lvmGroup "lvg-a" "node-a" "20Gi" "15Gi"; lvmGroup "lvg-b" "node-b" "20Gi" "8Gi";
   lvmGroup "lvg-c" "node-c" "12Gi" "0"].

(** Sample quantities: a quantity is a number of thousandths, which is
    exact for the sizes below.  [sampleParseQuantity] reads the sizes the
    sample groups use. *)
Definition sampleParseQuantity (s : string) : Z + error :=
  if String.eqb s "20Gi" then inl (20 * Gi * 1000)
  else if String.eqb s "15Gi" then inl (15 * Gi * 1000)
  else if String.eqb s "12Gi" then inl (12 * Gi * 1000)
  else if String.eqb s "8Gi" then inl (8 * Gi * 1000)
  else if String.eqb s "1Gi" then inl (Gi * 1000)
  else if String.eqb s "9223372036854775807" then inl (9223372036854775807 * 1000)
  else if String.eqb s "-1" then inl (- 1000)
  else if String.eqb s "2" then inl 2000
  else if String.eqb s "1" then inl 1000
  else if String.eqb s "500m" then inl 500
  else if String.eqb s "0" then inl 0
  else inr (ParseError s).

(** [Value()] of a number of thousandths: the whole number, a fraction
    rounded away from zero, as an [int64]. *)
Definition sampleValue (q : Z) : Z :=
  int_wrap (if 0 <=? q then (q + 999) / 1000 else - ((- q + 999) / 1000)).

Definition sampleQuantities : SdsLvmCsi.ResourceQuantity Z :=
  {| SdsLvmCsi.ParseQuantity := sampleParseQuantity;
     SdsLvmCsi.Quantity_Sub := Z.sub;
     SdsLvmCsi.Quantity_Value := sampleValue;
     SdsLvmCsi.Quantity_zero := 0;
     SdsLvmCsi.Quantity_New := fun v => v * 1000 |}.

(** The free space of a sample group: [Value()] of the difference of its
    two sizes. *)
Definition sampleLvmFree (lvg : LvmVolumeGroup) : Z :=
  match sampleParseQuantity (lvmvg_VGSize lvg),
        sampleParseQuantity (lvmvg_AllocatedSize lvg) with
  | inl vgSize, inl allocatedSize => sampleValue (vgSize - allocatedSize)
  | _, _ => 0
  end.


(** A group with 1Gi free, and one whose difference of sizes is 2^63. *)
Definition overflowLvmGroups : list LvmVolumeGroup :=
  [lvmGroup "lvg-a" "node-a" "1Gi" "0";
   lvmGroup "lvg-o" "node-o" "9223372036854775807" "-1"].

Definition transient : error := StatusError StatusReasonUnknown "connection refused".
Definition conflict : error := StatusError StatusReasonConflict "the object has been modified".
Definition alreadyExists : error := StatusError StatusReasonAlreadyExists "already exists".
Definition canceled : error := ContextError "context canceled".

(** A store that fails every call, under a context that is never done. *)
Definition failingWorld (G : Type) : World G :=
  {| kcCreate := fun _ _ => Some transient;
     kcGet := fun _ _ _ => inr transient;
     kcUpdate := fun _ _ => Some transient;
     kcDelete := fun _ _ => Some transient;
     kcList := fun _ => inr transient;
     ctxDone := fun _ => false;
     ctxErr := canceled |}.


(** Groups without free space: a full one and one that is over-allocated
    and has no node. *)
Definition fullGroups : list LVMVolumeGroup :=
  [group "lvg-a" "node-a" 0;
   {| lvg_Name := "lvg-b"; ActualVGNameOnTheNode := "vg-b";
      VGSize := NewQuantity (20 * Gi); VGFree := NewQuantity (- Gi);
      AllocatedSize := NewQuantity (21 * Gi); Nodes := []; ThinPools := [] |}].

Definition fullLvmGroups : list LvmVolumeGroup :=
  [lvmGroup "lvg-a" "node-a" "20Gi" "20Gi"; lvmGroup "lvg-b" "node-b" "8Gi" "12Gi"].

Definition sampleSpec : LVMLogicalVolumeSpec :=
  {| ActualLVNameOnTheNode := "pvc-1"; Type_ := "Thick"; Size := "10Gi";
     LVMVolumeGroupName := "lvg-b"; Thin := None; Thick := None |}.

(** A record that carries the finalizer of another controller only. *)
Definition foreignRecord : LVMLogicalVolume :=
  {| llv_Name := "pvc-1"; OwnerReferences := [];
     Finalizers := ["storage.deckhouse.io/sds-node-configurator"];
     DeletionTimestamp := None; llv_Spec := sampleSpec; llv_Status := None |}.

(** A record as sds-local-volume-csi creates it. *)
Definition ownedRecord : LVMLogicalVolume :=
  {| llv_Name := "pvc-1"; OwnerReferences := [];
     Finalizers := [SdsLocalVolumeCsi.SDSLocalVolumeCSIFinalizer];
     DeletionTimestamp := None; llv_Spec := sampleSpec; llv_Status := None |}.

(** The record [DeleteLVMLogicalVolume] of sds-lvm-csi sends. *)
Definition deletedRecord : LVMLogicalVolume :=
  {| llv_Name := "pvc-1"; OwnerReferences := []; Finalizers := [];
     DeletionTimestamp := None; llv_Spec := zeroLVMLogicalVolumeSpec;
     llv_Status := None |}.

(** A store whose first [Create] fails for a passing reason and whose
    later ones succeed. *)
Definition flakyWorld (G : Type) : World G :=
  {| kcCreate := fun n _ => match n with O => Some transient | _ => None end;
     kcGet := fun _ _ _ => inr transient;
     kcUpdate := fun _ _ => None;
     kcDelete := fun _ _ => None;
     kcList := fun _ => inr transient;
     ctxDone := fun _ => false;
     ctxErr := canceled |}.

(** A store in which the name is taken: the second [Create] says so. *)
Definition takenWorld (G : Type) : World G :=
  {| kcCreate := fun n _ => match n with O => Some transient | _ => Some alreadyExists end;
     kcGet := fun _ _ _ => inr transient;
     kcUpdate := fun _ _ => None;
     kcDelete := fun _ _ => None;
     kcList := fun _ => inr transient;
     ctxDone := fun _ => false;
     ctxErr := canceled |}.

(** A store that answers every [Update] with a version conflict and every
    [Get] with the record as sds-local-volume-csi created it. *)
Definition conflictWorld : World LVMVolumeGroup :=
  {| kcCreate := fun _ _ => None;
     kcGet := fun _ _ _ => inl ownedRecord;
     kcUpdate := fun _ _ => Some conflict;
     kcDelete := fun _ _ => None;
     kcList := fun _ => inl [];
     ctxDone := fun _ => false;
     ctxErr := canceled |}.

(** The same store, but its third [Update] succeeds. *)
Definition twoConflictsWorld : World LVMVolumeGroup :=
  {| kcCreate := fun _ _ => None;
     kcGet := fun _ _ _ => inl ownedRecord;
     kcUpdate := fun n _ => match n with 0%nat | 1%nat => Some conflict | _ => None end;
     kcDelete := fun _ _ => None;
     kcList := fun _ => inl [];
     ctxDone := fun _ => false;
     ctxErr := canceled |}.

Definition observed (deletion : option Z) (status : option LVMLogicalVolumeStatus)
  : LVMLogicalVolume :=
  {| llv_Name := "pvc-1"; OwnerReferences := [];
     Finalizers := [SdsLocalVolumeCsi.SDSLocalVolumeCSIFinalizer];
     DeletionTimestamp := deletion; llv_Spec := sampleSpec; llv_Status := status |}.

Definition pendingStatus : LVMLogicalVolumeStatus :=
  {| Phase := "Pending"; Reason := ""; ActualSize := zeroQuantity |}.
Definition createdWrongSize : LVMLogicalVolumeStatus :=
  {| Phase := "Created"; Reason := ""; ActualSize := NewQuantity (5 * Gi) |}.
Definition createdRightSize : LVMLogicalVolumeStatus :=
  {| Phase := "Created"; Reason := ""; ActualSize := NewQuantity (10 * Gi) |}.
Definition failedStatus : LVMLogicalVolumeStatus :=
  {| Phase := "Failed"; Reason := "not enough space"; ActualSize := zeroQuantity |}.

(** A store whose n-th [Get] answers the n-th record of a script, under a
    context that is never done. *)
Definition scriptedWorld (G : Type) (script : list LVMLogicalVolume) : World G :=
  {| kcCreate := fun _ _ => None;
     kcGet := fun n _ _ => match script !! n with
                           | Some llv => inl llv
                           | None => inr transient
                           end;
     kcUpdate := fun _ _ => None;
     kcDelete := fun _ _ => None;
     kcList := fun _ => inl [];
     ctxDone := fun _ => false;
     ctxErr := canceled |}.

(** Pending, Pending, Created with a wrong size, Created with the right
    size. *)
Definition convergingScript : list LVMLogicalVolume :=
  [observed None (Some pendingStatus); observed None (Some pendingStatus);
   observed None (Some createdWrongSize); observed None (Some createdRightSize)].

(** Pending, then Failed. *)
Definition failingScript : list LVMLogicalVolume :=
  [observed None (Some pendingStatus); observed None (Some failedStatus)].

(** Pending, then Created with the wrong size while being deleted. *)
Definition deletedScript : list LVMLogicalVolume :=
  [observed None (Some pendingStatus); observed (Some 1700000000) (Some createdWrongSize)].

Definition beingDeleted : error :=
  Errorf "failed to create LVM logical volume on node for LVMLogicalVolume %s, reason: LVMLogicalVolume is being deleted"
         [ArgS "pvc-1"] None.

Definition thinGroup (name node pool : string) (available : Z) : LVMVolumeGroup :=
  {| lvg_Name := name; ActualVGNameOnTheNode := name;
     VGSize := NewQuantity (20 * Gi); VGFree := NewQuantity 0;
     AllocatedSize := NewQuantity (20 * Gi);
     Nodes := [ {| node_Name := node |} ];
     ThinPools := [ {| tp_Name := pool; AvailableSpace := NewQuantity available |} ] |}.

(** The groups and the selector of the spec's end-to-end example. *)
Definition thinGroups : list LVMVolumeGroup :=
  [thinGroup "lvg-a" "node1" "pool1" (5 * Gi); thinGroup "lvg-b" "node2" "pool1" (12 * Gi)].

Definition thinSelector : gmap string string :=
  <["lvg-a" := "pool1"]> (<["lvg-b" := "pool1"]> ∅).

(** A record that holds the finalizer of sds-local-volume-csi twice. *)
Definition doubledRecord : LVMLogicalVolume :=
  {| llv_Name := "pvc-1"; OwnerReferences := [];
     Finalizers := ["storage.deckhouse.io/sds-node-configurator";
                    SdsLocalVolumeCsi.SDSLocalVolumeCSIFinalizer;
                    SdsLocalVolumeCsi.SDSLocalVolumeCSIFinalizer];
     DeletionTimestamp := None; llv_Spec := sampleSpec; llv_Status := None |}.

Definition notFound : error := StatusError StatusReasonNotFound "not found".

(** A store that holds no record: every [Get] answers NotFound. *)
Definition emptyWorld (G : Type) : World G :=
  {| kcCreate := fun _ _ => None;
     kcGet := fun _ _ _ => inr notFound;
     kcUpdate := fun _ _ => None;
     kcDelete := fun _ _ => Some notFound;
     kcList := fun _ => inl [];
     ctxDone := fun _ => false;
     ctxErr := canceled |}.

(** A store that holds [llv] and accepts every call. *)
Definition holdingWorld (G : Type) (llv : LVMLogicalVolume) : World G :=
  {| kcCreate := fun _ _ => None;
     kcGet := fun _ _ _ => inl llv;
     kcUpdate := fun _ _ => None;
     kcDelete := fun _ _ => None;
     kcList := fun _ => inl [];
     ctxDone := fun _ => false;
     ctxErr := canceled |}.

(** A store that holds [llv] and refuses every [Update] for a reason that
    is not a conflict. *)
Definition readOnlyWorld (G : Type) (llv : LVMLogicalVolume) : World G :=
  {| kcCreate := fun _ _ => Some transient;
     kcGet := fun _ _ _ => inl llv;
     kcUpdate := fun _ _ => Some transient;
     kcDelete := fun _ _ => None;
     kcList := fun _ => inl [];
     ctxDone := fun _ => false;
     ctxErr := canceled |}.

(** The first [Update] meets a conflict; by then another actor has removed
    the token, and the context is done or not as [done] says. *)
Definition racedWorld (done : bool) : World LVMVolumeGroup :=
  {| kcCreate := fun _ _ => None;
     kcGet := fun _ _ _ => inl foreignRecord;
     kcUpdate := fun _ _ => Some conflict;
     kcDelete := fun _ _ => None;
     kcList := fun _ => inl [];
     ctxDone := fun _ => done;
     ctxErr := canceled |}.

(** A store whose n-th [Get] answers the n-th record of a script and whose
    context is done from poll [cancelAt] on. *)
Definition cancellingWorld (G : Type) (script : list LVMLogicalVolume) (cancelAt : nat)
  : World G :=
  {| kcCreate := fun _ _ => None;
     kcGet := fun n _ _ => match script !! n with
                           | Some llv => inl llv
                           | None => inr transient
                           end;
     kcUpdate := fun _ _ => None;
     kcDelete := fun _ _ => None;
     kcList := fun _ => inl [];
     ctxDone := fun n => (cancelAt <=? n)%nat;
     ctxErr := canceled |}.

(** A store in which the record stays Pending for ever. *)
Definition pendingWorld (G : Type) : World G :=
  {| kcCreate := fun _ _ => None;
     kcGet := fun _ _ _ => inl (observed None (Some pendingStatus));
     kcUpdate := fun _ _ => None;
     kcDelete := fun _ _ => None;
     kcList := fun _ => inl [];
     ctxDone := fun _ => false;
     ctxErr := canceled |}.

(** A store whose first [Delete] fails and whose later ones succeed. *)
Definition flakyDeleteWorld (G : Type) : World G :=
  {| kcCreate := fun _ _ => None;
     kcGet := fun _ _ _ => inr transient;
     kcUpdate := fun _ _ => None;
     kcDelete := fun n _ => match n with O => Some transient | _ => None end;
     kcList := fun _ => inl [];
     ctxDone := fun _ => false;
     ctxErr := canceled |}.

(** A group with room that is not hosted on any node. *)
Definition homelessGroup : LVMVolumeGroup :=
  {| lvg_Name := "lvg-d"; ActualVGNameOnTheNode := "vg-d";
     VGSize := NewQuantity (40 * Gi); VGFree := NewQuantity (30 * Gi);
     AllocatedSize := NewQuantity (10 * Gi); Nodes := []; ThinPools := [] |}.

(** A selector that names only the first of the two thin groups. *)
Definition partialSelector : gmap string string := <["lvg-a" := "pool1"]> ∅.

(** A group whose size is not a quantity. *)
Definition brokenLvmGroup : LvmVolumeGroup := lvmGroup "lvg-x" "node-x" "twenty" "0".

Definition twoPoolGroup : LVMVolumeGroup :=
  {| lvg_Name := "lvg-a"; ActualVGNameOnTheNode := "vg-a";
     VGSize := NewQuantity (20 * Gi); VGFree := NewQuantity 0;
     AllocatedSize := NewQuantity (20 * Gi);
     Nodes := [ {| node_Name := "node1" |} ];
     ThinPools := [ {| tp_Name := "pool0"; AvailableSpace := NewQuantity Gi |};
                    {| tp_Name := "pool1"; AvailableSpace := NewQuantity (5 * Gi) |};
                    {| tp_Name := "pool1"; AvailableSpace := NewQuantity (7 * Gi) |} ] |}.

(** The parameters of the sample storage class, and a decoder for them. *)
Definition sampleYamlText : string :=
  "[{name: lvg-a, thin: {poolName: pool1}}, {name: lvg-b, thin: {poolName: pool1}}]".

Definition sampleYaml (s : string) : list (string * string) + error :=
  if String.eqb s sampleYamlText
  then inl [("lvg-a", "pool1"); ("lvg-b", "pool1")]
  else inr (ParseError "yaml: unmarshal errors").

(** A store that lists the two thin groups and a third one that the
    storage class does not name and that is hosted nowhere. *)
Definition thinWorld : World LVMVolumeGroup :=
  {| kcCreate := fun _ _ => None;
     kcGet := fun _ _ _ => inr notFound;
     kcUpdate := fun _ _ => None;
     kcDelete := fun _ _ => None;
     kcList := fun _ => inl (thinGroups ++ [homelessGroup]);
     ctxDone := fun _ => false;
     ctxErr := canceled |}.

(** A store whose every [List] answers [items]. *)
Definition listWorld (G : Type) (items : list G) : World G :=
  {| kcCreate := fun _ _ => None;
     kcGet := fun _ _ _ => inr notFound;
     kcUpdate := fun _ _ => None;
     kcDelete := fun _ _ => None;
     kcList := fun _ => inl items;
     ctxDone := fun _ => false;
     ctxErr := canceled |}.

(** A mounter whose every call fails. *)
Definition failingMounter : SdsLvmCsiDriver.Mounter :=
  {| SdsLvmCsiDriver.mounter_Mount := fun _ => Some (ParseError "mount failed");
     SdsLvmCsiDriver.mounter_Unmount := fun _ => Some (ParseError "target is busy") |}.

(** A request to publish a read-only volume with the given capability. *)
Definition readonlyRequest (capability : option SdsLvmCsiDriver.AccessType)
  : SdsLvmCsiDriver.NodePublishVolumeRequest :=
  {| SdsLvmCsiDriver.VolumeId := "pvc-1";
     SdsLvmCsiDriver.TargetPath := "/var/lib/kubelet/pods/p/volumes/pvc-1/mount";
     SdsLvmCsiDriver.volumeCapability :=
       Some {| SdsLvmCsiDriver.accessType := capability |};
     SdsLvmCsiDriver.Readonly := true;
     SdsLvmCsiDriver.VolumeContext := <["vgname" := "vg-w1"]> ∅ |}.

(** * Properties *)

Lemma float64_of_Z_exact (z : Z) : Z.abs z <= 2 ^ 53 -> float64_of_Z z = z.
Proof.
  intros Hz. unfold float64_of_Z. cbv zeta.
  destruct (Z.ltb_spec (Z.abs z) (2 ^ 53)) as [Hlt | Hge]; [reflexivity |].
  assert (Hm : Z.abs z = 2 ^ 53) by lia.
  rewrite Hm.
  destruct (Z.abs_eq_or_opp z) as [E | E]; rewrite E in Hm.
  - subst z. vm_compute. reflexivity.
  - assert (z = - 2 ^ 53) by lia. subst z. vm_compute. reflexivity.
Qed.

(** ** Sizes within a tolerance *)

(** C3, as the code has it: for quantities a, b and tolerance t whose
    byte values, and the difference a - b, have magnitude at most 2^53
    (the integers float64 holds exactly), [AreSizesEqualWithinDelta a b t]
    is true exactly when |a - b| < t on the integers; for a positive
    tolerance it is true when a = b, and it is false on the boundary
    a - b = t. *)
Theorem AreSizesEqualWithinDelta_exact_up_to_2_53 (a b t : Quantity) :
  Z.abs (Value a) <= 2 ^ 53 ->
  Z.abs (Value b) <= 2 ^ 53 ->
  Z.abs (Value a - Value b) <= 2 ^ 53 ->
  Z.abs (Value t) <= 2 ^ 53 ->
  (AreSizesEqualWithinDelta a b t = true <-> Z.abs (Value a - Value b) < Value t)
  /\ (Value a = Value b -> 0 < Value t -> AreSizesEqualWithinDelta a b t = true)
  /\ (Value a - Value b = Value t -> AreSizesEqualWithinDelta a b t = false).
Proof.
  intros Ha Hb Hab Ht.
  assert (E : AreSizesEqualWithinDelta a b t = (Z.abs (Value a - Value b) <? Value t)).
  { unfold AreSizesEqualWithinDelta, float64_sub, math_Abs. cbv zeta.
    rewrite (float64_of_Z_exact (Value a)), (float64_of_Z_exact (Value b)) by assumption.
    rewrite (float64_of_Z_exact (Value a - Value b)), (float64_of_Z_exact (Value t)) by assumption.
    reflexivity. }
  rewrite E. repeat split.
  - apply Z.ltb_lt.
  - apply Z.ltb_lt.
  - intros Hv Hpos. apply Z.ltb_lt. lia.
  - intros Hv. apply Z.ltb_ge. lia.
Qed.

Lemma AreSizesEqualWithinDelta_exact_up_to_2_53_witness :
  AreSizesEqualWithinDelta (NewQuantity (10 * Gi)) (NewQuantity (10 * Gi)) (NewQuantity Gi) = true.
Proof.
  apply (AreSizesEqualWithinDelta_exact_up_to_2_53
           (NewQuantity (10 * Gi)) (NewQuantity (10 * Gi)) (NewQuantity Gi));
    vm_compute; congruence.
Defined.

(** C3, as the spec words it, fails above 2^53 bytes: 2^53 + 1 and 2^53
    convert to the same float64, so the code finds them within a tolerance
    of one byte, while |a - b| = 1 is not below 1. *)
Lemma AreSizesEqualWithinDelta_not_exact :
  AreSizesEqualWithinDelta (NewQuantity (2 ^ 53 + 1)) (NewQuantity (2 ^ 53)) (NewQuantity 1) = true
  /\ ~ Z.abs (Value (NewQuantity (2 ^ 53 + 1)) - Value (NewQuantity (2 ^ 53)))
       < Value (NewQuantity 1).
Proof. split; [vm_compute; reflexivity | vm_compute; congruence]. Qed.

(** ** Capacity: the node with the most free space *)

Lemma runningMax_spec (groups : list (Z * string)) (node0 : string) (max0 : Z) :
  (Forall (fun g => g.1 <= max0) groups /\ runningMax groups node0 max0 = (node0, max0))
  \/ (exists (i : nat) (free : Z) (node : string),
        groups !! i = Some (free, node)
        /\ runningMax groups node0 max0 = (node, free)
        /\ max0 < free
        /\ (forall (j : nat) g, (j < i)%nat -> groups !! j = Some g -> g.1 < free)
        /\ Forall (fun g => g.1 <= free) groups).
Proof.
  revert node0 max0.
  induction groups as [| [f n] rest IH]; intros node0 max0; simpl.
  - left. split; [constructor | reflexivity].
  - destruct (Z.gtb_spec f max0) as [Hgt | Hle].
    + right. destruct (IH n f) as [[Hall Hr] | (i & free & node & Hi & Hr & Hlt & Hbefore & Hall)].
      * exists 0%nat, f, n. repeat split; try assumption; try reflexivity.
        -- intros j g Hj. lia.
        -- constructor; [simpl; lia | assumption].
      * exists (S i), free, node. repeat split; try assumption.
        -- lia.
        -- intros [| j] g Hj Hg; simpl in Hg.
           ++ injection Hg as <-. simpl. lia.
           ++ apply (Hbefore j); [lia | assumption].
        -- constructor; [simpl; lia | assumption].
    + destruct (IH node0 max0) as [[Hall Hr] | (i & free & node & Hi & Hr & Hlt & Hbefore & Hall)].
      * left. split; [| assumption]. constructor; [simpl; lia | assumption].
      * right. exists (S i), free, node. repeat split; try assumption.
        -- intros [| j] g Hj Hg; simpl in Hg.
           ++ injection Hg as <-. simpl. lia.
           ++ apply (Hbefore j); [lia | assumption].
        -- constructor; [simpl; lia | assumption].
Qed.

Section LocalCapacity.
Import SdsLocalVolumeCsi.
Context (params : gmap string string) (lvmType : string) (free : LVMVolumeGroup -> Z).

Lemma GetNodeWithMaxFreeSpace_loop_runningMax (lvgs : list LVMVolumeGroup) :
  Forall (computesFree params lvmType free) lvgs ->
  Forall (fun lvg => 0 < free lvg -> Nodes lvg <> []) lvgs ->
  forall node0 prev max0, 0 <= max0 ->
    GetNodeWithMaxFreeSpace_loop lvgs params lvmType node0 prev max0
    = Returns ((runningMax (groupsOf free lvgs) node0 max0).1,
               NewQuantity (runningMax (groupsOf free lvgs) node0 max0).2, None).
Proof.
  induction lvgs as [| lvg rest IH]; intros Hfree Hnodes node0 prev max0 Hmax; simpl.
  - reflexivity.
  - inversion Hfree as [| ? ? Hlvg Hrest]; subst.
    inversion Hnodes as [| ? ? Hn Hnrest]; subst.
    destruct (Hlvg prev) as (q & Eq & Vq). rewrite Eq, Vq.
    destruct (Z.gtb_spec (free lvg) max0) as [Hgt | Hle].
    + destruct (Nodes lvg) as [| node nodes] eqn:En.
      { exfalso. apply Hn; [lia | reflexivity]. }
      unfold hostNode. simpl. apply IH; [assumption | assumption | lia].
    + apply IH; assumption.
Qed.
End LocalCapacity.

Section LvmCapacity.
Import SdsLvmCsi.
Context {Q : Type} (R : ResourceQuantity Q) (free : LvmVolumeGroup -> Z).

(** On a group whose sizes parse, [GetLVMVolumeGroupFreeSpace] returns
    their exact difference. *)
Lemma GetLVMVolumeGroupFreeSpace_parsesFree (lvg : LvmVolumeGroup) :
  parsesFree R free lvg ->
  exists q, GetLVMVolumeGroupFreeSpace R lvg = (q, None) /\ Quantity_Value R q = free lvg.
Proof.
  intros (vgSize & allocatedSize & Hvg & Hallocated & Hfree).
  exists (Quantity_Sub R vgSize allocatedSize).
  unfold GetLVMVolumeGroupFreeSpace. rewrite Hvg, Hallocated. split; [reflexivity | congruence].
Qed.

Lemma GetNodeMaxFreeVGSize_loop_runningMax (items : list LvmVolumeGroup) :
  Forall (parsesFree R free) items ->
  Forall (fun lvg => 0 < free lvg -> lvmvg_Nodes lvg <> []) items ->
  forall node0 max0, 0 <= max0 ->
    GetNodeMaxFreeVGSize_loop R items node0 max0
    = Returns ((runningMax (lvmGroupsOf free items) node0 max0).1,
               Quantity_New R (runningMax (lvmGroupsOf free items) node0 max0).2, None).
Proof.
  induction items as [| lvg rest IH]; intros Hfree Hnodes node0 max0 Hmax; simpl.
  - reflexivity.
  - inversion Hfree as [| ? ? Hlvg Hrest]; subst.
    inversion Hnodes as [| ? ? Hn Hnrest]; subst.
    destruct (GetLVMVolumeGroupFreeSpace_parsesFree lvg Hlvg) as (q & Eq & Vq).
    rewrite Eq, Vq.
    destruct (Z.gtb_spec (free lvg) max0) as [Hgt | Hle].
    + destruct (lvmvg_Nodes lvg) as [| node nodes] eqn:En.
      { exfalso. apply Hn; [lia | reflexivity]. }
      unfold hostNode. simpl. apply IH; [assumption | assumption | lia].
    + apply IH; assumption.
Qed.
End LvmCapacity.

Lemma runningMax_first_max {A : Type} (free : A -> Z) (host : A -> string) (xs : list A) :
  Exists (fun x => 0 < free x) xs ->
  exists (i : nat) x,
    firstMaxAt free xs i x
    /\ runningMax (map (fun x => (free x, host x)) xs) "" 0 = (host x, free x).
Proof.
  intros Hpos.
  destruct (runningMax_spec (map (fun x => (free x, host x)) xs) "" 0)
    as [[Hall _] | (i & f & n & Hi & Hr & Hlt & Hbefore & Hall)].
  - exfalso. apply Exists_exists in Hpos as (x & Hx & Hfx).
    rewrite Forall_forall in Hall.
    assert (Hin : (free x, host x) ∈ map (fun x => (free x, host x)) xs).
    { apply list_elem_of_fmap. exists x. split; [reflexivity | assumption]. }
    specialize (Hall _ Hin). simpl in Hall. lia.
  - rewrite list_lookup_fmap in Hi.
    destruct (xs !! i) as [x |] eqn:Ex; simpl in Hi; [| discriminate].
    injection Hi as <- <-.
    exists i, x. split; [| assumption].
    repeat split; try assumption.
    + intros j y Hj Hy.
      apply (Hbefore j (free y, host y)); [assumption |].
      rewrite list_lookup_fmap, Hy. reflexivity.
    + intros y Hy. rewrite Forall_forall in Hall.
      apply (Hall (free y, host y)).
      apply list_elem_of_fmap. exists y. split; [reflexivity | assumption].
Qed.

Lemma runningMax_none_positive {A : Type} (free : A -> Z) (host : A -> string) (xs : list A) :
  Forall (fun x => free x <= 0) xs ->
  runningMax (map (fun x => (free x, host x)) xs) "" 0 = ("", 0).
Proof.
  induction xs as [| x rest IH]; intros Hall; simpl.
  - reflexivity.
  - inversion Hall as [| ? ? Hx Hrest]; subst.
    destruct (Z.gtb_spec (free x) 0) as [Hgt | Hle]; [lia |].
    apply IH. assumption.
Qed.

Lemma calls_snoc (p : Event -> bool) (tr : Trace) (e : Event) :
  calls p (tr ++ [e]) = (calls p tr + (if p e then 1 else 0))%nat.
Proof.
  induction tr as [| e' tr IH]; simpl.
  - destruct (p e); reflexivity.
  - rewrite IH. destruct (p e'); reflexivity.
Qed.



(** The thin pools of the spec's end-to-end example: node2 has the most. *)
Example GetNodeWithMaxFreeSpace_thin_pools :
  SdsLocalVolumeCsi.GetNodeWithMaxFreeSpace thinGroups thinSelector SdsLocalVolumeCsi.LVMTypeThin
  = Returns ("node2", NewQuantity (12 * Gi), None).
Proof. vm_compute. reflexivity. Qed.


(** Over the sample quantities, a difference of sizes that [Value()]
    does not hold is ranked by what [Value()] returns for it: the group
    whose sizes differ by 2^63 loses to one with 1Gi free. *)
Example GetNodeMaxFreeVGSize_difference_beyond_int64 :
  SdsLvmCsi.GetNodeMaxFreeVGSize_loop sampleQuantities overflowLvmGroups "" 0
  = Returns ("node-a", SdsLvmCsi.Quantity_New sampleQuantities Gi, None).
Proof. vm_compute. reflexivity. Qed.

(** C9: when the free space of every group is computed and none is
    strictly positive, the empty list included, [GetNodeWithMaxFreeSpace]
    and the loop of [GetNodeMaxFreeVGSize] return an empty node name, a
    zero quantity and a nil error; the loop of [GetNodeMaxFreeVGSize]
    reads the free space as [Value()] of the exact difference of the parsed
    sizes, and its zero quantity is [*resource.NewQuantity(0, BinarySI)].
    So does [GetNodeWithMaxFreeSpace] for a volume type that is neither
    Thick nor Thin, for which it computes no free space at all. *)
Theorem no_free_space_returns_empty_node_and_nil_error :
  (forall (lvgs : list LVMVolumeGroup) params lvmType free,
      Forall (computesFree params lvmType free) lvgs ->
      Forall (fun lvg => free lvg <= 0) lvgs ->
      SdsLocalVolumeCsi.GetNodeWithMaxFreeSpace lvgs params lvmType
      = Returns ("", zeroQuantity, None))
  /\ (forall (Q : Type) (R : SdsLvmCsi.ResourceQuantity Q) free
             (items : list LvmVolumeGroup),
      Forall (parsesFree R free) items ->
      Forall (fun lvg => free lvg <= 0) items ->
      SdsLvmCsi.GetNodeMaxFreeVGSize_loop R items "" 0
      = Returns ("", SdsLvmCsi.Quantity_New R 0, None))
  /\ (forall params lvmType,
      SdsLocalVolumeCsi.GetNodeWithMaxFreeSpace [] params lvmType
      = Returns ("", zeroQuantity, None))
  /\ (forall (lvgs : list LVMVolumeGroup) params lvmType,
      lvmType <> SdsLocalVolumeCsi.LVMTypeThick ->
      lvmType <> SdsLocalVolumeCsi.LVMTypeThin ->
      SdsLocalVolumeCsi.GetNodeWithMaxFreeSpace lvgs params lvmType
      = Returns ("", zeroQuantity, None)).
Proof.
  split; [| split; [| split]].
  - intros lvgs params lvmType free Hfree Hnone.
    unfold SdsLocalVolumeCsi.GetNodeWithMaxFreeSpace.
    rewrite (GetNodeWithMaxFreeSpace_loop_runningMax params lvmType free lvgs);
      [| assumption | | lia].
    + unfold groupsOf.
      rewrite (runningMax_none_positive free (fun lvg => hostNode (Nodes lvg)) lvgs Hnone).
      reflexivity.
    + eapply Forall_impl; [exact Hnone |]. simpl. intros x Hx Hpos. lia.
  - intros Q R free items Hfree Hnone.
    rewrite (GetNodeMaxFreeVGSize_loop_runningMax R free items);
      [| assumption | | lia].
    + unfold lvmGroupsOf.
      rewrite (runningMax_none_positive free (fun lvg => hostNode (lvmvg_Nodes lvg)) items Hnone).
      reflexivity.
    + eapply Forall_impl; [exact Hnone |]. simpl. intros x Hx Hpos. lia.
  - reflexivity.
  - intros lvgs params lvmType Hthick Hthin.
    apply String.eqb_neq in Hthick, Hthin.
    unfold SdsLocalVolumeCsi.GetNodeWithMaxFreeSpace.
    induction lvgs as [| lvg rest IH]; simpl.
    + reflexivity.
    + unfold SdsLocalVolumeCsi.freeSpaceOf. rewrite Hthick, Hthin. simpl. exact IH.
Qed.

Lemma no_free_space_returns_empty_node_and_nil_error_witness :
  SdsLocalVolumeCsi.GetNodeWithMaxFreeSpace fullGroups ∅ SdsLocalVolumeCsi.LVMTypeThick
  = Returns ("", zeroQuantity, None)
  /\ SdsLvmCsi.GetNodeMaxFreeVGSize_loop sampleQuantities fullLvmGroups "" 0
     = Returns ("", SdsLvmCsi.Quantity_New sampleQuantities 0, None).
Proof.
  split.
  - apply (proj1 no_free_space_returns_empty_node_and_nil_error
             fullGroups ∅ SdsLocalVolumeCsi.LVMTypeThick (fun lvg => Value (VGFree lvg))).
    + repeat constructor; intros prev; eexists; split; reflexivity.
    + repeat constructor; vm_compute; congruence.
  - apply (proj1 (proj2 no_free_space_returns_empty_node_and_nil_error)
             Z sampleQuantities sampleLvmFree fullLvmGroups).
    + repeat constructor; do 2 eexists; repeat split; reflexivity.
    + repeat constructor; vm_compute; congruence.
Defined.

(** ** Creating a record *)

(** C10: the record [CreateLVMLogicalVolume] of sds-local-volume-csi
    builds, sends to the store and returns carries the finalizer
    storage.deckhouse.io/sds-local-volume-csi, so the inner loop of
    [removeLLVFinalizerIfExist] finds a token to remove on it. *)
Theorem created_record_carries_the_finalizer
    (w : World LVMVolumeGroup) (name : string) (spec : LVMLogicalVolumeSpec) (tr : Trace) :
  let llv := (SdsLocalVolumeCsi.CreateLVMLogicalVolume w name spec tr).1.1 in
  SdsLocalVolumeCsi.SDSLocalVolumeCSIFinalizer = "storage.deckhouse.io/sds-local-volume-csi"
  /\ SdsLocalVolumeCsi.SDSLocalVolumeCSIFinalizer ∈ Finalizers llv
  /\ llv_Name llv = name
  /\ (SdsLocalVolumeCsi.CreateLVMLogicalVolume w name spec tr).2 = tr ++ [EvCreate llv]
  /\ SdsLocalVolumeCsi.deleteFirst SdsLocalVolumeCsi.SDSLocalVolumeCSIFinalizer (Finalizers llv)
     = Some [].
Proof.
  simpl. repeat split.
  apply list_elem_of_here.
Qed.

(** ** Releasing the finalizer *)

Lemma deleteFirst_absent (finalizer : string) (finalizers : list string) :
  finalizer ∉ finalizers -> SdsLocalVolumeCsi.deleteFirst finalizer finalizers = None.
Proof.
  induction finalizers as [| val rest IH]; intros Habsent; simpl.
  - reflexivity.
  - destruct (String.eqb_spec val finalizer) as [-> | Hne].
    + exfalso. apply Habsent. apply list_elem_of_here.
    + rewrite IH; [reflexivity |].
      intros Hin. apply Habsent. apply list_elem_of_further. assumption.
Qed.

(** C8: for a record whose finalizers do not hold the token,
    [removeLLVFinalizerIfExist] returns (false, nil) with the trace as it
    was, so without an Update or any other call, and leaves the record as
    it was. *)
Theorem absent_finalizer_is_a_no_op
    (w : World LVMVolumeGroup) (llv : LVMLogicalVolume) (finalizer : string) (tr : Trace) :
  finalizer ∉ Finalizers llv ->
  SdsLocalVolumeCsi.removeLLVFinalizerIfExist w llv finalizer tr = ((false, None, llv), tr).
Proof.
  intros Habsent.
  unfold SdsLocalVolumeCsi.removeLLVFinalizerIfExist. simpl.
  rewrite (deleteFirst_absent finalizer (Finalizers llv) Habsent).
  reflexivity.
Qed.

Lemma absent_finalizer_is_a_no_op_witness :
  SdsLocalVolumeCsi.removeLLVFinalizerIfExist (failingWorld LVMVolumeGroup) foreignRecord
    SdsLocalVolumeCsi.SDSLocalVolumeCSIFinalizer []
  = ((false, None, foreignRecord), []).
Proof.
  apply (absent_finalizer_is_a_no_op (failingWorld LVMVolumeGroup) foreignRecord
           SdsLocalVolumeCsi.SDSLocalVolumeCSIFinalizer []).
  intros Hin. apply list_elem_of_In in Hin. simpl in Hin.
  destruct Hin as [Heq | []]. discriminate Heq.
Defined.

(** ** Bounded retries of sds-lvm-csi *)

Section LvmRetries.
Import SdsLvmCsi.
Context (w : World LvmVolumeGroup).

(** The loop of [DeleteLVMLogicalVolume] returns what the variable [err]
    of the enclosing function holds, wrapped, or nil: never an error of
    an attempt. *)
Lemma DeleteLVMLogicalVolume_loop_nil (n : nat) (name : string) (llv : LVMLogicalVolume) :
  forall tr, (DeleteLVMLogicalVolume_loop w n name llv None tr).1 = None.
Proof.
  induction n as [| n IH]; intros tr; simpl.
  - reflexivity.
  - unfold bind, Delete, Sleep.
    destruct (kcDelete w (calls isDelete tr) llv); [apply IH | reflexivity].
Qed.

Lemma DeleteLVMLogicalVolume_loop_trace (n : nat) (name : string) (llv : LVMLogicalVolume) :
  (forall i, kcDelete w i llv <> None) ->
  forall tr,
    (DeleteLVMLogicalVolume_loop w n name llv None tr).2
    = tr ++ failedAttempts n (EvDelete llv).
Proof.
  intros Hfail. induction n as [| n IH]; intros tr; simpl.
  - rewrite app_nil_r. reflexivity.
  - unfold bind, Delete, Sleep.
    destruct (kcDelete w (calls isDelete tr) llv) eqn:E.
    + rewrite IH. rewrite <- !app_assoc. reflexivity.
    + exfalso. exact (Hfail _ E).
Qed.

(** Attempt [k] of [CreateLVMLogicalVolume], after [k] failures that are
    not AlreadyExists. *)
Lemma CreateLVMLogicalVolume_loop_runs (name : string) (llv : LVMLogicalVolume) :
  forall (k n : nat) err0 (tr : Trace),
    (forall j, (j < k)%nat ->
       exists e, kcCreate w (calls isCreate tr + j) llv = Some e /\ IsAlreadyExists e = false) ->
    exists err1,
      CreateLVMLogicalVolume_loop w (k + n) name llv err0 tr
      = CreateLVMLogicalVolume_loop w n name llv err1 (tr ++ failedAttempts k (EvCreate llv))
      /\ (k = 0%nat -> err1 = err0)
      /\ (forall k', k = S k' -> err1 = kcCreate w (calls isCreate tr + k') llv)
      /\ calls isCreate (tr ++ failedAttempts k (EvCreate llv)) = (calls isCreate tr + k)%nat.
Proof.
  induction k as [| k IH]; intros n err0 tr Hfail.
  - exists err0. simpl. rewrite app_nil_r, Nat.add_0_r.
    repeat split; [discriminate].
  - destruct (Hfail 0%nat ltac:(lia)) as (e & He & Hae).
    rewrite Nat.add_0_r in He.
    destruct (IH n (Some e) (tr ++ [EvCreate llv; EvSleep KubernetesApiRequestTimeout]))
      as (err1 & Hrun & H0 & HS & Hcalls).
    { intros j Hj. destruct (Hfail (S j) ltac:(lia)) as (e' & He' & Hae').
      exists e'. split; [| assumption].
      rewrite <- He'. f_equal.
      change (tr ++ [EvCreate llv; EvSleep KubernetesApiRequestTimeout])
        with (tr ++ [EvCreate llv] ++ [EvSleep KubernetesApiRequestTimeout]).
      rewrite app_assoc, !calls_snoc. simpl. lia. }
    assert (Hc : calls isCreate (tr ++ [EvCreate llv; EvSleep KubernetesApiRequestTimeout])
                 = S (calls isCreate tr)).
    { change (tr ++ [EvCreate llv; EvSleep KubernetesApiRequestTimeout])
        with (tr ++ [EvCreate llv] ++ [EvSleep KubernetesApiRequestTimeout]).
      rewrite app_assoc, !calls_snoc. simpl. lia. }
    exists err1. repeat split.
    + simpl. unfold bind at 1. unfold Create at 1. rewrite He, Hae.
      unfold bind at 1. unfold Sleep at 1.
      rewrite <- app_assoc. simpl. rewrite Hrun.
      rewrite <- app_assoc. reflexivity.
    + discriminate.
    + intros k' Hk'. injection Hk' as <-.
      destruct k as [| k''].
      * rewrite (H0 eq_refl), Nat.add_0_r. symmetry. assumption.
      * rewrite (HS k'' eq_refl), Hc. f_equal. lia.
    + change (tr ++ failedAttempts (S k) (EvCreate llv))
        with (tr ++ [EvCreate llv; EvSleep KubernetesApiRequestTimeout]
                 ++ failedAttempts k (EvCreate llv)).
      rewrite app_assoc, Hcalls, Hc. lia.
Qed.
End LvmRetries.

(** C5 fails on the code.  When every [Delete] fails,
    [DeleteLVMLogicalVolume] of sds-lvm-csi makes its three attempts and
    then returns nil: the [err] it tests after the loop is not the one the
    attempts set. *)
Theorem DeleteLVMLogicalVolume_returns_nil_when_every_delete_fails
    (w : World LvmVolumeGroup) (name : string) (tr : Trace) :
  (forall i llv, kcDelete w i llv <> None) ->
  SdsLvmCsi.DeleteLVMLogicalVolume w name tr
  = (None, tr ++ failedAttempts 3 (EvDelete (lvmRecord name zeroLVMLogicalVolumeSpec))).
Proof.
  intros Hfail. unfold SdsLvmCsi.DeleteLVMLogicalVolume. cbv zeta.
  change (Z.to_nat SdsLvmCsi.KubernetesApiRequestLimit) with 3%nat.
  fold (lvmRecord name zeroLVMLogicalVolumeSpec).
  apply injective_projections.
  - apply DeleteLVMLogicalVolume_loop_nil.
  - apply DeleteLVMLogicalVolume_loop_trace. intros i. apply Hfail.
Qed.

Lemma DeleteLVMLogicalVolume_returns_nil_when_every_delete_fails_witness :
  SdsLvmCsi.DeleteLVMLogicalVolume (failingWorld LvmVolumeGroup) "pvc-1" []
  = (None, [EvDelete deletedRecord; EvSleep 1; EvDelete deletedRecord; EvSleep 1;
            EvDelete deletedRecord; EvSleep 1]).
Proof.
  apply (DeleteLVMLogicalVolume_returns_nil_when_every_delete_fails
           (failingWorld LvmVolumeGroup) "pvc-1" []).
  intros i llv. simpl. discriminate.
Defined.

(** C6, as the code has it.  [CreateLVMLogicalVolume] of sds-lvm-csi makes
    up to three attempts, each failed one followed by the same sleep: the
    first success returns the record, an AlreadyExists error is returned as
    it is with no further attempt, and after three other failures the last
    error is returned wrapped with the attempt count.
    [CreateLVMLogicalVolume] of sds-local-volume-csi makes one attempt and
    returns its error as it is. *)
Theorem CreateLVMLogicalVolume_retry_policy :
  (forall (w : World LvmVolumeGroup) (name : string) (spec : LVMLogicalVolumeSpec) (tr : Trace),
      let llv := lvmRecord name spec in
      let c := calls isCreate tr in
      (forall k : nat,
          (k < 3)%nat ->
          (forall j, (j < k)%nat ->
             exists e, kcCreate w (c + j) llv = Some e /\ IsAlreadyExists e = false) ->
          (kcCreate w (c + k) llv = None ->
           SdsLvmCsi.CreateLVMLogicalVolume w name spec tr
           = ((Some llv, None), (tr ++ failedAttempts k (EvCreate llv)) ++ [EvCreate llv]))
          /\ (forall e, kcCreate w (c + k) llv = Some e -> IsAlreadyExists e = true ->
              SdsLvmCsi.CreateLVMLogicalVolume w name spec tr
              = ((None, Some e), (tr ++ failedAttempts k (EvCreate llv)) ++ [EvCreate llv])))
      /\ ((forall j, (j < 3)%nat ->
             exists e, kcCreate w (c + j) llv = Some e /\ IsAlreadyExists e = false) ->
          exists e,
            kcCreate w (c + 2) llv = Some e
            /\ SdsLvmCsi.CreateLVMLogicalVolume w name spec tr
               = ((None,
                   Some (Errorf "after %d attempts of creating LVMLogicalVolume %s, last error: %w"
                                [ArgD 3; ArgS name] (Some e))),
                  tr ++ failedAttempts 3 (EvCreate llv))))
  /\ (forall (w : World LVMVolumeGroup) (name : string) (spec : LVMLogicalVolumeSpec) (tr : Trace),
      SdsLocalVolumeCsi.CreateLVMLogicalVolume w name spec tr
      = ((localRecord name spec, kcCreate w (calls isCreate tr) (localRecord name spec)),
         tr ++ [EvCreate (localRecord name spec)])).
Proof.
  split.
  - intros w name spec tr llv c. split.
    + intros k Hk Hfail.
      destruct (CreateLVMLogicalVolume_loop_runs w name llv k (3 - k) None tr Hfail)
        as (err1 & Hrun & _ & _ & Hcalls).
      replace (k + (3 - k))%nat with 3%nat in Hrun by lia.
      unfold SdsLvmCsi.CreateLVMLogicalVolume. cbv zeta.
      change (Z.to_nat SdsLvmCsi.KubernetesApiRequestLimit) with 3%nat.
      fold (lvmRecord name spec). fold llv. rewrite Hrun.
      destruct (3 - k)%nat as [| m] eqn:Em; [lia |].
      simpl. unfold bind, Create. rewrite Hcalls. fold c.
      split.
      * intros Hok. rewrite Hok. reflexivity.
      * intros e He Hae. rewrite He, Hae. reflexivity.
    + intros Hfail.
      destruct (CreateLVMLogicalVolume_loop_runs w name llv 3 0 None tr Hfail)
        as (err1 & Hrun & _ & Hlast & _).
      destruct (Hfail 2%nat ltac:(lia)) as (e & He & _).
      exists e. split; [assumption |].
      unfold SdsLvmCsi.CreateLVMLogicalVolume. cbv zeta.
      change (Z.to_nat SdsLvmCsi.KubernetesApiRequestLimit) with 3%nat.
      fold (lvmRecord name spec). fold llv.
      change 3%nat with (3 + 0)%nat at 1. rewrite Hrun.
      rewrite (Hlast 2%nat eq_refl). fold c. rewrite He. reflexivity.
  - intros w name spec tr. reflexivity.
Qed.

Lemma CreateLVMLogicalVolume_retry_policy_witness :
  SdsLvmCsi.CreateLVMLogicalVolume (flakyWorld LvmVolumeGroup) "pvc-1" sampleSpec []
  = ((Some (lvmRecord "pvc-1" sampleSpec), None),
     [EvCreate (lvmRecord "pvc-1" sampleSpec); EvSleep 1; EvCreate (lvmRecord "pvc-1" sampleSpec)])
  /\ SdsLvmCsi.CreateLVMLogicalVolume (takenWorld LvmVolumeGroup) "pvc-1" sampleSpec []
     = ((None, Some alreadyExists),
        [EvCreate (lvmRecord "pvc-1" sampleSpec); EvSleep 1; EvCreate (lvmRecord "pvc-1" sampleSpec)])
  /\ exists e,
       kcCreate (failingWorld LvmVolumeGroup) 2 (lvmRecord "pvc-1" sampleSpec) = Some e
       /\ SdsLvmCsi.CreateLVMLogicalVolume (failingWorld LvmVolumeGroup) "pvc-1" sampleSpec []
          = ((None,
              Some (Errorf "after %d attempts of creating LVMLogicalVolume %s, last error: %w"
                           [ArgD 3; ArgS "pvc-1"] (Some e))),
             [] ++ failedAttempts 3 (EvCreate (lvmRecord "pvc-1" sampleSpec))).
Proof.
  split; [| split].
  - apply (proj1 (proj1 CreateLVMLogicalVolume_retry_policy
                    (flakyWorld LvmVolumeGroup) "pvc-1" sampleSpec []) 1%nat).
    + lia.
    + intros j Hj. assert (j = 0%nat) as -> by lia.
      exists transient. split; reflexivity.
    + reflexivity.
  - apply (proj1 (proj1 CreateLVMLogicalVolume_retry_policy
                    (takenWorld LvmVolumeGroup) "pvc-1" sampleSpec []) 1%nat).
    + lia.
    + intros j Hj. assert (j = 0%nat) as -> by lia.
      exists transient. split; reflexivity.
    + reflexivity.
    + reflexivity.
  - apply (proj2 (proj1 CreateLVMLogicalVolume_retry_policy
                    (failingWorld LvmVolumeGroup) "pvc-1" sampleSpec [])).
    intros j Hj. exists transient. split; reflexivity.
Defined.

(** C6, as the spec words it, fails for sds-local-volume-csi: after one
    failed [Create], which the store would have accepted on a second
    attempt, [CreateLVMLogicalVolume] returns that error, not wrapped, and
    has made one attempt. *)
Lemma CreateLVMLogicalVolume_local_does_not_retry :
  let run := SdsLocalVolumeCsi.CreateLVMLogicalVolume (flakyWorld LVMVolumeGroup)
               "pvc-1" sampleSpec [] in
  run.1.2 = Some transient
  /\ Unwrap transient = None
  /\ calls isCreate run.2 = 1%nat
  /\ kcCreate (flakyWorld LVMVolumeGroup) 1 run.1.1 = None.
Proof. vm_compute. repeat split. Qed.

(** ** Releasing the finalizer under version conflicts *)

Lemma calls_app (p : Event -> bool) (tr1 tr2 : Trace) :
  calls p (tr1 ++ tr2) = (calls p tr1 + calls p tr2)%nat.
Proof.
  induction tr1 as [| e tr1 IH]; simpl.
  - reflexivity.
  - rewrite IH. destruct (p e); reflexivity.
Qed.

Lemma deleteFirst_present (finalizer : string) (finalizers : list string) :
  finalizer ∈ finalizers ->
  exists rest, SdsLocalVolumeCsi.deleteFirst finalizer finalizers = Some rest.
Proof.
  induction finalizers as [| val tl IH]; intros Hin.
  - apply elem_of_nil in Hin. contradiction.
  - simpl. destruct (String.eqb_spec val finalizer) as [-> | Hne].
    + eexists. reflexivity.
    + apply elem_of_cons in Hin as [-> | Hin]; [contradiction |].
      destruct (IH Hin) as (rest & ->). eexists. reflexivity.
Qed.

Section LocalFinalizer.
Import SdsLocalVolumeCsi.
Context (w : World LVMVolumeGroup) (finalizer : string).

(** The first half of C4: [k] version conflicts, each followed by a
    fetch of a record that still holds the token, then a success, within
    the [S m] iterations the loop has left ([k <= m]): the call returns
    (true, nil), having fetched once after each conflict. *)
Lemma removeLLVFinalizerIfExist_loop_succeeds :
  forall (k m : nat) (attempt : Z) (llv : LVMLogicalVolume) (tr : Trace),
    attempt + Z.of_nat (S m) = KubernetesAPIRequestLimit ->
    (k <= m)%nat ->
    finalizer ∈ Finalizers llv ->
    (forall j x, (j < k)%nat ->
       exists e, kcUpdate w (calls isUpdate tr + j) x = Some e /\ IsConflict e = true) ->
    (forall x, kcUpdate w (calls isUpdate tr + k) x = None) ->
    (forall j, (j < k)%nat -> ctxDone w (calls isDone tr + j) = false) ->
    (forall j, (j < k)%nat ->
       exists fresh, kcGet w (calls isGet tr + j) (llv_Name llv) "" = inl fresh
                     /\ llv_Name fresh = llv_Name llv
                     /\ finalizer ∈ Finalizers fresh) ->
    exists llv' tr',
      removeLLVFinalizerIfExist_loop w (S m) attempt llv finalizer tr = ((true, None, llv'), tr')
      /\ (exists src, deleteFirst finalizer (Finalizers src) = Some (Finalizers llv')
                      /\ llv_Name src = llv_Name llv /\ llv_Name llv' = llv_Name llv)
      /\ calls isUpdate tr' = (calls isUpdate tr + k + 1)%nat
      /\ calls isGet tr' = (calls isGet tr + k)%nat.
Proof.
  induction k as [| k IH]; intros m attempt llv tr Hatt Hk Hin Hconf Hok Hdone Hget.
  - destruct (deleteFirst_present finalizer (Finalizers llv) Hin) as (rest & Hrest).
    simpl. rewrite Hrest. unfold bind, Update.
    rewrite Nat.add_0_r in Hok. rewrite Hok.
    eexists _, _. split; [reflexivity |].
    split; [exists llv; simpl; repeat split; assumption |].
    rewrite !calls_app. simpl. split; lia.
  - destruct (deleteFirst_present finalizer (Finalizers llv) Hin) as (rest & Hrest).
    destruct m as [| m]; [lia |].
    destruct (Hconf 0%nat (withFinalizers llv rest) ltac:(lia)) as (e & He & Hce).
    rewrite Nat.add_0_r in He.
    pose proof (Hdone 0%nat ltac:(lia)) as Hd. rewrite Nat.add_0_r in Hd.
    destruct (Hget 0%nat ltac:(lia)) as (fresh & Hf & Hname & Hfin).
    rewrite Nat.add_0_r in Hf.
    set (tr1 := (((tr ++ [EvUpdate (withFinalizers llv rest)]) ++ [EvDone])
                   ++ [EvSleep (KubernetesAPIRequestTimeout * Second)])
                  ++ [EvGet (llv_Name llv) ""]).
    assert (Hu1 : calls isUpdate tr1 = S (calls isUpdate tr)).
    { unfold tr1. rewrite !calls_app. simpl. lia. }
    assert (Hg1 : calls isGet tr1 = S (calls isGet tr)).
    { unfold tr1. rewrite !calls_app. simpl. lia. }
    assert (Hd1 : calls isDone tr1 = S (calls isDone tr)).
    { unfold tr1. rewrite !calls_app. simpl. lia. }
    destruct (IH m (attempt + 1) fresh tr1) as (llv' & tr' & Hrun & Hin' & Hu & Hg).
    + rewrite <- Hatt. lia.
    + lia.
    + assumption.
    + intros j x Hj. destruct (Hconf (S j) x ltac:(lia)) as (e' & He' & Hce').
      exists e'. split; [| assumption]. rewrite <- He'. f_equal. lia.
    + intros x. rewrite <- (Hok x). f_equal. lia.
    + intros j Hj. rewrite <- (Hdone (S j) ltac:(lia)). f_equal. lia.
    + intros j Hj. destruct (Hget (S j) ltac:(lia)) as (fresh' & Hf' & Hname' & Hfin').
      exists fresh'. rewrite Hname. split; [| split; assumption].
      rewrite <- Hf'. f_equal. lia.
    + exists llv', tr'. split; [| split; [| split; lia]].
      2:{ destruct Hin' as (src & Hsrc & Hn1 & Hn2).
          exists src. rewrite <- Hname. repeat split; assumption. }
      rewrite <- Hrun.
      cbn [removeLLVFinalizerIfExist_loop]. rewrite Hrest.
      unfold bind at 1. unfold Update at 1. rewrite He, Hce. cbn [negb].
      assert (Hlt : (attempt <? KubernetesAPIRequestLimit - 1) = true).
      { apply Z.ltb_lt. rewrite <- Hatt. lia. }
      rewrite Hlt.
      unfold bind at 1. unfold Done at 1.
      rewrite calls_app. simpl (calls isDone [_]). rewrite Nat.add_0_r, Hd.
      unfold bind at 1. unfold Sleep at 1.
      unfold bind at 1. unfold GetLVMLogicalVolume at 1.
      unfold bind at 1. unfold Get at 1.
      rewrite !calls_app. simpl (calls isGet [_]). rewrite !Nat.add_0_r.
      simpl (llv_Name (withFinalizers llv rest)). rewrite Hf.
      unfold ret at 1. fold tr1. reflexivity.
Qed.

(** The second half of C4 on the code: all the [S m] attempts left meet
    a version conflict.  The error returned names the attempt count, the
    token and the record, and wraps nothing: the operand of [%w] is nil. *)
Lemma removeLLVFinalizerIfExist_loop_exhausted :
  forall (m : nat) (attempt : Z) (llv : LVMLogicalVolume) (tr : Trace),
    attempt + Z.of_nat (S m) = KubernetesAPIRequestLimit ->
    finalizer ∈ Finalizers llv ->
    (forall j x, (j < S m)%nat ->
       exists e, kcUpdate w (calls isUpdate tr + j) x = Some e /\ IsConflict e = true) ->
    (forall j, (j < m)%nat -> ctxDone w (calls isDone tr + j) = false) ->
    (forall j, (j < m)%nat ->
       exists fresh, kcGet w (calls isGet tr + j) (llv_Name llv) "" = inl fresh
                     /\ llv_Name fresh = llv_Name llv
                     /\ finalizer ∈ Finalizers fresh) ->
    exists llv' tr',
      removeLLVFinalizerIfExist_loop w (S m) attempt llv finalizer tr
      = ((false,
          Some (Errorf "after %d attempts of removing finalizer %s from LVMLogicalVolume %s, last error: %w"
                       [ArgD 3; ArgS finalizer; ArgS (llv_Name llv)] None),
          llv'), tr')
      /\ calls isUpdate tr' = (calls isUpdate tr + S m)%nat
      /\ calls isGet tr' = (calls isGet tr + m)%nat.
Proof.
  induction m as [| m IH]; intros attempt llv tr Hatt Hin Hconf Hdone Hget.
  - destruct (deleteFirst_present finalizer (Finalizers llv) Hin) as (rest & Hrest).
    destruct (Hconf 0%nat (withFinalizers llv rest) ltac:(lia)) as (e & He & Hce).
    rewrite Nat.add_0_r in He.
    simpl. rewrite Hrest. unfold bind, Update. rewrite He, Hce. cbn [negb].
    assert (Hlt : (attempt <? KubernetesAPIRequestLimit - 1) = false).
    { apply Z.ltb_ge. rewrite <- Hatt. lia. }
    rewrite Hlt. unfold ret.
    eexists _, _. split; [reflexivity |].
    rewrite !calls_app. simpl. split; lia.
  - destruct (deleteFirst_present finalizer (Finalizers llv) Hin) as (rest & Hrest).
    destruct (Hconf 0%nat (withFinalizers llv rest) ltac:(lia)) as (e & He & Hce).
    rewrite Nat.add_0_r in He.
    pose proof (Hdone 0%nat ltac:(lia)) as Hd. rewrite Nat.add_0_r in Hd.
    destruct (Hget 0%nat ltac:(lia)) as (fresh & Hf & Hname & Hfin).
    rewrite Nat.add_0_r in Hf.
    set (tr1 := (((tr ++ [EvUpdate (withFinalizers llv rest)]) ++ [EvDone])
                   ++ [EvSleep (KubernetesAPIRequestTimeout * Second)])
                  ++ [EvGet (llv_Name llv) ""]).
    assert (Hu1 : calls isUpdate tr1 = S (calls isUpdate tr)).
    { unfold tr1. rewrite !calls_app. simpl. lia. }
    assert (Hg1 : calls isGet tr1 = S (calls isGet tr)).
    { unfold tr1. rewrite !calls_app. simpl. lia. }
    assert (Hd1 : calls isDone tr1 = S (calls isDone tr)).
    { unfold tr1. rewrite !calls_app. simpl. lia. }
    destruct (IH (attempt + 1) fresh tr1) as (llv' & tr' & Hrun & Hu & Hg).
    + rewrite <- Hatt. lia.
    + assumption.
    + intros j x Hj. destruct (Hconf (S j) x ltac:(lia)) as (e' & He' & Hce').
      exists e'. split; [| assumption]. rewrite <- He'. f_equal. lia.
    + intros j Hj. rewrite <- (Hdone (S j) ltac:(lia)). f_equal. lia.
    + intros j Hj. destruct (Hget (S j) ltac:(lia)) as (fresh' & Hf' & Hname' & Hfin').
      exists fresh'. rewrite Hname. split; [| split; assumption].
      rewrite <- Hf'. f_equal. lia.
    + exists llv', tr'. split; [| split; lia].
      rewrite <- Hname, <- Hrun.
      cbn [removeLLVFinalizerIfExist_loop]. rewrite Hrest.
      unfold bind at 1. unfold Update at 1. rewrite He, Hce. cbn [negb].
      assert (Hlt : (attempt <? KubernetesAPIRequestLimit - 1) = true).
      { apply Z.ltb_lt. rewrite <- Hatt. lia. }
      rewrite Hlt.
      unfold bind at 1. unfold Done at 1.
      rewrite calls_app. simpl (calls isDone [_]). rewrite Nat.add_0_r, Hd.
      unfold bind at 1. unfold Sleep at 1.
      unfold bind at 1. unfold GetLVMLogicalVolume at 1.
      unfold bind at 1. unfold Get at 1.
      rewrite !calls_app. simpl (calls isGet [_]). rewrite !Nat.add_0_r.
      simpl (llv_Name (withFinalizers llv rest)). rewrite Hf.
      unfold ret at 1. fold tr1. reflexivity.
Qed.
End LocalFinalizer.

(** C4 fails on the code in its second half.  With the token present and
    a version conflict on each of the three Updates (every fetch in between
    answers a record that still holds the token), [removeLLVFinalizerIfExist]
    returns an error that wraps nothing and is not a conflict: the last
    conflict is not named.  It has issued three Updates and fetched twice. *)
Theorem removeLLVFinalizerIfExist_exhausted_drops_the_conflict
    (w : World LVMVolumeGroup) (llv : LVMLogicalVolume) (finalizer : string) (tr : Trace) :
  finalizer ∈ Finalizers llv ->
  (forall j x, (j < 3)%nat ->
     exists e, kcUpdate w (calls isUpdate tr + j) x = Some e /\ IsConflict e = true) ->
  (forall j, (j < 2)%nat -> ctxDone w (calls isDone tr + j) = false) ->
  (forall j, (j < 2)%nat ->
     exists fresh, kcGet w (calls isGet tr + j) (llv_Name llv) "" = inl fresh
                   /\ llv_Name fresh = llv_Name llv
                   /\ finalizer ∈ Finalizers fresh) ->
  exists err llv' tr',
    SdsLocalVolumeCsi.removeLLVFinalizerIfExist w llv finalizer tr = ((false, Some err, llv'), tr')
    /\ err = Errorf "after %d attempts of removing finalizer %s from LVMLogicalVolume %s, last error: %w"
                    [ArgD 3; ArgS finalizer; ArgS (llv_Name llv)] None
    /\ Unwrap err = None
    /\ IsConflict err = false
    /\ calls isUpdate tr' = (calls isUpdate tr + 3)%nat
    /\ calls isGet tr' = (calls isGet tr + 2)%nat.
Proof.
  intros Hin Hconf Hdone Hget.
  destruct (removeLLVFinalizerIfExist_loop_exhausted w finalizer 2 0 llv tr
              eq_refl Hin Hconf Hdone Hget) as (llv' & tr' & Hrun & Hu & Hg).
  eexists _, llv', tr'. split; [exact Hrun |].
  repeat split; assumption.
Qed.

Lemma removeLLVFinalizerIfExist_exhausted_drops_the_conflict_witness :
  exists err llv' tr',
    SdsLocalVolumeCsi.removeLLVFinalizerIfExist conflictWorld ownedRecord
      SdsLocalVolumeCsi.SDSLocalVolumeCSIFinalizer [] = ((false, Some err, llv'), tr')
    /\ err = Errorf "after %d attempts of removing finalizer %s from LVMLogicalVolume %s, last error: %w"
                    [ArgD 3; ArgS SdsLocalVolumeCsi.SDSLocalVolumeCSIFinalizer;
                     ArgS (llv_Name ownedRecord)] None
    /\ Unwrap err = None
    /\ IsConflict err = false
    /\ calls isUpdate tr' = (calls isUpdate [] + 3)%nat
    /\ calls isGet tr' = (calls isGet [] + 2)%nat.
Proof.
  apply (removeLLVFinalizerIfExist_exhausted_drops_the_conflict conflictWorld ownedRecord
           SdsLocalVolumeCsi.SDSLocalVolumeCSIFinalizer []).
  - apply list_elem_of_here.
  - intros j x Hj. exists conflict. split; reflexivity.
  - intros j Hj. reflexivity.
  - intros j Hj. exists ownedRecord. repeat split. apply list_elem_of_here.
Defined.

(** The first half of C4 holds: up to two conflicts and then a success
    give (true, nil), with one fetch after each conflict. *)
Lemma removeLLVFinalizerIfExist_succeeds_within_budget
    (w : World LVMVolumeGroup) (llv : LVMLogicalVolume) (finalizer : string) (tr : Trace)
    (k : nat) :
  (k <= 2)%nat ->
  finalizer ∈ Finalizers llv ->
  (forall j x, (j < k)%nat ->
     exists e, kcUpdate w (calls isUpdate tr + j) x = Some e /\ IsConflict e = true) ->
  (forall x, kcUpdate w (calls isUpdate tr + k) x = None) ->
  (forall j, (j < k)%nat -> ctxDone w (calls isDone tr + j) = false) ->
  (forall j, (j < k)%nat ->
     exists fresh, kcGet w (calls isGet tr + j) (llv_Name llv) "" = inl fresh
                   /\ llv_Name fresh = llv_Name llv
                   /\ finalizer ∈ Finalizers fresh) ->
  exists llv' tr',
    SdsLocalVolumeCsi.removeLLVFinalizerIfExist w llv finalizer tr = ((true, None, llv'), tr')
    /\ calls isUpdate tr' = (calls isUpdate tr + k + 1)%nat
    /\ calls isGet tr' = (calls isGet tr + k)%nat.
Proof.
  intros Hk Hin Hconf Hok Hdone Hget.
  destruct (removeLLVFinalizerIfExist_loop_succeeds w finalizer k 2 0 llv tr
              eq_refl Hk Hin Hconf Hok Hdone Hget) as (llv' & tr' & Hrun & _ & Hu & Hg).
  exists llv', tr'. repeat split; assumption.
Qed.

Example removeLLVFinalizerIfExist_two_conflicts_then_success :
  (SdsLocalVolumeCsi.removeLLVFinalizerIfExist twoConflictsWorld ownedRecord
     SdsLocalVolumeCsi.SDSLocalVolumeCSIFinalizer []).1
  = (true, None, SdsLocalVolumeCsi.withFinalizers ownedRecord []).
Proof. vm_compute. reflexivity. Qed.

(** ** Waiting for the status *)

Lemma int_wrap_add_l (a b : Z) : int_wrap (int_wrap a + b) = int_wrap (a + b).
Proof.
  unfold int_wrap. f_equal.
  replace ((a + 2 ^ 63) mod 2 ^ 64 - 2 ^ 63 + b + 2 ^ 63)
    with ((a + 2 ^ 63) mod 2 ^ 64 + b) by lia.
  rewrite Zplus_mod_idemp_l. f_equal. lia.
Qed.

Lemma int_wrap_small (z : Z) : - 2 ^ 63 <= z < 2 ^ 63 -> int_wrap z = z.
Proof.
  intros Hz. unfold int_wrap. rewrite Z.mod_small; lia.
Qed.

Section LocalWait.
Import SdsLocalVolumeCsi.
Context (w : World LVMVolumeGroup) (name namespace : string) (llvSize delta : Quantity).

(** One iteration whose fetch answers [llv]. *)
Lemma WaitForStatusUpdate_loop_step (fuel : nat) (c : Z) (sizeEquals : bool)
    (tr : Trace) (llv : LVMLogicalVolume) :
  observes w name namespace tr 0 llv ->
  WaitForStatusUpdate_loop w (S fuel) name namespace llvSize delta c sizeEquals tr
  = let tr1 := tr ++ [EvDone; EvSleep (500 * Millisecond); EvGet name namespace] in
    let c1 := int_wrap (c + 1) in
    match llv_Status llv with
    | Some status =>
        let sizeEquals1 := AreSizesEqualWithinDelta llvSize (ActualSize status) delta in
        match DeletionTimestamp llv with
        | Some _ =>
            (Some (c1, Some (Errorf "failed to create LVM logical volume on node for LVMLogicalVolume %s, reason: LVMLogicalVolume is being deleted"
                                    [ArgS name] None)), tr1)
        | None =>
            if String.eqb (Phase status) "Failed" then
              (Some (c1, Some (Errorf "failed to create LVM logical volume on node for LVMLogicalVolume %s, reason: %s"
                                      [ArgS name; ArgS (Reason status)] None)), tr1)
            else if String.eqb (Phase status) "Created" && sizeEquals1 then
              (Some (c1, None), tr1)
            else WaitForStatusUpdate_loop w fuel name namespace llvSize delta c1 sizeEquals1 tr1
        end
    | None => WaitForStatusUpdate_loop w fuel name namespace llvSize delta c1 sizeEquals tr1
    end.
Proof.
  intros [Hdone Hget]. rewrite Nat.add_0_r in Hdone, Hget.
  cbn [WaitForStatusUpdate_loop].
  unfold bind at 1. unfold Done at 1. rewrite Hdone.
  unfold bind at 1. unfold Sleep at 1.
  unfold bind at 1. unfold GetLVMLogicalVolume at 1.
  unfold bind at 1. unfold Get at 1.
  rewrite !calls_app. simpl (calls isGet [_]). rewrite !Nat.add_0_r, Hget.
  unfold ret at 1. cbv zeta.
  replace (((tr ++ [EvDone]) ++ [EvSleep (500 * Millisecond)]) ++ [EvGet name namespace])
    with (tr ++ [EvDone; EvSleep (500 * Millisecond); EvGet name namespace])
    by (rewrite <- !app_assoc; reflexivity).
  destruct (llv_Status llv) as [status |]; [| reflexivity].
  destruct (DeletionTimestamp llv); [reflexivity |].
  unfold LLVStatusFailed, LLVStatusCreated.
  destruct (String.eqb (Phase status) "Failed"); [reflexivity |].
  destruct (String.eqb (Phase status) "Created"); [| reflexivity].
  destruct (AreSizesEqualWithinDelta llvSize (ActualSize status) delta); reflexivity.
Qed.

(** [k] observations after which the loop goes on waiting. *)
Lemma WaitForStatusUpdate_loop_waits :
  forall (k fuel : nat) (c : Z) (sizeEquals : bool) (tr : Trace),
    waitsThrough w name namespace (stillWaiting llvSize delta) tr k ->
    exists c' sizeEquals' tr',
      WaitForStatusUpdate_loop w (k + fuel) name namespace llvSize delta c sizeEquals tr
      = WaitForStatusUpdate_loop w fuel name namespace llvSize delta c' sizeEquals' tr'
      /\ int_wrap (c' + 1) = int_wrap (c + Z.of_nat k + 1)
      /\ calls isDone tr' = (calls isDone tr + k)%nat
      /\ calls isGet tr' = (calls isGet tr + k)%nat.
Proof.
  induction k as [| k IH]; intros fuel c sizeEquals tr Hwait.
  - exists c, sizeEquals, tr. simpl. rewrite Z.add_0_r, !Nat.add_0_r. repeat split.
  - destruct (Hwait 0%nat ltac:(lia)) as (Hdone & llv & Hget & Hstill).
    assert (Hobs : observes w name namespace tr 0 llv) by (split; assumption).
    set (tr1 := tr ++ [EvDone; EvSleep (500 * Millisecond); EvGet name namespace]).
    assert (Hd1 : calls isDone tr1 = S (calls isDone tr)).
    { unfold tr1. rewrite calls_app. simpl. lia. }
    assert (Hg1 : calls isGet tr1 = S (calls isGet tr)).
    { unfold tr1. rewrite calls_app. simpl. lia. }
    assert (Hwait1 : waitsThrough w name namespace (stillWaiting llvSize delta) tr1 k).
    { intros j Hj. destruct (Hwait (S j) ltac:(lia)) as (Hdj & llvj & Hgj & Hsj).
      rewrite Hd1, Hg1. split.
      - rewrite <- Hdj. f_equal. lia.
      - exists llvj. split; [| assumption]. rewrite <- Hgj. f_equal. lia. }
    change (S k + fuel)%nat with (S (k + fuel)).
    rewrite (WaitForStatusUpdate_loop_step (k + fuel) c sizeEquals tr llv Hobs).
    cbv zeta. fold tr1.
    unfold stillWaiting in Hstill.
    destruct (llv_Status llv) as [status |].
    + destruct (DeletionTimestamp llv); [discriminate |].
      destruct (String.eqb (Phase status) "Failed"); [discriminate |].
      destruct (String.eqb (Phase status) "Created"
                && AreSizesEqualWithinDelta llvSize (ActualSize status) delta);
        [discriminate |].
      destruct (IH fuel (int_wrap (c + 1))
                  (AreSizesEqualWithinDelta llvSize (ActualSize status) delta) tr1 Hwait1)
        as (c' & se' & tr' & Hrun & Hc & Hd & Hg).
      exists c', se', tr'. split; [exact Hrun |]. split; [| split; lia].
      rewrite Hc. rewrite <- Z.add_assoc, int_wrap_add_l. f_equal. lia.
    + destruct (IH fuel (int_wrap (c + 1)) sizeEquals tr1 Hwait1)
        as (c' & se' & tr' & Hrun & Hc & Hd & Hg).
      exists c', se', tr'. split; [exact Hrun |]. split; [| split; lia].
      rewrite Hc. rewrite <- Z.add_assoc, int_wrap_add_l. f_equal. lia.
Qed.

(** The wait up to observation [k], and that observation's iteration. *)
Lemma WaitForStatusUpdate_reaches (k fuel : nat) (tr : Trace) (llv : LVMLogicalVolume) :
  waitsThrough w name namespace (stillWaiting llvSize delta) tr k ->
  observes w name namespace tr k llv ->
  exists c' sizeEquals' tr',
    WaitForStatusUpdate w (S k + fuel) name namespace llvSize delta tr
    = WaitForStatusUpdate_loop w (S fuel) name namespace llvSize delta c' sizeEquals' tr'
    /\ int_wrap (c' + 1) = int_wrap (Z.of_nat (S k))
    /\ observes w name namespace tr' 0 llv
    /\ calls isGet tr' = (calls isGet tr + k)%nat.
Proof.
  intros Hwait [Hdone Hget].
  destruct (WaitForStatusUpdate_loop_waits k (S fuel) 0 false tr Hwait)
    as (c' & se' & tr' & Hrun & Hc & Hd & Hg).
  exists c', se', tr'. unfold WaitForStatusUpdate.
  replace (S k + fuel)%nat with (k + S fuel)%nat by lia.
  split; [exact Hrun |]. split; [| split; [split |]].
  - rewrite Hc. f_equal. lia.
  - rewrite Nat.add_0_r, Hd. assumption.
  - rewrite Nat.add_0_r, Hg. assumption.
  - assumption.
Qed.
End LocalWait.

Section LvmWait.
Import SdsLvmCsi.
Context (w : World LvmVolumeGroup) (name namespace : string) (llvSize delta : Quantity).

(** One iteration whose first [Get] answers [llv]. *)
Lemma lvm_WaitForStatusUpdate_loop_step (fuel : nat) (c : Z) (sizeEquals : bool)
    (tr : Trace) (llv : LVMLogicalVolume) :
  observes w name namespace tr 0 llv ->
  WaitForStatusUpdate_loop w (S fuel) name namespace llvSize delta c sizeEquals tr
  = let tr1 := tr ++ [EvAfter (500 * Millisecond); EvDone; EvGet name namespace] in
    let c1 := int_wrap (c + 1) in
    match llv_Status llv with
    | Some status =>
        let sizeEquals1 := AreSizesEqualWithinDelta llvSize (ActualSize status) delta in
        if String.eqb (Phase status) "Failed" then
          (Some (c1, Some (Errorf "LVM Logical Volume %s failed, reason: %s"
                                  [ArgS name; ArgS (Reason status)] None)), tr1)
        else if String.eqb (Phase status) "Created" && sizeEquals1 then
          (Some (c1, None), tr1)
        else WaitForStatusUpdate_loop w fuel name namespace llvSize delta c1 sizeEquals1 tr1
    | None => WaitForStatusUpdate_loop w fuel name namespace llvSize delta c1 sizeEquals tr1
    end.
Proof.
  intros [Hdone Hget]. rewrite Nat.add_0_r in Hdone, Hget.
  cbn [WaitForStatusUpdate_loop].
  unfold bind at 1. unfold After at 1.
  unfold bind at 1. unfold Done at 1.
  rewrite calls_app. simpl (calls isDone [_]). rewrite Nat.add_0_r, Hdone.
  unfold bind at 1. unfold GetLVMLogicalVolume at 1.
  change (Z.to_nat KubernetesApiRequestLimit) with 3%nat.
  cbn [GetLVMLogicalVolume_loop].
  unfold bind at 1. unfold Get at 1.
  rewrite !calls_app. simpl (calls isGet [_]). rewrite !Nat.add_0_r, Hget.
  unfold ret at 1. cbv zeta.
  replace (((tr ++ [EvAfter (500 * Millisecond)]) ++ [EvDone]) ++ [EvGet name namespace])
    with (tr ++ [EvAfter (500 * Millisecond); EvDone; EvGet name namespace])
    by (rewrite <- !app_assoc; reflexivity).
  destruct (llv_Status llv) as [status |]; [| reflexivity].
  unfold LLVStatusFailed, LLVStatusCreated.
  destruct (String.eqb (Phase status) "Failed"); [reflexivity |].
  destruct (String.eqb (Phase status) "Created"); [| reflexivity].
  destruct (AreSizesEqualWithinDelta llvSize (ActualSize status) delta); reflexivity.
Qed.

Lemma lvm_WaitForStatusUpdate_loop_waits :
  forall (k fuel : nat) (c : Z) (sizeEquals : bool) (tr : Trace),
    waitsThrough w name namespace (stillWaitingLvm llvSize delta) tr k ->
    exists c' sizeEquals' tr',
      WaitForStatusUpdate_loop w (k + fuel) name namespace llvSize delta c sizeEquals tr
      = WaitForStatusUpdate_loop w fuel name namespace llvSize delta c' sizeEquals' tr'
      /\ int_wrap (c' + 1) = int_wrap (c + Z.of_nat k + 1)
      /\ calls isDone tr' = (calls isDone tr + k)%nat
      /\ calls isGet tr' = (calls isGet tr + k)%nat.
Proof.
  induction k as [| k IH]; intros fuel c sizeEquals tr Hwait.
  - exists c, sizeEquals, tr. simpl. rewrite Z.add_0_r, !Nat.add_0_r. repeat split.
  - destruct (Hwait 0%nat ltac:(lia)) as (Hdone & llv & Hget & Hstill).
    assert (Hobs : observes w name namespace tr 0 llv) by (split; assumption).
    set (tr1 := tr ++ [EvAfter (500 * Millisecond); EvDone; EvGet name namespace]).
    assert (Hd1 : calls isDone tr1 = S (calls isDone tr)).
    { unfold tr1. rewrite calls_app. simpl. lia. }
    assert (Hg1 : calls isGet tr1 = S (calls isGet tr)).
    { unfold tr1. rewrite calls_app. simpl. lia. }
    assert (Hwait1 : waitsThrough w name namespace (stillWaitingLvm llvSize delta) tr1 k).
    { intros j Hj. destruct (Hwait (S j) ltac:(lia)) as (Hdj & llvj & Hgj & Hsj).
      rewrite Hd1, Hg1. split.
      - rewrite <- Hdj. f_equal. lia.
      - exists llvj. split; [| assumption]. rewrite <- Hgj. f_equal. lia. }
    change (S k + fuel)%nat with (S (k + fuel)).
    rewrite (lvm_WaitForStatusUpdate_loop_step (k + fuel) c sizeEquals tr llv Hobs).
    cbv zeta. fold tr1.
    unfold stillWaitingLvm in Hstill.
    destruct (llv_Status llv) as [status |].
    + destruct (String.eqb (Phase status) "Failed"); [discriminate |].
      destruct (String.eqb (Phase status) "Created"
                && AreSizesEqualWithinDelta llvSize (ActualSize status) delta);
        [discriminate |].
      destruct (IH fuel (int_wrap (c + 1))
                  (AreSizesEqualWithinDelta llvSize (ActualSize status) delta) tr1 Hwait1)
        as (c' & se' & tr' & Hrun & Hc & Hd & Hg).
      exists c', se', tr'. split; [exact Hrun |]. split; [| split; lia].
      rewrite Hc. rewrite <- Z.add_assoc, int_wrap_add_l. f_equal. lia.
    + destruct (IH fuel (int_wrap (c + 1)) sizeEquals tr1 Hwait1)
        as (c' & se' & tr' & Hrun & Hc & Hd & Hg).
      exists c', se', tr'. split; [exact Hrun |]. split; [| split; lia].
      rewrite Hc. rewrite <- Z.add_assoc, int_wrap_add_l. f_equal. lia.
Qed.

Lemma lvm_WaitForStatusUpdate_reaches (k fuel : nat) (tr : Trace) (llv : LVMLogicalVolume) :
  waitsThrough w name namespace (stillWaitingLvm llvSize delta) tr k ->
  observes w name namespace tr k llv ->
  exists c' sizeEquals' tr',
    WaitForStatusUpdate w (S k + fuel) name namespace llvSize delta tr
    = WaitForStatusUpdate_loop w (S fuel) name namespace llvSize delta c' sizeEquals' tr'
    /\ int_wrap (c' + 1) = int_wrap (Z.of_nat (S k))
    /\ observes w name namespace tr' 0 llv
    /\ calls isGet tr' = (calls isGet tr + k)%nat.
Proof.
  intros Hwait [Hdone Hget].
  destruct (lvm_WaitForStatusUpdate_loop_waits k (S fuel) 0 false tr Hwait)
    as (c' & se' & tr' & Hrun & Hc & Hd & Hg).
  exists c', se', tr'. unfold WaitForStatusUpdate.
  replace (S k + fuel)%nat with (k + S fuel)%nat by lia.
  split; [exact Hrun |]. split; [| split; [split |]].
  - rewrite Hc. f_equal. lia.
  - rewrite Nat.add_0_r, Hd. assumption.
  - rewrite Nat.add_0_r, Hg. assumption.
  - assumption.
Qed.
End LvmWait.

(** C2, as the code has it.  After observations on which the loop goes on
    waiting, the first observation that has a status, is not being deleted
    (sds-lvm-csi does not ask) and whose phase is Failed makes
    [WaitForStatusUpdate] return the failure with the record's reason on
    that attempt, with no further fetch; the first one whose phase is
    Created and whose size [AreSizesEqualWithinDelta] finds within the
    tolerance makes it return nil.  The attempt counter returned is the
    number of the observation.  Fed Pending, Pending, Created with a wrong
    size, Created with the right size, it returns (4, nil). *)
Theorem WaitForStatusUpdate_returns_at_first_failed_or_created :
  (forall (w : World LVMVolumeGroup) name namespace llvSize delta (tr : Trace)
          (k fuel : nat) llv status,
      waitsThrough w name namespace (stillWaiting llvSize delta) tr k ->
      observes w name namespace tr k llv ->
      llv_Status llv = Some status ->
      DeletionTimestamp llv = None ->
      (Phase status = "Failed" ->
       exists tr',
         SdsLocalVolumeCsi.WaitForStatusUpdate w (S k + fuel) name namespace llvSize delta tr
         = (Some (int_wrap (Z.of_nat (S k)),
                  Some (Errorf "failed to create LVM logical volume on node for LVMLogicalVolume %s, reason: %s"
                               [ArgS name; ArgS (Reason status)] None)), tr')
         /\ calls isGet tr' = (calls isGet tr + S k)%nat)
      /\ (Phase status = "Created" ->
          AreSizesEqualWithinDelta llvSize (ActualSize status) delta = true ->
          exists tr',
            SdsLocalVolumeCsi.WaitForStatusUpdate w (S k + fuel) name namespace llvSize delta tr
            = (Some (int_wrap (Z.of_nat (S k)), None), tr')
            /\ calls isGet tr' = (calls isGet tr + S k)%nat))
  /\ (forall (w : World LvmVolumeGroup) name namespace llvSize delta (tr : Trace)
             (k fuel : nat) llv status,
      waitsThrough w name namespace (stillWaitingLvm llvSize delta) tr k ->
      observes w name namespace tr k llv ->
      llv_Status llv = Some status ->
      (Phase status = "Failed" ->
       exists tr',
         SdsLvmCsi.WaitForStatusUpdate w (S k + fuel) name namespace llvSize delta tr
         = (Some (int_wrap (Z.of_nat (S k)),
                  Some (Errorf "LVM Logical Volume %s failed, reason: %s"
                               [ArgS name; ArgS (Reason status)] None)), tr')
         /\ calls isGet tr' = (calls isGet tr + S k)%nat)
      /\ (Phase status = "Created" ->
          AreSizesEqualWithinDelta llvSize (ActualSize status) delta = true ->
          exists tr',
            SdsLvmCsi.WaitForStatusUpdate w (S k + fuel) name namespace llvSize delta tr
            = (Some (int_wrap (Z.of_nat (S k)), None), tr')
            /\ calls isGet tr' = (calls isGet tr + S k)%nat))
  /\ (SdsLocalVolumeCsi.WaitForStatusUpdate (scriptedWorld LVMVolumeGroup convergingScript)
        4 "pvc-1" "" (NewQuantity (10 * Gi)) (NewQuantity Gi) []).1 = Some (4, None)
  /\ (SdsLvmCsi.WaitForStatusUpdate (scriptedWorld LvmVolumeGroup convergingScript)
        4 "pvc-1" "" (NewQuantity (10 * Gi)) (NewQuantity Gi) []).1 = Some (4, None).
Proof.
  split; [| split; [| split]].
  - intros w name namespace llvSize delta tr k fuel llv status Hwait Hobs Hst Hdel.
    destruct (WaitForStatusUpdate_reaches w name namespace llvSize delta k fuel tr llv Hwait Hobs)
      as (c' & se' & tr' & Hrun & Hc & Hobs' & Hg).
    rewrite Hrun.
    rewrite (WaitForStatusUpdate_loop_step w name namespace llvSize delta fuel c' se' tr' llv Hobs').
    cbv zeta. rewrite Hst, Hdel, Hc. split.
    + intros Hphase. rewrite Hphase. simpl (String.eqb _ _).
      eexists. split; [reflexivity |]. rewrite calls_app, Hg. simpl. lia.
    + intros Hphase Hsize. rewrite Hphase, Hsize. simpl (String.eqb _ _). simpl (_ && _).
      eexists. split; [reflexivity |]. rewrite calls_app, Hg. simpl. lia.
  - intros w name namespace llvSize delta tr k fuel llv status Hwait Hobs Hst.
    destruct (lvm_WaitForStatusUpdate_reaches w name namespace llvSize delta k fuel tr llv Hwait Hobs)
      as (c' & se' & tr' & Hrun & Hc & Hobs' & Hg).
    rewrite Hrun.
    rewrite (lvm_WaitForStatusUpdate_loop_step w name namespace llvSize delta fuel c' se' tr' llv Hobs').
    cbv zeta. rewrite Hst, Hc. split.
    + intros Hphase. rewrite Hphase. simpl (String.eqb _ _).
      eexists. split; [reflexivity |]. rewrite calls_app, Hg. simpl. lia.
    + intros Hphase Hsize. rewrite Hphase, Hsize. simpl (String.eqb _ _). simpl (_ && _).
      eexists. split; [reflexivity |]. rewrite calls_app, Hg. simpl. lia.
  - vm_compute. reflexivity.
  - vm_compute. reflexivity.
Qed.

Lemma WaitForStatusUpdate_returns_at_first_failed_or_created_witness :
  (exists tr',
      SdsLocalVolumeCsi.WaitForStatusUpdate (scriptedWorld LVMVolumeGroup convergingScript)
        (4 + 0) "pvc-1" "" (NewQuantity (10 * Gi)) (NewQuantity Gi) []
      = (Some (int_wrap (Z.of_nat 4), None), tr')
      /\ calls isGet tr' = (calls isGet [] + 4)%nat)
  /\ (exists tr',
      SdsLvmCsi.WaitForStatusUpdate (scriptedWorld LvmVolumeGroup failingScript)
        (2 + 0) "pvc-1" "" (NewQuantity (10 * Gi)) (NewQuantity Gi) []
      = (Some (int_wrap (Z.of_nat 2),
               Some (Errorf "LVM Logical Volume %s failed, reason: %s"
                            [ArgS "pvc-1"; ArgS (Reason failedStatus)] None)), tr')
      /\ calls isGet tr' = (calls isGet [] + 2)%nat).
Proof.
  split.
  - apply (proj2 (proj1 WaitForStatusUpdate_returns_at_first_failed_or_created
                    (scriptedWorld LVMVolumeGroup convergingScript) "pvc-1" ""
                    (NewQuantity (10 * Gi)) (NewQuantity Gi) [] 3%nat 0%nat
                    (observed None (Some createdRightSize)) createdRightSize
                    ltac:(intros [| [| [| j]]] Hj; [| | | lia];
                          (split; [reflexivity | eexists; split; reflexivity]))
                    ltac:(split; reflexivity) eq_refl eq_refl));
      reflexivity.
  - apply (proj1 (proj1 (proj2 WaitForStatusUpdate_returns_at_first_failed_or_created)
                    (scriptedWorld LvmVolumeGroup failingScript) "pvc-1" ""
                    (NewQuantity (10 * Gi)) (NewQuantity Gi) [] 1%nat 0%nat
                    (observed None (Some failedStatus)) failedStatus
                    ltac:(intros [| j] Hj; [| lia];
                          (split; [reflexivity | eexists; split; reflexivity]))
                    ltac:(split; reflexivity) eq_refl));
      reflexivity.
Defined.

(** C2, as the spec words it, fails for sds-local-volume-csi: a record
    whose phase is Failed and whose deletion is requested makes
    [WaitForStatusUpdate] return the error of a record being deleted, not
    the failure with the record's reason. *)
Lemma WaitForStatusUpdate_failed_while_being_deleted :
  let llv := observed (Some 1700000000) (Some failedStatus) in
  let run := SdsLocalVolumeCsi.WaitForStatusUpdate (scriptedWorld LVMVolumeGroup [llv])
               1 "pvc-1" "" (NewQuantity (10 * Gi)) (NewQuantity Gi) [] in
  (Phase <$> llv_Status llv) = Some "Failed"
  /\ run.1 = Some (1, Some beingDeleted)
  /\ run.1 <> Some (1, Some (Errorf "failed to create LVM logical volume on node for LVMLogicalVolume %s, reason: %s"
                                    [ArgS "pvc-1"; ArgS (Reason failedStatus)] None)).
Proof.
  cbv zeta. split; [reflexivity |]. split; [vm_compute; reflexivity |].
  vm_compute. intros H. discriminate H.
Qed.

(** C7, as the code has it: in sds-local-volume-csi, after observations on
    which the loop goes on waiting, a fetched record that has a status and
    a deletion timestamp makes [WaitForStatusUpdate] return the error of a
    record being deleted on that attempt, whatever the phase, the reason
    and the size of the status are. *)
Theorem WaitForStatusUpdate_record_with_status_being_deleted
    (w : World LVMVolumeGroup) (name namespace : string) (llvSize delta : Quantity)
    (tr : Trace) (k fuel : nat) (llv : LVMLogicalVolume)
    (status : LVMLogicalVolumeStatus) (t : Z) :
  waitsThrough w name namespace (stillWaiting llvSize delta) tr k ->
  observes w name namespace tr k llv ->
  llv_Status llv = Some status ->
  DeletionTimestamp llv = Some t ->
  exists tr',
    SdsLocalVolumeCsi.WaitForStatusUpdate w (S k + fuel) name namespace llvSize delta tr
    = (Some (int_wrap (Z.of_nat (S k)),
             Some (Errorf "failed to create LVM logical volume on node for LVMLogicalVolume %s, reason: LVMLogicalVolume is being deleted"
                          [ArgS name] None)), tr')
    /\ calls isGet tr' = (calls isGet tr + S k)%nat.
Proof.
  intros Hwait Hobs Hst Hdel.
  destruct (WaitForStatusUpdate_reaches w name namespace llvSize delta k fuel tr llv Hwait Hobs)
    as (c' & se' & tr' & Hrun & Hc & Hobs' & Hg).
  rewrite Hrun.
  rewrite (WaitForStatusUpdate_loop_step w name namespace llvSize delta fuel c' se' tr' llv Hobs').
  cbv zeta. rewrite Hst, Hdel, Hc.
  eexists. split; [reflexivity |]. rewrite calls_app, Hg. simpl. lia.
Qed.

Lemma WaitForStatusUpdate_record_with_status_being_deleted_witness :
  exists tr',
    SdsLocalVolumeCsi.WaitForStatusUpdate (scriptedWorld LVMVolumeGroup deletedScript)
      (2 + 0) "pvc-1" "" (NewQuantity (10 * Gi)) (NewQuantity Gi) []
    = (Some (int_wrap (Z.of_nat 2), Some beingDeleted), tr')
    /\ calls isGet tr' = (calls isGet [] + 2)%nat.
Proof.
  apply (WaitForStatusUpdate_record_with_status_being_deleted
           (scriptedWorld LVMVolumeGroup deletedScript) "pvc-1" ""
           (NewQuantity (10 * Gi)) (NewQuantity Gi) [] 1%nat 0%nat
           (observed (Some 1700000000) (Some createdWrongSize)) createdWrongSize 1700000000).
  - intros [| j] Hj; [| lia]. split; [reflexivity | eexists; split; reflexivity].
  - split; reflexivity.
  - reflexivity.
  - reflexivity.
Defined.

(** C7, as the spec words it, fails: a record that is being deleted and
    has no status yet does not end the wait of sds-local-volume-csi, which
    goes on to the next observation; sds-lvm-csi never looks at the
    deletion timestamp and reports success on a record being deleted. *)
Lemma WaitForStatusUpdate_deletion_without_status_goes_unnoticed :
  (SdsLocalVolumeCsi.WaitForStatusUpdate
     (scriptedWorld LVMVolumeGroup
        [observed (Some 1700000000) None; observed None (Some createdRightSize)])
     2 "pvc-1" "" (NewQuantity (10 * Gi)) (NewQuantity Gi) []).1 = Some (2, None)
  /\ (SdsLvmCsi.WaitForStatusUpdate
        (scriptedWorld LvmVolumeGroup [observed (Some 1700000000) (Some createdRightSize)])
        1 "pvc-1" "" (NewQuantity (10 * Gi)) (NewQuantity Gi) []).1 = Some (1, None).
Proof. split; vm_compute; reflexivity. Qed.

(** * Further properties of the code *)

(** ** Removing a finalizer from the list *)

(** X1: [deleteFirst] removes the first occurrence of the token and
    nothing else: the elements before and after it stay, in order, and a
    second occurrence stays too. *)
Theorem deleteFirst_removes_the_first_occurrence
    (finalizer : string) (before after : list string) :
  finalizer ∉ before ->
  SdsLocalVolumeCsi.deleteFirst finalizer (before ++ finalizer :: after)
  = Some (before ++ after).
Proof.
  induction before as [| val rest IH]; intros Habsent; simpl.
  - rewrite String.eqb_refl. reflexivity.
  - destruct (String.eqb_spec val finalizer) as [-> | Hne].
    + exfalso. apply Habsent. apply list_elem_of_here.
    + rewrite IH; [reflexivity |].
      intros Hin. apply Habsent. apply list_elem_of_further. assumption.
Qed.

Lemma deleteFirst_removes_the_first_occurrence_witness :
  SdsLocalVolumeCsi.deleteFirst SdsLocalVolumeCsi.SDSLocalVolumeCSIFinalizer
    (["storage.deckhouse.io/sds-node-configurator"]
       ++ SdsLocalVolumeCsi.SDSLocalVolumeCSIFinalizer
       :: [SdsLocalVolumeCsi.SDSLocalVolumeCSIFinalizer])
  = Some (["storage.deckhouse.io/sds-node-configurator"]
            ++ [SdsLocalVolumeCsi.SDSLocalVolumeCSIFinalizer]).
Proof.
  apply (deleteFirst_removes_the_first_occurrence
           SdsLocalVolumeCsi.SDSLocalVolumeCSIFinalizer
           ["storage.deckhouse.io/sds-node-configurator"]
           [SdsLocalVolumeCsi.SDSLocalVolumeCSIFinalizer]).
  intros Hin. apply list_elem_of_In in Hin. simpl in Hin.
  destruct Hin as [Heq | []]. discriminate Heq.
Defined.

(** ** What releasing the finalizer does to the store *)

Ltac count_calls := rewrite ?calls_app; simpl; lia.

Section LocalFinalizerCalls.
Import SdsLocalVolumeCsi.
Context (w : World LVMVolumeGroup) (finalizer : string).

(** The calls of the loop with [n] iterations left. *)
Lemma removeLLVFinalizerIfExist_loop_calls :
  forall (n : nat) (attempt : Z) (llv : LVMLogicalVolume) (tr : Trace),
    attempt + Z.of_nat n = KubernetesAPIRequestLimit ->
    let tr' := (removeLLVFinalizerIfExist_loop w n attempt llv finalizer tr).2 in
    calls isCreate tr' = calls isCreate tr
    /\ calls isDelete tr' = calls isDelete tr
    /\ calls isList tr' = calls isList tr
    /\ (calls isUpdate tr' <= calls isUpdate tr + n)%nat
    /\ (calls isGet tr' <= calls isGet tr + (n - 1))%nat.
Proof.
  induction n as [| n IH]; intros attempt llv tr Hatt; cbv zeta.
  - simpl. repeat split; lia.
  - remember (removeLLVFinalizerIfExist_loop w (S n) attempt llv finalizer tr) as r eqn:Hrun.
    cbn [removeLLVFinalizerIfExist_loop] in Hrun.
    destruct (deleteFirst finalizer (Finalizers llv)) as [rest |];
      [| subst r; unfold ret; cbn [fst snd]; repeat split; lia].
    unfold bind at 1 in Hrun. unfold Update at 1 in Hrun.
    destruct (kcUpdate w (calls isUpdate tr) (withFinalizers llv rest)) as [e |];
      [| subst r; unfold ret; cbn [fst snd]; repeat split; count_calls].
    destruct (IsConflict e); cbn [negb] in Hrun;
      [| subst r; unfold ret; cbn [fst snd]; repeat split; count_calls].
    destruct (Z.ltb_spec attempt (KubernetesAPIRequestLimit - 1)) as [Hlt | Hge].
    + unfold bind at 1 in Hrun. unfold Done at 1 in Hrun.
      destruct (ctxDone w _);
        [subst r; unfold ret; cbn [fst snd]; repeat split; count_calls |].
      unfold bind at 1 in Hrun. unfold Sleep at 1 in Hrun.
      unfold bind at 1 in Hrun. unfold GetLVMLogicalVolume at 1 in Hrun.
      unfold bind at 1 in Hrun. unfold Get at 1 in Hrun.
      destruct (kcGet w _ _ _) as [fresh | ge]; unfold ret at 1 in Hrun;
        [| subst r; unfold ret; cbn [fst snd]; repeat split; count_calls].
      destruct n as [| n]; [exfalso; unfold KubernetesAPIRequestLimit in *; lia |].
      match type of Hrun with
      | _ = removeLLVFinalizerIfExist_loop w (S n) ?a ?l finalizer ?t =>
          destruct (IH a l t ltac:(lia)) as (Hc & Hd & Hl & Hu & Hg)
      end.
      rewrite <- Hrun in Hc, Hd, Hl, Hu, Hg.
      rewrite Hc, Hd, Hl. repeat split; try count_calls.
      * etransitivity; [exact Hu |]. count_calls.
      * etransitivity; [exact Hg |]. count_calls.
    + match type of Hrun with
      | _ = removeLLVFinalizerIfExist_loop w n ?a ?l finalizer ?t =>
          destruct (IH a l t ltac:(lia)) as (Hc & Hd & Hl & Hu & Hg)
      end.
      rewrite <- Hrun in Hc, Hd, Hl, Hu, Hg.
      rewrite Hc, Hd, Hl. repeat split; try count_calls.
      * etransitivity; [exact Hu |]. count_calls.
      * etransitivity; [exact Hg |]. count_calls.
Qed.

(** When the loop answers [removed = true], there is no error and the
    record it leaves is the one its last call, an [Update], sent and the
    store accepted. *)
Lemma removeLLVFinalizerIfExist_loop_removed :
  forall (n : nat) (attempt : Z) (llv : LVMLogicalVolume) (tr : Trace) err llv' tr',
    removeLLVFinalizerIfExist_loop w n attempt llv finalizer tr = ((true, err, llv'), tr') ->
    err = None
    /\ exists tr0, tr' = tr0 ++ [EvUpdate llv']
                   /\ kcUpdate w (calls isUpdate tr0) llv' = None.
Proof.
  induction n as [| n IH]; intros attempt llv tr err llv' tr' Hrun.
  - simpl in Hrun. unfold ret in Hrun. discriminate Hrun.
  - cbn [removeLLVFinalizerIfExist_loop] in Hrun.
    destruct (deleteFirst finalizer (Finalizers llv)) as [rest |];
      [| unfold ret in Hrun; discriminate Hrun].
    unfold bind at 1 in Hrun. unfold Update at 1 in Hrun.
    destruct (kcUpdate w (calls isUpdate tr) (withFinalizers llv rest)) as [e |] eqn:Eu.
    + destruct (IsConflict e); cbn [negb] in Hrun;
        [| unfold ret in Hrun; discriminate Hrun].
      destruct (attempt <? KubernetesAPIRequestLimit - 1).
      * unfold bind at 1 in Hrun. unfold Done at 1 in Hrun.
        destruct (ctxDone w _); [unfold ret in Hrun; discriminate Hrun |].
        unfold bind at 1 in Hrun. unfold Sleep at 1 in Hrun.
        unfold bind at 1 in Hrun. unfold GetLVMLogicalVolume at 1 in Hrun.
        unfold bind at 1 in Hrun. unfold Get at 1 in Hrun.
        destruct (kcGet w _ _ _) as [fresh | ge]; unfold ret at 1 in Hrun;
          [| unfold ret in Hrun; discriminate Hrun].
        exact (IH _ _ _ _ _ _ Hrun).
      * exact (IH _ _ _ _ _ _ Hrun).
    + unfold ret in Hrun. injection Hrun as <- <- <-.
      split; [reflexivity |]. exists tr. split; [reflexivity | exact Eu].
Qed.
End LocalFinalizerCalls.

(** X2: whatever the store answers, [removeLLVFinalizerIfExist] issues at
    most three Updates and at most two fetches, and no Create, Delete or
    List. *)
Theorem removeLLVFinalizerIfExist_bounded_calls
    (w : World LVMVolumeGroup) (llv : LVMLogicalVolume) (finalizer : string) (tr : Trace) :
  let tr' := (SdsLocalVolumeCsi.removeLLVFinalizerIfExist w llv finalizer tr).2 in
  (calls isUpdate tr' <= calls isUpdate tr + 3)%nat
  /\ (calls isGet tr' <= calls isGet tr + 2)%nat
  /\ calls isCreate tr' = calls isCreate tr
  /\ calls isDelete tr' = calls isDelete tr
  /\ calls isList tr' = calls isList tr.
Proof.
  destruct (removeLLVFinalizerIfExist_loop_calls w finalizer 3 0 llv tr eq_refl)
    as (Hc & Hd & Hl & Hu & Hg).
  cbv zeta. unfold SdsLocalVolumeCsi.removeLLVFinalizerIfExist.
  change (Z.to_nat SdsLocalVolumeCsi.KubernetesAPIRequestLimit) with 3%nat.
  repeat split; assumption.
Qed.

(** X3: [removeLLVFinalizerIfExist] answers [removed = true] only after
    an [Update] the store accepted: then the error is nil, and the record
    it leaves is the one that last call sent. *)
Theorem removeLLVFinalizerIfExist_removed_means_updated
    (w : World LVMVolumeGroup) (llv : LVMLogicalVolume) (finalizer : string) (tr : Trace)
    (err : option error) (llv' : LVMLogicalVolume) (tr' : Trace) :
  SdsLocalVolumeCsi.removeLLVFinalizerIfExist w llv finalizer tr = ((true, err, llv'), tr') ->
  err = None
  /\ exists tr0, tr' = tr0 ++ [EvUpdate llv']
                 /\ kcUpdate w (calls isUpdate tr0) llv' = None.
Proof.
  intros Hrun.
  exact (removeLLVFinalizerIfExist_loop_removed w finalizer _ _ _ _ _ _ _ Hrun).
Qed.

Lemma removeLLVFinalizerIfExist_removed_means_updated_witness :
  (None : option error) = None
  /\ exists tr0,
       [EvUpdate (SdsLocalVolumeCsi.withFinalizers ownedRecord [])]
       = tr0 ++ [EvUpdate (SdsLocalVolumeCsi.withFinalizers ownedRecord [])]
       /\ kcUpdate (holdingWorld LVMVolumeGroup ownedRecord) (calls isUpdate tr0)
            (SdsLocalVolumeCsi.withFinalizers ownedRecord []) = None.
Proof.
  apply (removeLLVFinalizerIfExist_removed_means_updated
           (holdingWorld LVMVolumeGroup ownedRecord) ownedRecord
           SdsLocalVolumeCsi.SDSLocalVolumeCSIFinalizer []).
  reflexivity.
Defined.

(** X4: an [Update] error that is not a version conflict ends
    [removeLLVFinalizerIfExist] at once: the error is returned wrapped,
    after that one Update and without any fetch or retry. *)
Theorem removeLLVFinalizerIfExist_other_error_is_not_retried
    (w : World LVMVolumeGroup) (llv : LVMLogicalVolume) (finalizer : string) (tr : Trace)
    (rest : list string) (e : error) :
  SdsLocalVolumeCsi.deleteFirst finalizer (Finalizers llv) = Some rest ->
  kcUpdate w (calls isUpdate tr) (SdsLocalVolumeCsi.withFinalizers llv rest) = Some e ->
  IsConflict e = false ->
  SdsLocalVolumeCsi.removeLLVFinalizerIfExist w llv finalizer tr
  = ((false,
      Some (Errorf "[removeLLVFinalizerIfExist] error updating LVMLogicalVolume %s: %w"
                   [ArgS (llv_Name llv)] (Some e)),
      SdsLocalVolumeCsi.withFinalizers llv rest),
     tr ++ [EvUpdate (SdsLocalVolumeCsi.withFinalizers llv rest)]).
Proof.
  intros Hrest He Hce.
  unfold SdsLocalVolumeCsi.removeLLVFinalizerIfExist.
  change (Z.to_nat SdsLocalVolumeCsi.KubernetesAPIRequestLimit) with 3%nat.
  cbn [SdsLocalVolumeCsi.removeLLVFinalizerIfExist_loop]. rewrite Hrest.
  unfold bind at 1. unfold Update at 1. rewrite He, Hce. reflexivity.
Qed.

Lemma removeLLVFinalizerIfExist_other_error_is_not_retried_witness :
  SdsLocalVolumeCsi.removeLLVFinalizerIfExist (readOnlyWorld LVMVolumeGroup ownedRecord)
    ownedRecord SdsLocalVolumeCsi.SDSLocalVolumeCSIFinalizer []
  = ((false,
      Some (Errorf "[removeLLVFinalizerIfExist] error updating LVMLogicalVolume %s: %w"
                   [ArgS (llv_Name ownedRecord)] (Some transient)),
      SdsLocalVolumeCsi.withFinalizers ownedRecord []),
     [] ++ [EvUpdate (SdsLocalVolumeCsi.withFinalizers ownedRecord [])]).
Proof.
  apply (removeLLVFinalizerIfExist_other_error_is_not_retried
           (readOnlyWorld LVMVolumeGroup ownedRecord) ownedRecord
           SdsLocalVolumeCsi.SDSLocalVolumeCSIFinalizer [] [] transient);
    reflexivity.
Defined.

(** X5: after a version conflict on the first [Update],
    [removeLLVFinalizerIfExist] gives up with the context's error, and
    without fetching, when the context is done; and when the record it
    fetches no longer holds the token, it answers (false, nil), leaves the
    fetched record to the caller and issues no second Update. *)
Theorem removeLLVFinalizerIfExist_after_a_conflict
    (w : World LVMVolumeGroup) (llv : LVMLogicalVolume) (finalizer : string) (tr : Trace)
    (rest : list string) (e : error) :
  SdsLocalVolumeCsi.deleteFirst finalizer (Finalizers llv) = Some rest ->
  kcUpdate w (calls isUpdate tr) (SdsLocalVolumeCsi.withFinalizers llv rest) = Some e ->
  IsConflict e = true ->
  (ctxDone w (calls isDone tr) = true ->
   SdsLocalVolumeCsi.removeLLVFinalizerIfExist w llv finalizer tr
   = ((false, Some (ctxErr w), SdsLocalVolumeCsi.withFinalizers llv rest),
      tr ++ [EvUpdate (SdsLocalVolumeCsi.withFinalizers llv rest); EvDone]))
  /\ (forall fresh,
        ctxDone w (calls isDone tr) = false ->
        kcGet w (calls isGet tr) (llv_Name llv) "" = inl fresh ->
        finalizer ∉ Finalizers fresh ->
        SdsLocalVolumeCsi.removeLLVFinalizerIfExist w llv finalizer tr
        = ((false, None, fresh),
           tr ++ [EvUpdate (SdsLocalVolumeCsi.withFinalizers llv rest); EvDone;
                  EvSleep 1000000000; EvGet (llv_Name llv) ""])).
Proof.
  intros Hrest He Hce.
  assert (Hstart :
    SdsLocalVolumeCsi.removeLLVFinalizerIfExist w llv finalizer tr
    = (if ctxDone w (calls isDone tr)
       then ret (false, Some (ctxErr w), SdsLocalVolumeCsi.withFinalizers llv rest)
       else
         bind (Sleep (SdsLocalVolumeCsi.KubernetesAPIRequestTimeout * Second))
           (fun _ =>
              bind (SdsLocalVolumeCsi.GetLVMLogicalVolume w (llv_Name llv) "")
                (fun fresh =>
                   match fresh with
                   | (_, Some getErr) =>
                       ret (false,
                            Some (Errorf "[removeLLVFinalizerIfExist] error getting LVMLogicalVolume %s after update conflict: %w"
                                         [ArgS (llv_Name llv)] (Some getErr)),
                            SdsLocalVolumeCsi.withFinalizers llv rest)
                   | (freshLLV, None) =>
                       SdsLocalVolumeCsi.removeLLVFinalizerIfExist_loop w 2 (0 + 1)
                         freshLLV finalizer
                   end)))
        ((tr ++ [EvUpdate (SdsLocalVolumeCsi.withFinalizers llv rest)]) ++ [EvDone])).
  { unfold SdsLocalVolumeCsi.removeLLVFinalizerIfExist.
    change (Z.to_nat SdsLocalVolumeCsi.KubernetesAPIRequestLimit) with 3%nat.
    cbn [SdsLocalVolumeCsi.removeLLVFinalizerIfExist_loop]. rewrite Hrest.
    unfold bind at 1. unfold Update at 1. rewrite He, Hce. cbn [negb].
    change (0 <? SdsLocalVolumeCsi.KubernetesAPIRequestLimit - 1) with true. cbv iota.
    unfold bind at 1. unfold Done at 1.
    rewrite calls_app. simpl (calls isDone [_]). rewrite Nat.add_0_r.
    destruct (ctxDone w (calls isDone tr)); reflexivity. }
  rewrite Hstart. split.
  - intros Hdone. rewrite Hdone. unfold ret. rewrite <- app_assoc. reflexivity.
  - intros fresh Hdone Hget Habsent. rewrite Hdone.
    unfold bind at 1. unfold Sleep at 1.
    unfold bind at 1. unfold SdsLocalVolumeCsi.GetLVMLogicalVolume at 1.
    unfold bind at 1. unfold Get at 1.
    rewrite !calls_app. simpl (calls isGet [_]). rewrite !Nat.add_0_r.
    rewrite Hget. unfold ret at 1.
    cbn [SdsLocalVolumeCsi.removeLLVFinalizerIfExist_loop].
    rewrite (deleteFirst_absent finalizer (Finalizers fresh) Habsent).
    unfold ret. rewrite <- !app_assoc. reflexivity.
Qed.

Lemma removeLLVFinalizerIfExist_after_a_conflict_witness :
  SdsLocalVolumeCsi.removeLLVFinalizerIfExist (racedWorld true) ownedRecord
    SdsLocalVolumeCsi.SDSLocalVolumeCSIFinalizer []
  = ((false, Some canceled, SdsLocalVolumeCsi.withFinalizers ownedRecord []),
     [EvUpdate (SdsLocalVolumeCsi.withFinalizers ownedRecord []); EvDone])
  /\ SdsLocalVolumeCsi.removeLLVFinalizerIfExist (racedWorld false) ownedRecord
       SdsLocalVolumeCsi.SDSLocalVolumeCSIFinalizer []
     = ((false, None, foreignRecord),
        [EvUpdate (SdsLocalVolumeCsi.withFinalizers ownedRecord []); EvDone;
         EvSleep 1000000000; EvGet "pvc-1" ""]).
Proof.
  split.
  - apply (proj1 (removeLLVFinalizerIfExist_after_a_conflict (racedWorld true) ownedRecord
                    SdsLocalVolumeCsi.SDSLocalVolumeCSIFinalizer [] [] conflict
                    eq_refl eq_refl eq_refl)).
    reflexivity.
  - apply (proj2 (removeLLVFinalizerIfExist_after_a_conflict (racedWorld false) ownedRecord
                    SdsLocalVolumeCsi.SDSLocalVolumeCSIFinalizer [] [] conflict
                    eq_refl eq_refl eq_refl) foreignRecord).
    + reflexivity.
    + reflexivity.
    + intros Hin. apply list_elem_of_In in Hin. simpl in Hin.
      destruct Hin as [Heq | []]. discriminate Heq.
Defined.

(** X6: with the token present, up to two version conflicts, each
    followed by a fetch of a record of the same name that still holds the
    token, and then an accepted [Update]: [removeLLVFinalizerIfExist]
    answers (true, nil), having issued one more Update than there were
    conflicts and one fetch for each conflict. *)
Theorem removeLLVFinalizerIfExist_retries_conflicts
    (w : World LVMVolumeGroup) (llv : LVMLogicalVolume) (finalizer : string) (tr : Trace)
    (k : nat) :
  (k <= 2)%nat ->
  finalizer ∈ Finalizers llv ->
  (forall j x, (j < k)%nat ->
     exists e, kcUpdate w (calls isUpdate tr + j) x = Some e /\ IsConflict e = true) ->
  (forall x, kcUpdate w (calls isUpdate tr + k) x = None) ->
  (forall j, (j < k)%nat -> ctxDone w (calls isDone tr + j) = false) ->
  (forall j, (j < k)%nat ->
     exists fresh, kcGet w (calls isGet tr + j) (llv_Name llv) "" = inl fresh
                   /\ llv_Name fresh = llv_Name llv
                   /\ finalizer ∈ Finalizers fresh) ->
  exists llv' tr',
    SdsLocalVolumeCsi.removeLLVFinalizerIfExist w llv finalizer tr = ((true, None, llv'), tr')
    /\ llv_Name llv' = llv_Name llv
    /\ calls isUpdate tr' = (calls isUpdate tr + k + 1)%nat
    /\ calls isGet tr' = (calls isGet tr + k)%nat.
Proof.
  intros Hk Hin Hconf Hok Hdone Hget.
  destruct (removeLLVFinalizerIfExist_loop_succeeds w finalizer k 2 0 llv tr
              eq_refl Hk Hin Hconf Hok Hdone Hget)
    as (llv' & tr' & Hrun & (src & _ & _ & Hname) & Hu & Hg).
  exists llv', tr'. repeat split; assumption.
Qed.

Lemma removeLLVFinalizerIfExist_retries_conflicts_witness :
  exists llv' tr',
    SdsLocalVolumeCsi.removeLLVFinalizerIfExist twoConflictsWorld ownedRecord
      SdsLocalVolumeCsi.SDSLocalVolumeCSIFinalizer [] = ((true, None, llv'), tr')
    /\ llv_Name llv' = llv_Name ownedRecord
    /\ calls isUpdate tr' = (calls isUpdate [] + 2 + 1)%nat
    /\ calls isGet tr' = (calls isGet [] + 2)%nat.
Proof.
  apply (removeLLVFinalizerIfExist_retries_conflicts twoConflictsWorld ownedRecord
           SdsLocalVolumeCsi.SDSLocalVolumeCSIFinalizer [] 2%nat).
  - lia.
  - apply list_elem_of_here.
  - intros [| [| j]] x Hj; [| | lia]; exists conflict; split; reflexivity.
  - intros x. reflexivity.
  - intros j Hj. reflexivity.
  - intros j Hj. exists ownedRecord. repeat split. apply list_elem_of_here.
Defined.

(** ** Deleting a record in sds-local-volume-csi *)

Lemma absent_finalizer_is_a_no_op_helper
    (w : World LVMVolumeGroup) (llv : LVMLogicalVolume) (finalizer : string) (tr : Trace) :
  finalizer ∉ Finalizers llv ->
  SdsLocalVolumeCsi.removeLLVFinalizerIfExist w llv finalizer tr = ((false, None, llv), tr).
Proof.
  intros Habsent.
  unfold SdsLocalVolumeCsi.removeLLVFinalizerIfExist.
  change (Z.to_nat SdsLocalVolumeCsi.KubernetesAPIRequestLimit) with 3%nat.
  cbn [SdsLocalVolumeCsi.removeLLVFinalizerIfExist_loop].
  rewrite (deleteFirst_absent finalizer (Finalizers llv) Habsent).
  reflexivity.
Qed.

(** X7: when the fetch fails, [DeleteLVMLogicalVolume] returns that error
    wrapped with the name, having issued neither an Update nor a Delete;
    the reason of the store's error, such as NotFound, can still be read
    from the result. *)
Theorem DeleteLVMLogicalVolume_fetch_error
    (w : World LVMVolumeGroup) (name : string) (tr : Trace) (e : error) :
  kcGet w (calls isGet tr) name "" = inr e ->
  SdsLocalVolumeCsi.DeleteLVMLogicalVolume w name tr
  = (Some (Errorf "get LVMLogicalVolume %s: %w" [ArgS name] (Some e)), tr ++ [EvGet name ""])
  /\ ReasonForError (Errorf "get LVMLogicalVolume %s: %w" [ArgS name] (Some e))
     = ReasonForError e.
Proof.
  intros Hget. split; [| reflexivity].
  unfold SdsLocalVolumeCsi.DeleteLVMLogicalVolume.
  unfold bind at 1. unfold SdsLocalVolumeCsi.GetLVMLogicalVolume at 1.
  unfold bind at 1. unfold Get at 1. rewrite Hget. reflexivity.
Qed.

Lemma DeleteLVMLogicalVolume_fetch_error_witness :
  SdsLocalVolumeCsi.DeleteLVMLogicalVolume (emptyWorld LVMVolumeGroup) "pvc-1" []
  = (Some (Errorf "get LVMLogicalVolume %s: %w" [ArgS "pvc-1"] (Some notFound)),
     [] ++ [EvGet "pvc-1" ""])
  /\ ReasonForError (Errorf "get LVMLogicalVolume %s: %w" [ArgS "pvc-1"] (Some notFound))
     = ReasonForError notFound.
Proof.
  apply (DeleteLVMLogicalVolume_fetch_error (emptyWorld LVMVolumeGroup) "pvc-1" [] notFound).
  reflexivity.
Defined.

(** X8: a fetched record that does not hold the finalizer of
    sds-local-volume-csi is deleted as it was fetched, without an Update,
    and the answer of that Delete is the result. *)
Theorem DeleteLVMLogicalVolume_without_finalizer
    (w : World LVMVolumeGroup) (name : string) (tr : Trace) (llv : LVMLogicalVolume) :
  kcGet w (calls isGet tr) name "" = inl llv ->
  SdsLocalVolumeCsi.SDSLocalVolumeCSIFinalizer ∉ Finalizers llv ->
  SdsLocalVolumeCsi.DeleteLVMLogicalVolume w name tr
  = (kcDelete w (calls isDelete tr) llv, tr ++ [EvGet name ""; EvDelete llv]).
Proof.
  intros Hget Habsent.
  unfold SdsLocalVolumeCsi.DeleteLVMLogicalVolume.
  unfold bind at 1. unfold SdsLocalVolumeCsi.GetLVMLogicalVolume at 1.
  unfold bind at 1. unfold Get at 1. rewrite Hget. unfold ret at 1.
  unfold bind at 1.
  rewrite (absent_finalizer_is_a_no_op_helper w llv _ (tr ++ [EvGet name ""]) Habsent).
  unfold Delete. rewrite calls_app. simpl (calls isDelete [_]). rewrite Nat.add_0_r.
  rewrite <- app_assoc. reflexivity.
Qed.

Lemma DeleteLVMLogicalVolume_without_finalizer_witness :
  SdsLocalVolumeCsi.DeleteLVMLogicalVolume (holdingWorld LVMVolumeGroup foreignRecord) "pvc-1" []
  = (kcDelete (holdingWorld LVMVolumeGroup foreignRecord) (calls isDelete []) foreignRecord,
     [] ++ [EvGet "pvc-1" ""; EvDelete foreignRecord]).
Proof.
  apply (DeleteLVMLogicalVolume_without_finalizer
           (holdingWorld LVMVolumeGroup foreignRecord) "pvc-1" [] foreignRecord).
  - reflexivity.
  - intros Hin. apply list_elem_of_In in Hin. simpl in Hin.
    destruct Hin as [Heq | []]. discriminate Heq.
Defined.

(** X9: whatever the store answers, [DeleteLVMLogicalVolume] of
    sds-local-volume-csi either issues no Delete and returns an error that
    wraps its cause (the fetch or the release of the finalizer failed), or
    issues exactly one Delete, as its last call, and returns the answer of
    that Delete as it is. *)
Theorem DeleteLVMLogicalVolume_deletes_last_or_never
    (w : World LVMVolumeGroup) (name : string) (tr : Trace) :
  let run := SdsLocalVolumeCsi.DeleteLVMLogicalVolume w name tr in
  (calls isDelete run.2 = calls isDelete tr
   /\ exists e cause, run.1 = Some e /\ Unwrap e = Some cause)
  \/ (exists llv tr0,
        run.2 = tr0 ++ [EvDelete llv]
        /\ calls isDelete tr0 = calls isDelete tr
        /\ run.1 = kcDelete w (calls isDelete tr) llv).
Proof.
  cbv zeta.
  remember (SdsLocalVolumeCsi.DeleteLVMLogicalVolume w name tr) as run eqn:Hrun.
  unfold SdsLocalVolumeCsi.DeleteLVMLogicalVolume in Hrun.
  unfold bind at 1 in Hrun. unfold SdsLocalVolumeCsi.GetLVMLogicalVolume at 1 in Hrun.
  unfold bind at 1 in Hrun. unfold Get at 1 in Hrun.
  destruct (kcGet w (calls isGet tr) name "") as [llv | e]; unfold ret at 1 in Hrun.
  - unfold bind at 1 in Hrun.
    pose proof (removeLLVFinalizerIfExist_loop_calls w
                  SdsLocalVolumeCsi.SDSLocalVolumeCSIFinalizer 3 0 llv
                  (tr ++ [EvGet name ""]) eq_refl) as (_ & Hd & _).
    unfold SdsLocalVolumeCsi.removeLLVFinalizerIfExist in Hrun.
    change (Z.to_nat SdsLocalVolumeCsi.KubernetesAPIRequestLimit) with 3%nat in Hrun.
    destruct (SdsLocalVolumeCsi.removeLLVFinalizerIfExist_loop w 3 0 llv
                SdsLocalVolumeCsi.SDSLocalVolumeCSIFinalizer (tr ++ [EvGet name ""]))
      as [[[removed err] llv'] tr1].
    cbn [snd] in Hd. rewrite calls_app in Hd. simpl in Hd. rewrite Nat.add_0_r in Hd.
    destruct err as [err |].
    + left. subst run. unfold ret. cbn [fst snd]. split; [exact Hd |].
      eexists _, err. split; reflexivity.
    + right. subst run. unfold Delete. cbn [fst snd].
      exists llv', tr1. rewrite Hd. repeat split; assumption.
  - left. subst run. unfold ret. cbn [fst snd]. split; [count_calls |].
    eexists _, e. split; reflexivity.
Qed.

(** ** What ends the wait for the status, and what does not *)

(** X10: the wait has no bound of its own.  As long as the context is not
    done and the observations are ones on which the loop goes on waiting,
    no number of attempts makes [WaitForStatusUpdate] return, in either
    image: after [fuel] attempts it has fetched [fuel] times and is still
    in its loop. *)
Theorem WaitForStatusUpdate_has_no_bound :
  (forall (w : World LVMVolumeGroup) name namespace llvSize delta (tr : Trace) (fuel : nat),
      waitsThrough w name namespace (stillWaiting llvSize delta) tr fuel ->
      exists tr',
        SdsLocalVolumeCsi.WaitForStatusUpdate w fuel name namespace llvSize delta tr
        = (None, tr')
        /\ calls isGet tr' = (calls isGet tr + fuel)%nat)
  /\ (forall (w : World LvmVolumeGroup) name namespace llvSize delta (tr : Trace) (fuel : nat),
      waitsThrough w name namespace (stillWaitingLvm llvSize delta) tr fuel ->
      exists tr',
        SdsLvmCsi.WaitForStatusUpdate w fuel name namespace llvSize delta tr = (None, tr')
        /\ calls isGet tr' = (calls isGet tr + fuel)%nat).
Proof.
  split.
  - intros w name namespace llvSize delta tr fuel Hwait.
    destruct (WaitForStatusUpdate_loop_waits w name namespace llvSize delta fuel 0 0 false tr Hwait)
      as (c' & se' & tr' & Hrun & _ & _ & Hg).
    exists tr'. unfold SdsLocalVolumeCsi.WaitForStatusUpdate.
    rewrite Nat.add_0_r in Hrun. rewrite Hrun. split; [reflexivity | assumption].
  - intros w name namespace llvSize delta tr fuel Hwait.
    destruct (lvm_WaitForStatusUpdate_loop_waits w name namespace llvSize delta fuel 0 0 false tr Hwait)
      as (c' & se' & tr' & Hrun & _ & _ & Hg).
    exists tr'. unfold SdsLvmCsi.WaitForStatusUpdate.
    rewrite Nat.add_0_r in Hrun. rewrite Hrun. split; [reflexivity | assumption].
Qed.

Lemma WaitForStatusUpdate_has_no_bound_witness :
  (exists tr',
      SdsLocalVolumeCsi.WaitForStatusUpdate (pendingWorld LVMVolumeGroup) 25 "pvc-1" ""
        (NewQuantity (10 * Gi)) (NewQuantity Gi) [] = (None, tr')
      /\ calls isGet tr' = (calls isGet [] + 25)%nat)
  /\ (exists tr',
      SdsLvmCsi.WaitForStatusUpdate (pendingWorld LvmVolumeGroup) 25 "pvc-1" ""
        (NewQuantity (10 * Gi)) (NewQuantity Gi) [] = (None, tr')
      /\ calls isGet tr' = (calls isGet [] + 25)%nat).
Proof.
  split.
  - apply (proj1 WaitForStatusUpdate_has_no_bound (pendingWorld LVMVolumeGroup)).
    intros j Hj. split; [reflexivity | eexists; split; reflexivity].
  - apply (proj2 WaitForStatusUpdate_has_no_bound (pendingWorld LvmVolumeGroup)).
    intros j Hj. split; [reflexivity | eexists; split; reflexivity].
Defined.

(** X11: in sds-local-volume-csi the wait ends on the attempt at which the
    context is found done, with the context's error and without a fetch on
    that attempt; and on the attempt whose fetch fails, with the error of
    the fetch as it is.  The counter returned is the number of the
    attempt. *)
Theorem WaitForStatusUpdate_cancellation_and_fetch_errors
    (w : World LVMVolumeGroup) (name namespace : string) (llvSize delta : Quantity)
    (tr : Trace) (k fuel : nat) :
  waitsThrough w name namespace (stillWaiting llvSize delta) tr k ->
  (ctxDone w (calls isDone tr + k) = true ->
   exists tr',
     SdsLocalVolumeCsi.WaitForStatusUpdate w (S k + fuel) name namespace llvSize delta tr
     = (Some (int_wrap (Z.of_nat (S k)), Some (ctxErr w)), tr')
     /\ calls isGet tr' = (calls isGet tr + k)%nat)
  /\ (forall e,
        ctxDone w (calls isDone tr + k) = false ->
        kcGet w (calls isGet tr + k) name namespace = inr e ->
        exists tr',
          SdsLocalVolumeCsi.WaitForStatusUpdate w (S k + fuel) name namespace llvSize delta tr
          = (Some (int_wrap (Z.of_nat (S k)), Some e), tr')
          /\ calls isGet tr' = (calls isGet tr + S k)%nat).
Proof.
  intros Hwait.
  destruct (WaitForStatusUpdate_loop_waits w name namespace llvSize delta k (S fuel) 0 false tr Hwait)
    as (c' & se' & tr' & Hrun & Hc & Hd & Hg).
  assert (Hcount : int_wrap (c' + 1) = int_wrap (Z.of_nat (S k))).
  { rewrite Hc. f_equal. lia. }
  unfold SdsLocalVolumeCsi.WaitForStatusUpdate.
  replace (S k + fuel)%nat with (k + S fuel)%nat by lia.
  rewrite Hrun. cbn [SdsLocalVolumeCsi.WaitForStatusUpdate_loop].
  unfold bind at 1. unfold Done at 1. rewrite Hd.
  split.
  - intros Hdone. rewrite Hdone. unfold ret. rewrite Hcount.
    eexists. split; [reflexivity |]. rewrite calls_app, Hg. simpl. lia.
  - intros e Hdone Hget.
    unfold bind at 1. unfold Done at 1. rewrite Hd, Hdone.
    unfold bind at 1. unfold Sleep at 1.
    unfold bind at 1. unfold SdsLocalVolumeCsi.GetLVMLogicalVolume at 1.
    unfold bind at 1. unfold Get at 1.
    rewrite !calls_app. simpl (calls isGet [_]). rewrite !Nat.add_0_r, Hg, Hget.
    unfold ret. rewrite Hcount.
    eexists. split; [reflexivity |]. rewrite !calls_app, Hg. simpl. lia.
Qed.

Lemma WaitForStatusUpdate_cancellation_and_fetch_errors_witness :
  (exists tr',
      SdsLocalVolumeCsi.WaitForStatusUpdate
        (cancellingWorld LVMVolumeGroup convergingScript 2) (3 + 0) "pvc-1" ""
        (NewQuantity (10 * Gi)) (NewQuantity Gi) []
      = (Some (int_wrap (Z.of_nat 3), Some canceled), tr')
      /\ calls isGet tr' = (calls isGet [] + 2)%nat)
  /\ (exists tr',
      SdsLocalVolumeCsi.WaitForStatusUpdate
        (scriptedWorld LVMVolumeGroup [observed None (Some pendingStatus)]) (2 + 0) "pvc-1" ""
        (NewQuantity (10 * Gi)) (NewQuantity Gi) []
      = (Some (int_wrap (Z.of_nat 2), Some transient), tr')
      /\ calls isGet tr' = (calls isGet [] + 2)%nat).
Proof.
  split.
  - apply (proj1 (WaitForStatusUpdate_cancellation_and_fetch_errors
                    (cancellingWorld LVMVolumeGroup convergingScript 2) "pvc-1" ""
                    (NewQuantity (10 * Gi)) (NewQuantity Gi) [] 2%nat 0%nat
                    ltac:(intros [| [| j]] Hj; [| | lia];
                          (split; [reflexivity | eexists; split; reflexivity])))).
    reflexivity.
  - apply (proj2 (WaitForStatusUpdate_cancellation_and_fetch_errors
                    (scriptedWorld LVMVolumeGroup [observed None (Some pendingStatus)]) "pvc-1" ""
                    (NewQuantity (10 * Gi)) (NewQuantity Gi) [] 1%nat 0%nat
                    ltac:(intros [| j] Hj; [| lia];
                          (split; [reflexivity | eexists; split; reflexivity]))) transient);
      reflexivity.
Defined.

(** ** The other bounded retries of sds-lvm-csi *)

Section LvmMoreRetries.
Import SdsLvmCsi.
Context (w : World LvmVolumeGroup).

Lemma GetLVMLogicalVolume_loop_runs (name namespace : string) :
  forall (k n : nat) err0 (tr : Trace),
    (forall j, (j < k)%nat -> exists e, kcGet w (calls isGet tr + j) name namespace = inr e) ->
    exists err1,
      GetLVMLogicalVolume_loop w (k + n) name namespace err0 tr
      = GetLVMLogicalVolume_loop w n name namespace err1
          (tr ++ failedAttempts k (EvGet name namespace))
      /\ (k = 0%nat -> err1 = err0)
      /\ (forall k' e, k = S k' -> kcGet w (calls isGet tr + k') name namespace = inr e ->
                       err1 = Some e)
      /\ calls isGet (tr ++ failedAttempts k (EvGet name namespace)) = (calls isGet tr + k)%nat.
Proof.
  induction k as [| k IH]; intros n err0 tr Hfail.
  - exists err0. simpl. rewrite app_nil_r, Nat.add_0_r.
    repeat split; [discriminate].
  - destruct (Hfail 0%nat ltac:(lia)) as (e & He).
    rewrite Nat.add_0_r in He.
    assert (Hc : calls isGet (tr ++ [EvGet name namespace; EvSleep KubernetesApiRequestTimeout])
                 = S (calls isGet tr)) by count_calls.
    destruct (IH n (Some e) (tr ++ [EvGet name namespace; EvSleep KubernetesApiRequestTimeout]))
      as (err1 & Hrun & H0 & HS & Hcalls).
    { intros j Hj. destruct (Hfail (S j) ltac:(lia)) as (e' & He').
      exists e'. rewrite <- He'. f_equal. rewrite Hc. lia. }
    exists err1. repeat split.
    + simpl. unfold bind at 1. unfold Get at 1. rewrite He.
      unfold bind at 1. unfold Sleep at 1.
      rewrite <- app_assoc. simpl. rewrite Hrun.
      rewrite <- app_assoc. reflexivity.
    + discriminate.
    + intros k' e' Hk' He'. injection Hk' as <-.
      destruct k as [| k''].
      * rewrite (H0 eq_refl). rewrite Nat.add_0_r in He'. congruence.
      * apply (HS k'' e' eq_refl). rewrite Hc. rewrite <- He'. f_equal. lia.
    + change (tr ++ failedAttempts (S k) (EvGet name namespace))
        with (tr ++ [EvGet name namespace; EvSleep KubernetesApiRequestTimeout]
                 ++ failedAttempts k (EvGet name namespace)).
      rewrite app_assoc, Hcalls, Hc. lia.
Qed.

Lemma UpdateLVMLogicalVolume_loop_runs (llv : LVMLogicalVolume) :
  forall (k n : nat) err0 (tr : Trace),
    (forall j, (j < k)%nat -> exists e, kcUpdate w (calls isUpdate tr + j) llv = Some e) ->
    exists err1,
      UpdateLVMLogicalVolume_loop w (k + n) llv err0 tr
      = UpdateLVMLogicalVolume_loop w n llv err1 (tr ++ failedAttempts k (EvUpdate llv))
      /\ (k = 0%nat -> err1 = err0)
      /\ (forall k', k = S k' -> err1 = kcUpdate w (calls isUpdate tr + k') llv)
      /\ calls isUpdate (tr ++ failedAttempts k (EvUpdate llv)) = (calls isUpdate tr + k)%nat.
Proof.
  induction k as [| k IH]; intros n err0 tr Hfail.
  - exists err0. simpl. rewrite app_nil_r, Nat.add_0_r.
    repeat split; [discriminate].
  - destruct (Hfail 0%nat ltac:(lia)) as (e & He).
    rewrite Nat.add_0_r in He.
    assert (Hc : calls isUpdate (tr ++ [EvUpdate llv; EvSleep KubernetesApiRequestTimeout])
                 = S (calls isUpdate tr)) by count_calls.
    destruct (IH n (Some e) (tr ++ [EvUpdate llv; EvSleep KubernetesApiRequestTimeout]))
      as (err1 & Hrun & H0 & HS & Hcalls).
    { intros j Hj. destruct (Hfail (S j) ltac:(lia)) as (e' & He').
      exists e'. rewrite <- He'. f_equal. rewrite Hc. lia. }
    exists err1. repeat split.
    + simpl. unfold bind at 1. unfold Update at 1. rewrite He.
      unfold bind at 1. unfold Sleep at 1.
      rewrite <- app_assoc. simpl. rewrite Hrun.
      rewrite <- app_assoc. reflexivity.
    + discriminate.
    + intros k' Hk'. injection Hk' as <-.
      destruct k as [| k''].
      * rewrite (H0 eq_refl), Nat.add_0_r. symmetry. assumption.
      * rewrite (HS k'' eq_refl), Hc. f_equal. lia.
    + change (tr ++ failedAttempts (S k) (EvUpdate llv))
        with (tr ++ [EvUpdate llv; EvSleep KubernetesApiRequestTimeout]
                 ++ failedAttempts k (EvUpdate llv)).
      rewrite app_assoc, Hcalls, Hc. lia.
Qed.

Lemma DeleteLVMLogicalVolume_loop_runs (name : string) (llv : LVMLogicalVolume) :
  forall (k n : nat) (tr : Trace),
    (forall j, (j < k)%nat -> exists e, kcDelete w (calls isDelete tr + j) llv = Some e) ->
    DeleteLVMLogicalVolume_loop w (k + n) name llv None tr
    = DeleteLVMLogicalVolume_loop w n name llv None (tr ++ failedAttempts k (EvDelete llv))
    /\ calls isDelete (tr ++ failedAttempts k (EvDelete llv)) = (calls isDelete tr + k)%nat.
Proof.
  induction k as [| k IH]; intros n tr Hfail.
  - simpl. rewrite app_nil_r, Nat.add_0_r. split; reflexivity.
  - destruct (Hfail 0%nat ltac:(lia)) as (e & He).
    rewrite Nat.add_0_r in He.
    assert (Hc : calls isDelete (tr ++ [EvDelete llv; EvSleep KubernetesApiRequestTimeout])
                 = S (calls isDelete tr)) by count_calls.
    destruct (IH n (tr ++ [EvDelete llv; EvSleep KubernetesApiRequestTimeout]))
      as (Hrun & Hcalls).
    { intros j Hj. destruct (Hfail (S j) ltac:(lia)) as (e' & He').
      exists e'. rewrite <- He'. f_equal. rewrite Hc. lia. }
    split.
    + simpl. unfold bind at 1. unfold Delete at 1. rewrite He.
      unfold bind at 1. unfold Sleep at 1.
      rewrite <- app_assoc. simpl. rewrite Hrun.
      rewrite <- app_assoc. reflexivity.
    + change (tr ++ failedAttempts (S k) (EvDelete llv))
        with (tr ++ [EvDelete llv; EvSleep KubernetesApiRequestTimeout]
                 ++ failedAttempts k (EvDelete llv)).
      rewrite app_assoc, Hcalls, Hc. lia.
Qed.
End LvmMoreRetries.

(** X12: [GetLVMLogicalVolume] of sds-lvm-csi makes up to three attempts,
    each failed one followed by the same sleep.  The first [Get] that
    succeeds gives the record; after three failures the error returned
    wraps the third, with the attempt count, the name and the namespace. *)
Theorem lvm_GetLVMLogicalVolume_retries
    (w : World LvmVolumeGroup) (name namespace : string) (tr : Trace) :
  (forall (k : nat) llv,
      (k < 3)%nat ->
      (forall j, (j < k)%nat -> exists e, kcGet w (calls isGet tr + j) name namespace = inr e) ->
      kcGet w (calls isGet tr + k) name namespace = inl llv ->
      SdsLvmCsi.GetLVMLogicalVolume w name namespace tr
      = (inl llv, (tr ++ failedAttempts k (EvGet name namespace)) ++ [EvGet name namespace]))
  /\ (forall e,
      (forall j, (j < 3)%nat -> exists e, kcGet w (calls isGet tr + j) name namespace = inr e) ->
      kcGet w (calls isGet tr + 2) name namespace = inr e ->
      SdsLvmCsi.GetLVMLogicalVolume w name namespace tr
      = (inr (Errorf "after %d attempts of getting LVMLogicalVolume %s in namespace %s, last error: %w"
                     [ArgD 3; ArgS name; ArgS namespace] (Some e)),
         tr ++ failedAttempts 3 (EvGet name namespace))).
Proof.
  split.
  - intros k llv Hk Hfail Hok.
    destruct (GetLVMLogicalVolume_loop_runs w name namespace k (3 - k) None tr Hfail)
      as (err1 & Hrun & _ & _ & Hcalls).
    replace (k + (3 - k))%nat with 3%nat in Hrun by lia.
    unfold SdsLvmCsi.GetLVMLogicalVolume.
    change (Z.to_nat SdsLvmCsi.KubernetesApiRequestLimit) with 3%nat.
    rewrite Hrun.
    destruct (3 - k)%nat as [| m] eqn:Em; [lia |].
    simpl. unfold bind, Get. rewrite Hcalls, Hok. reflexivity.
  - intros e Hfail Hlast.
    destruct (GetLVMLogicalVolume_loop_runs w name namespace 3 0 None tr Hfail)
      as (err1 & Hrun & _ & HS & _).
    unfold SdsLvmCsi.GetLVMLogicalVolume.
    change (Z.to_nat SdsLvmCsi.KubernetesApiRequestLimit) with (3 + 0)%nat.
    rewrite Hrun, (HS 2%nat e eq_refl Hlast). reflexivity.
Qed.

Lemma lvm_GetLVMLogicalVolume_retries_witness :
  SdsLvmCsi.GetLVMLogicalVolume (scriptedWorld LvmVolumeGroup convergingScript) "pvc-1" "" []
  = (inl (observed None (Some pendingStatus)),
     ([] ++ failedAttempts 0 (EvGet "pvc-1" "")) ++ [EvGet "pvc-1" ""])
  /\ SdsLvmCsi.GetLVMLogicalVolume (emptyWorld LvmVolumeGroup) "pvc-1" "" []
     = (inr (Errorf "after %d attempts of getting LVMLogicalVolume %s in namespace %s, last error: %w"
                    [ArgD 3; ArgS "pvc-1"; ArgS ""] (Some notFound)),
        [] ++ failedAttempts 3 (EvGet "pvc-1" "")).
Proof.
  split.
  - apply (proj1 (lvm_GetLVMLogicalVolume_retries
                    (scriptedWorld LvmVolumeGroup convergingScript) "pvc-1" "" []) 0%nat).
    + lia.
    + intros j Hj. lia.
    + reflexivity.
  - apply (proj2 (lvm_GetLVMLogicalVolume_retries (emptyWorld LvmVolumeGroup) "pvc-1" "" [])).
    + intros j Hj. exists notFound. reflexivity.
    + reflexivity.
Defined.

(** X13: [UpdateLVMLogicalVolume] of sds-lvm-csi returns nil at the first
    [Update] the store accepts among its three attempts; when all three
    fail it returns the third error wrapped with the attempt count and the
    record's name, after three Updates. *)
Theorem lvm_UpdateLVMLogicalVolume_retries
    (w : World LvmVolumeGroup) (llv : LVMLogicalVolume) (tr : Trace) :
  (forall k : nat,
      (k < 3)%nat ->
      (forall j, (j < k)%nat -> exists e, kcUpdate w (calls isUpdate tr + j) llv = Some e) ->
      kcUpdate w (calls isUpdate tr + k) llv = None ->
      SdsLvmCsi.UpdateLVMLogicalVolume w llv tr
      = (None, (tr ++ failedAttempts k (EvUpdate llv)) ++ [EvUpdate llv]))
  /\ ((forall j, (j < 3)%nat -> exists e, kcUpdate w (calls isUpdate tr + j) llv = Some e) ->
      exists e,
        kcUpdate w (calls isUpdate tr + 2) llv = Some e
        /\ SdsLvmCsi.UpdateLVMLogicalVolume w llv tr
           = (Some (Errorf "after %d attempts of updating LVMLogicalVolume %s, last error: %w"
                           [ArgD 3; ArgS (llv_Name llv)] (Some e)),
              tr ++ failedAttempts 3 (EvUpdate llv))).
Proof.
  split.
  - intros k Hk Hfail Hok.
    destruct (UpdateLVMLogicalVolume_loop_runs w llv k (3 - k) None tr Hfail)
      as (err1 & Hrun & _ & _ & Hcalls).
    replace (k + (3 - k))%nat with 3%nat in Hrun by lia.
    unfold SdsLvmCsi.UpdateLVMLogicalVolume.
    change (Z.to_nat SdsLvmCsi.KubernetesApiRequestLimit) with 3%nat.
    rewrite Hrun.
    destruct (3 - k)%nat as [| m] eqn:Em; [lia |].
    simpl. unfold bind, Update. rewrite Hcalls, Hok. reflexivity.
  - intros Hfail.
    destruct (UpdateLVMLogicalVolume_loop_runs w llv 3 0 None tr Hfail)
      as (err1 & Hrun & _ & HS & _).
    destruct (Hfail 2%nat ltac:(lia)) as (e & He).
    exists e. split; [assumption |].
    unfold SdsLvmCsi.UpdateLVMLogicalVolume.
    change (Z.to_nat SdsLvmCsi.KubernetesApiRequestLimit) with (3 + 0)%nat.
    rewrite Hrun, (HS 2%nat eq_refl), He. reflexivity.
Qed.

Lemma lvm_UpdateLVMLogicalVolume_retries_witness :
  SdsLvmCsi.UpdateLVMLogicalVolume (holdingWorld LvmVolumeGroup ownedRecord) ownedRecord []
  = (None, ([] ++ failedAttempts 0 (EvUpdate ownedRecord)) ++ [EvUpdate ownedRecord])
  /\ exists e,
       kcUpdate (failingWorld LvmVolumeGroup) (calls isUpdate [] + 2) ownedRecord = Some e
       /\ SdsLvmCsi.UpdateLVMLogicalVolume (failingWorld LvmVolumeGroup) ownedRecord []
          = (Some (Errorf "after %d attempts of updating LVMLogicalVolume %s, last error: %w"
                          [ArgD 3; ArgS (llv_Name ownedRecord)] (Some e)),
             [] ++ failedAttempts 3 (EvUpdate ownedRecord)).
Proof.
  split.
  - apply (proj1 (lvm_UpdateLVMLogicalVolume_retries
                    (holdingWorld LvmVolumeGroup ownedRecord) ownedRecord []) 0%nat).
    + lia.
    + intros j Hj. lia.
    + reflexivity.
  - apply (proj2 (lvm_UpdateLVMLogicalVolume_retries
                    (failingWorld LvmVolumeGroup) ownedRecord [])).
    intros j Hj. exists transient. reflexivity.
Defined.

(** X14: [DeleteLVMLogicalVolume] of sds-lvm-csi stops at the first
    [Delete] the store accepts among its three attempts and returns nil,
    having issued one Delete more than there were failures, each failure
    followed by the sleep. *)
Theorem lvm_DeleteLVMLogicalVolume_stops_at_first_success
    (w : World LvmVolumeGroup) (name : string) (tr : Trace) (k : nat) :
  let llv := lvmRecord name zeroLVMLogicalVolumeSpec in
  (k < 3)%nat ->
  (forall j, (j < k)%nat -> exists e, kcDelete w (calls isDelete tr + j) llv = Some e) ->
  kcDelete w (calls isDelete tr + k) llv = None ->
  SdsLvmCsi.DeleteLVMLogicalVolume w name tr
  = (None, (tr ++ failedAttempts k (EvDelete llv)) ++ [EvDelete llv]).
Proof.
  intros llv Hk Hfail Hok.
  destruct (DeleteLVMLogicalVolume_loop_runs w name llv k (3 - k) tr Hfail) as (Hrun & Hcalls).
  replace (k + (3 - k))%nat with 3%nat in Hrun by lia.
  unfold SdsLvmCsi.DeleteLVMLogicalVolume. cbv zeta.
  change (Z.to_nat SdsLvmCsi.KubernetesApiRequestLimit) with 3%nat.
  fold (lvmRecord name zeroLVMLogicalVolumeSpec). fold llv.
  rewrite Hrun.
  destruct (3 - k)%nat as [| m] eqn:Em; [lia |].
  simpl. unfold bind, Delete. rewrite Hcalls, Hok. reflexivity.
Qed.

Lemma lvm_DeleteLVMLogicalVolume_stops_at_first_success_witness :
  SdsLvmCsi.DeleteLVMLogicalVolume (flakyDeleteWorld LvmVolumeGroup) "pvc-1" []
  = (None, [EvDelete deletedRecord; EvSleep 1; EvDelete deletedRecord]).
Proof.
  apply (lvm_DeleteLVMLogicalVolume_stops_at_first_success
           (flakyDeleteWorld LvmVolumeGroup) "pvc-1" [] 1%nat).
  - lia.
  - intros j Hj. assert (j = 0%nat) as -> by lia. exists transient. reflexivity.
  - reflexivity.
Defined.

(** ** Errors and panics of the capacity loops *)

Lemma runningMax_below (groups : list (Z * string)) (bound : Z) :
  Forall (fun g => g.1 < bound) groups ->
  forall node0 max0, max0 < bound -> (runningMax groups node0 max0).2 < bound.
Proof.
  induction groups as [| [f n] rest IH]; intros Hall node0 max0 Hmax; simpl.
  - assumption.
  - inversion Hall as [| ? ? Hf Hrest]; subst. simpl in Hf.
    destruct (f >? max0); apply IH; assumption.
Qed.

Lemma runningMax_nonneg (groups : list (Z * string)) :
  forall node0 max0, 0 <= max0 -> 0 <= (runningMax groups node0 max0).2.
Proof.
  induction groups as [| [f n] rest IH]; intros node0 max0 Hmax; simpl.
  - assumption.
  - destruct (Z.gtb_spec f max0); apply IH; lia.
Qed.

(** The loop over a prefix of groups whose free space is computed. *)
Lemma GetNodeWithMaxFreeSpace_loop_app params lvmType free
    (before rest : list LVMVolumeGroup) :
  Forall (computesFree params lvmType free) before ->
  Forall (fun lvg => 0 < free lvg -> Nodes lvg <> []) before ->
  forall node0 prev max0, 0 <= max0 ->
    exists prev1,
      SdsLocalVolumeCsi.GetNodeWithMaxFreeSpace_loop (before ++ rest) params lvmType
        node0 prev max0
      = SdsLocalVolumeCsi.GetNodeWithMaxFreeSpace_loop rest params lvmType
          (runningMax (groupsOf free before) node0 max0).1 prev1
          (runningMax (groupsOf free before) node0 max0).2.
Proof.
  induction before as [| lvg pre IH]; intros Hfree Hnodes node0 prev max0 Hmax; simpl.
  - exists prev. reflexivity.
  - inversion Hfree as [| ? ? Hlvg Hrest]; subst.
    inversion Hnodes as [| ? ? Hn Hnrest]; subst.
    destruct (Hlvg prev) as (q & Eq & Vq). rewrite Eq, Vq.
    destruct (Z.gtb_spec (free lvg) max0) as [Hgt | Hle].
    + destruct (Nodes lvg) as [| node nodes] eqn:En.
      { exfalso. apply Hn; [lia | reflexivity]. }
      unfold hostNode. simpl. apply IH; [assumption | assumption | lia].
    + apply IH; assumption.
Qed.

Lemma GetNodeMaxFreeVGSize_loop_app {Q : Type} (R : SdsLvmCsi.ResourceQuantity Q) free
    (before rest : list LvmVolumeGroup) :
  Forall (parsesFree R free) before ->
  Forall (fun lvg => 0 < free lvg -> lvmvg_Nodes lvg <> []) before ->
  forall node0 max0, 0 <= max0 ->
    SdsLvmCsi.GetNodeMaxFreeVGSize_loop R (before ++ rest) node0 max0
    = SdsLvmCsi.GetNodeMaxFreeVGSize_loop R rest
        (runningMax (lvmGroupsOf free before) node0 max0).1
        (runningMax (lvmGroupsOf free before) node0 max0).2.
Proof.
  induction before as [| lvg pre IH]; intros Hfree Hnodes node0 max0 Hmax; simpl.
  - reflexivity.
  - inversion Hfree as [| ? ? Hlvg Hrest]; subst.
    inversion Hnodes as [| ? ? Hn Hnrest]; subst.
    destruct (GetLVMVolumeGroupFreeSpace_parsesFree R free lvg Hlvg) as (q & Eq & Vq).
    rewrite Eq, Vq.
    destruct (Z.gtb_spec (free lvg) max0) as [Hgt | Hle].
    + destruct (lvmvg_Nodes lvg) as [| node nodes] eqn:En.
      { exfalso. apply Hn; [lia | reflexivity]. }
      unfold hostNode. simpl. apply IH; [assumption | assumption | lia].
    + apply IH; assumption.
Qed.

(** X15: for thin volumes, a group that the storage class parameters do
    not name makes [GetNodeWithMaxFreeSpace] fail with an empty node name,
    whatever room the groups before it have and whatever follows it. *)
Theorem GetNodeWithMaxFreeSpace_thin_group_without_pool_name
    (params : gmap string string) (free : LVMVolumeGroup -> Z)
    (before after : list LVMVolumeGroup) (lvg : LVMVolumeGroup) :
  Forall (computesFree params SdsLocalVolumeCsi.LVMTypeThin free) before ->
  Forall (fun lvg => Nodes lvg <> []) before ->
  params !! lvg_Name lvg = None ->
  exists q,
    SdsLocalVolumeCsi.GetNodeWithMaxFreeSpace (before ++ lvg :: after) params
      SdsLocalVolumeCsi.LVMTypeThin
    = Returns ("", q,
               Some (Errorf "thin pool name for lvg %s not found in storage class parameters: %+v"
                            [ArgS (lvg_Name lvg); ArgParams params] None)).
Proof.
  intros Hfree Hnodes Hmiss.
  unfold SdsLocalVolumeCsi.GetNodeWithMaxFreeSpace.
  destruct (GetNodeWithMaxFreeSpace_loop_app params SdsLocalVolumeCsi.LVMTypeThin free
              before (lvg :: after) Hfree
              ltac:(eapply Forall_impl; [exact Hnodes |]; simpl; intros x Hx _; exact Hx)
              "" zeroQuantity 0 ltac:(lia)) as (prev1 & Hrun).
  rewrite Hrun. exists prev1. simpl.
  unfold SdsLocalVolumeCsi.freeSpaceOf. simpl (String.eqb _ _). rewrite Hmiss. reflexivity.
Qed.

Lemma GetNodeWithMaxFreeSpace_thin_group_without_pool_name_witness :
  exists q,
    SdsLocalVolumeCsi.GetNodeWithMaxFreeSpace
      ([thinGroup "lvg-a" "node1" "pool1" (5 * Gi)]
         ++ thinGroup "lvg-b" "node2" "pool1" (12 * Gi) :: [])
      partialSelector SdsLocalVolumeCsi.LVMTypeThin
    = Returns ("", q,
               Some (Errorf "thin pool name for lvg %s not found in storage class parameters: %+v"
                            [ArgS (lvg_Name (thinGroup "lvg-b" "node2" "pool1" (12 * Gi)));
                             ArgParams partialSelector] None)).
Proof.
  apply (GetNodeWithMaxFreeSpace_thin_group_without_pool_name partialSelector
           (fun _ => 5 * Gi)).
  - repeat constructor. intros prev. eexists. split; reflexivity.
  - repeat constructor. discriminate.
  - reflexivity.
Defined.

(** X16: a group that would become the new maximum and is hosted on no
    node makes [GetNodeWithMaxFreeSpace] panic: the code reads
    [lvg.Status.Nodes[0]] of every group whose free space exceeds the
    running maximum. *)
Theorem GetNodeWithMaxFreeSpace_panics_on_a_group_without_nodes
    (params : gmap string string) (lvmType : string) (free : LVMVolumeGroup -> Z)
    (before after : list LVMVolumeGroup) (lvg : LVMVolumeGroup) :
  Forall (computesFree params lvmType free) before ->
  Forall (fun lvg => Nodes lvg <> []) before ->
  computesFree params lvmType free lvg ->
  Forall (fun lvg' => free lvg' < free lvg) before ->
  0 < free lvg ->
  Nodes lvg = [] ->
  SdsLocalVolumeCsi.GetNodeWithMaxFreeSpace (before ++ lvg :: after) params lvmType = Panics.
Proof.
  intros Hfree Hnodes Hlvg Hless Hpos Hnone.
  unfold SdsLocalVolumeCsi.GetNodeWithMaxFreeSpace.
  destruct (GetNodeWithMaxFreeSpace_loop_app params lvmType free
              before (lvg :: after) Hfree
              ltac:(eapply Forall_impl; [exact Hnodes |]; simpl; intros x Hx _; exact Hx)
              "" zeroQuantity 0 ltac:(lia)) as (prev1 & Hrun).
  rewrite Hrun. simpl.
  destruct (Hlvg prev1) as (q & Eq & Vq). rewrite Eq, Vq.
  assert (Hmax : (runningMax (groupsOf free before) "" 0).2 < free lvg).
  { apply runningMax_below; [| assumption].
    unfold groupsOf. apply Forall_fmap. eapply Forall_impl; [exact Hless |].
    simpl. intros x Hx. exact Hx. }
  destruct (Z.gtb_spec (free lvg) (runningMax (groupsOf free before) "" 0).2); [| lia].
  rewrite Hnone. reflexivity.
Qed.

Lemma GetNodeWithMaxFreeSpace_panics_on_a_group_without_nodes_witness :
  SdsLocalVolumeCsi.GetNodeWithMaxFreeSpace (threeGroups ++ homelessGroup :: []) ∅
    SdsLocalVolumeCsi.LVMTypeThick = Panics.
Proof.
  apply (GetNodeWithMaxFreeSpace_panics_on_a_group_without_nodes ∅
           SdsLocalVolumeCsi.LVMTypeThick (fun lvg => Value (VGFree lvg))).
  - repeat constructor; intros prev; eexists; split; reflexivity.
  - repeat constructor; discriminate.
  - intros prev. eexists. split; reflexivity.
  - repeat constructor.
  - reflexivity.
  - reflexivity.
Defined.

(** X17: when every group is hosted on a node, neither
    [GetNodeWithMaxFreeSpace] nor [SelectLVG] panics, whatever the
    parameters are. *)
Theorem capacity_functions_do_not_panic_on_hosted_groups (lvgs : list LVMVolumeGroup) :
  Forall (fun lvg => Nodes lvg <> []) lvgs ->
  (forall params lvmType,
      SdsLocalVolumeCsi.GetNodeWithMaxFreeSpace lvgs params lvmType <> Panics)
  /\ (forall nodeName, SdsLocalVolumeCsi.SelectLVG lvgs nodeName <> Panics).
Proof.
  intros Hnodes. split.
  - intros params lvmType. unfold SdsLocalVolumeCsi.GetNodeWithMaxFreeSpace.
    generalize "" as node0, zeroQuantity as prev, 0 as max0.
    induction lvgs as [| lvg rest IH]; intros node0 prev max0; simpl.
    + discriminate.
    + inversion Hnodes as [| ? ? Hn Hrest]; subst.
      destruct (SdsLocalVolumeCsi.freeSpaceOf params lvmType prev lvg) as [q | [q e]];
        [| discriminate].
      destruct (Value q >? max0).
      * destruct (Nodes lvg) as [| node nodes]; [contradiction |]. simpl.
        apply IH. assumption.
      * apply IH. assumption.
  - intros nodeName.
    induction lvgs as [| lvg rest IH]; simpl.
    + discriminate.
    + inversion Hnodes as [| ? ? Hn Hrest]; subst.
      destruct (Nodes lvg) as [| node nodes]; [contradiction |]. simpl.
      destruct (String.eqb (node_Name node) nodeName); [discriminate |].
      apply IH. assumption.
Qed.

Lemma capacity_functions_do_not_panic_on_hosted_groups_witness :
  (forall params lvmType,
      SdsLocalVolumeCsi.GetNodeWithMaxFreeSpace threeGroups params lvmType <> Panics)
  /\ (forall nodeName, SdsLocalVolumeCsi.SelectLVG threeGroups nodeName <> Panics).
Proof.
  apply (capacity_functions_do_not_panic_on_hosted_groups threeGroups).
  repeat constructor; discriminate.
Defined.

(** ** Selecting the group of a node *)

Lemma SelectLVG_finds (nodeName : string) :
  forall (lvgs : list LVMVolumeGroup) (i : nat) (lvg : LVMVolumeGroup),
    Forall (fun lvg => Nodes lvg <> []) lvgs ->
    lvgs !! i = Some lvg ->
    hostNode (Nodes lvg) = nodeName ->
    exists (j : nat) lvg',
      (j <= i)%nat
      /\ lvgs !! j = Some lvg'
      /\ hostNode (Nodes lvg') = nodeName
      /\ (forall (j' : nat) g, (j' < j)%nat -> lvgs !! j' = Some g ->
                               hostNode (Nodes g) <> nodeName)
      /\ SdsLocalVolumeCsi.SelectLVG lvgs nodeName = Returns (lvg', None).
Proof.
  induction lvgs as [| g rest IH]; intros i lvg Hnodes Hi Hhost.
  - discriminate Hi.
  - apply Forall_cons in Hnodes as [Hn Hrest].
    simpl. destruct (Nodes g) as [| node nodes] eqn:En; [contradiction |]. simpl.
    destruct (String.eqb_spec (node_Name node) nodeName) as [Heq | Hne].
    + exists 0%nat, g. repeat split.
      * lia.
      * unfold hostNode. rewrite En. simpl. exact Heq.
      * intros j' g' Hj'. lia.
    + destruct i as [| i].
      * simpl in Hi. injection Hi as <-. exfalso. apply Hne.
        unfold hostNode in Hhost. rewrite En in Hhost. exact Hhost.
      * simpl in Hi.
        destruct (IH i lvg Hrest Hi Hhost) as (j & lvg' & Hj & Hlook & Hh & Hbefore & Hsel).
        exists (S j), lvg'. repeat split; try assumption.
        -- lia.
        -- intros [| j'] g' Hj' Hg'; simpl in Hg'.
           ++ injection Hg' as <-. unfold hostNode. rewrite En. simpl. exact Hne.
           ++ apply (Hbefore j'); [lia | assumption].
Qed.

(** X18: [SelectLVG] returns the first group of the list whose first node
    is the node asked for, and, when no group is hosted there, an error
    that names the node together with an empty group. *)
Theorem SelectLVG_first_group_on_the_node
    (before after : list LVMVolumeGroup) (lvg : LVMVolumeGroup) (nodeName : string) :
  Forall (fun g => Nodes g <> [] /\ hostNode (Nodes g) <> nodeName) before ->
  (Nodes lvg <> [] -> hostNode (Nodes lvg) = nodeName ->
   SdsLocalVolumeCsi.SelectLVG (before ++ lvg :: after) nodeName = Returns (lvg, None))
  /\ SdsLocalVolumeCsi.SelectLVG before nodeName
     = Returns (SdsLocalVolumeCsi.zeroLVMVolumeGroup,
                Some (Errorf "[SelectLVG] no LVMVolumeGroup found for node %s"
                             [ArgS nodeName] None)).
Proof.
  induction before as [| g rest IH]; intros Hbefore.
  - split; [| reflexivity].
    intros Hn Hhost. simpl.
    destruct (Nodes lvg) as [| node nodes] eqn:En; [contradiction |]. simpl.
    unfold hostNode in Hhost. simpl in Hhost. rewrite Hhost, String.eqb_refl. reflexivity.
  - inversion Hbefore as [| ? ? [Hn Hne] Hrest]; subst.
    destruct (IH Hrest) as [IHfound IHnone].
    simpl. destruct (Nodes g) as [| node nodes] eqn:En; [contradiction |]. simpl.
    unfold hostNode in Hne. simpl in Hne.
    apply String.eqb_neq in Hne. rewrite Hne.
    split; assumption.
Qed.

Lemma SelectLVG_first_group_on_the_node_witness :
  SdsLocalVolumeCsi.SelectLVG
    ([group "lvg-a" "node-a" (5 * Gi)] ++ group "lvg-b" "node-b" (12 * Gi)
       :: [group "lvg-c" "node-c" (12 * Gi)]) "node-b"
  = Returns (group "lvg-b" "node-b" (12 * Gi), None)
  /\ SdsLocalVolumeCsi.SelectLVG [group "lvg-a" "node-a" (5 * Gi)] "node-b"
     = Returns (SdsLocalVolumeCsi.zeroLVMVolumeGroup,
                Some (Errorf "[SelectLVG] no LVMVolumeGroup found for node %s"
                             [ArgS "node-b"] None)).
Proof.
  destruct (SelectLVG_first_group_on_the_node
              [group "lvg-a" "node-a" (5 * Gi)] [group "lvg-c" "node-c" (12 * Gi)]
              (group "lvg-b" "node-b" (12 * Gi)) "node-b") as [Hfound Hnone].
  - repeat constructor; discriminate.
  - split; [apply Hfound; [discriminate | reflexivity] | exact Hnone].
Defined.

(** X19: the two steps of a placement compose.  Among groups whose free
    space is computed, which are all hosted and one of which has room,
    the node [GetNodeWithMaxFreeSpace] returns is one on which [SelectLVG]
    finds a group, at or before the group with the most free space; when
    the groups are hosted on pairwise different nodes, [SelectLVG] returns
    that very group. *)
Theorem SelectLVG_after_GetNodeWithMaxFreeSpace
    (lvgs : list LVMVolumeGroup) (params : gmap string string) (lvmType : string)
    (free : LVMVolumeGroup -> Z) :
  Forall (computesFree params lvmType free) lvgs ->
  Forall (fun lvg => Nodes lvg <> []) lvgs ->
  Exists (fun lvg => 0 < free lvg) lvgs ->
  exists (i : nat) lvg,
    firstMaxAt free lvgs i lvg
    /\ SdsLocalVolumeCsi.GetNodeWithMaxFreeSpace lvgs params lvmType
       = Returns (hostNode (Nodes lvg), NewQuantity (free lvg), None)
    /\ (exists (j : nat) lvg',
          (j <= i)%nat /\ lvgs !! j = Some lvg'
          /\ hostNode (Nodes lvg') = hostNode (Nodes lvg)
          /\ SdsLocalVolumeCsi.SelectLVG lvgs (hostNode (Nodes lvg)) = Returns (lvg', None))
    /\ (NoDup (map (fun lvg => hostNode (Nodes lvg)) lvgs) ->
        SdsLocalVolumeCsi.SelectLVG lvgs (hostNode (Nodes lvg)) = Returns (lvg, None)).
Proof.
  intros Hfree Hnodes Hpos.
  destruct (runningMax_first_max free (fun lvg => hostNode (Nodes lvg)) lvgs Hpos)
    as (i & lvg & Hfirst & Hr).
  exists i, lvg. split; [assumption |].
  destruct Hfirst as (Hi & _).
  destruct (SelectLVG_finds (hostNode (Nodes lvg)) lvgs i lvg Hnodes Hi eq_refl)
    as (j & lvg' & Hj & Hlook & Hh & _ & Hsel).
  split; [| split].
  - unfold SdsLocalVolumeCsi.GetNodeWithMaxFreeSpace.
    rewrite (GetNodeWithMaxFreeSpace_loop_runningMax params lvmType free lvgs);
      [| assumption | | lia].
    + unfold groupsOf. rewrite Hr. reflexivity.
    + eapply Forall_impl; [exact Hnodes |]. simpl. intros x Hx _. exact Hx.
  - exists j, lvg'. repeat split; assumption.
  - intros Hdup. rewrite Hsel.
    assert (Hij : j = i).
    { apply (NoDup_lookup (map (fun lvg => hostNode (Nodes lvg)) lvgs) j i
               (hostNode (Nodes lvg)) Hdup).
      - rewrite list_lookup_fmap, Hlook. simpl. f_equal. exact Hh.
      - rewrite list_lookup_fmap, Hi. reflexivity. }
    subst j. rewrite Hi in Hlook. injection Hlook as <-. reflexivity.
Qed.

Lemma SelectLVG_after_GetNodeWithMaxFreeSpace_witness :
  exists (i : nat) lvg,
    firstMaxAt (fun lvg => Value (VGFree lvg)) threeGroups i lvg
    /\ SdsLocalVolumeCsi.GetNodeWithMaxFreeSpace threeGroups ∅ SdsLocalVolumeCsi.LVMTypeThick
       = Returns (hostNode (Nodes lvg), NewQuantity (Value (VGFree lvg)), None)
    /\ (exists (j : nat) lvg',
          (j <= i)%nat /\ threeGroups !! j = Some lvg'
          /\ hostNode (Nodes lvg') = hostNode (Nodes lvg)
          /\ SdsLocalVolumeCsi.SelectLVG threeGroups (hostNode (Nodes lvg)) = Returns (lvg', None))
    /\ (NoDup (map (fun lvg => hostNode (Nodes lvg)) threeGroups) ->
        SdsLocalVolumeCsi.SelectLVG threeGroups (hostNode (Nodes lvg)) = Returns (lvg, None)).
Proof.
  apply (SelectLVG_after_GetNodeWithMaxFreeSpace threeGroups ∅ SdsLocalVolumeCsi.LVMTypeThick
           (fun lvg => Value (VGFree lvg))).
  - repeat constructor; intros prev; eexists; split; reflexivity.
  - repeat constructor; discriminate.
  - apply Exists_cons_hd. reflexivity.
Defined.

(** ** Thin pools and the spec of a volume *)

(** X20: [GetLVMThinPoolFreeSpace] answers the available space of the
    first thin pool of the group that bears the name, and an error that
    names the pool, with a zero quantity, when no pool bears it. *)
Theorem GetLVMThinPoolFreeSpace_first_pool_of_that_name
    (lvg : LVMVolumeGroup) (thinPoolName : string)
    (before : list LVMVolumeGroupThinPoolStatus) :
  Forall (fun p => tp_Name p <> thinPoolName) before ->
  (forall tp after,
      ThinPools lvg = before ++ tp :: after ->
      tp_Name tp = thinPoolName ->
      SdsLocalVolumeCsi.GetLVMThinPoolFreeSpace lvg thinPoolName = (AvailableSpace tp, None))
  /\ (ThinPools lvg = before ->
      SdsLocalVolumeCsi.GetLVMThinPoolFreeSpace lvg thinPoolName
      = (zeroQuantity,
         Some (Errorf "[GetLVMThinPoolFreeSpace] thin pool %s not found in lvg %+v"
                      [ArgS thinPoolName; ArgLVG lvg] None))).
Proof.
  intros Hbefore.
  assert (Hfind : forall rest,
    List.find (fun thinPool => String.eqb (tp_Name thinPool) thinPoolName) (before ++ rest)
    = List.find (fun thinPool => String.eqb (tp_Name thinPool) thinPoolName) rest).
  { intros rest. induction Hbefore as [| p pre Hp Hpre IH]; simpl; [reflexivity |].
    apply String.eqb_neq in Hp. rewrite Hp. exact IH. }
  split.
  - intros tp after Hpools Hname.
    unfold SdsLocalVolumeCsi.GetLVMThinPoolFreeSpace.
    rewrite Hpools, Hfind. simpl. rewrite Hname, String.eqb_refl. reflexivity.
  - intros Hpools.
    unfold SdsLocalVolumeCsi.GetLVMThinPoolFreeSpace.
    rewrite Hpools. rewrite <- (app_nil_r before), Hfind. reflexivity.
Qed.

Lemma GetLVMThinPoolFreeSpace_first_pool_of_that_name_witness :
  SdsLocalVolumeCsi.GetLVMThinPoolFreeSpace twoPoolGroup "pool1" = (NewQuantity (5 * Gi), None).
Proof.
  apply (proj1 (GetLVMThinPoolFreeSpace_first_pool_of_that_name twoPoolGroup "pool1"
                  [ {| tp_Name := "pool0"; AvailableSpace := NewQuantity Gi |} ]
                  ltac:(repeat constructor; discriminate))
           {| tp_Name := "pool1"; AvailableSpace := NewQuantity (5 * Gi) |}
           [ {| tp_Name := "pool1"; AvailableSpace := NewQuantity (7 * Gi) |} ]);
    reflexivity.
Defined.

(** X21: the spec [GetLLVSpec] builds from the contiguity [IsContiguous]
    reads off the request never carries both a thin and a thick part.  The
    thin part is there exactly for the Thin type, with the pool the
    parameters give for the group (an empty name when they give none); the
    thick part is there exactly for the Thick type with the contiguous
    parameter equal to "true", and then says contiguous. *)
Theorem GetLLVSpec_thin_and_thick_parts
    (Quantity_String : Quantity -> string) (key lvName : string)
    (selectedLVG : LVMVolumeGroup) (params Parameters : gmap string string)
    (lvmType : string) (llvSize : Quantity) :
  let spec := SdsLocalVolumeCsi.GetLLVSpec Quantity_String lvName selectedLVG params lvmType
                llvSize (SdsLocalVolumeCsi.IsContiguous key Parameters lvmType) in
  (Thin spec = if String.eqb lvmType "Thin"
               then Some {| PoolName := default "" (params !! lvg_Name selectedLVG) |}
               else None)
  /\ (Thick spec <> None <-> lvmType = "Thick" /\ Parameters !! key = Some "true")
  /\ (forall t, Thick spec = Some t -> Contiguous t = Some true)
  /\ (Thin spec = None \/ Thick spec = None)
  /\ LVMVolumeGroupName spec = lvg_Name selectedLVG
  /\ Type_ spec = lvmType.
Proof.
  cbv zeta. unfold SdsLocalVolumeCsi.GetLLVSpec, SdsLocalVolumeCsi.IsContiguous.
  unfold SdsLocalVolumeCsi.LVMTypeThin, SdsLocalVolumeCsi.LVMTypeThick. simpl.
  destruct (String.eqb_spec lvmType "Thin") as [-> | Hthin].
  - simpl. intuition congruence.
  - destruct (String.eqb_spec lvmType "Thick") as [-> | Hthick].
    + destruct (Parameters !! key) as [val |] eqn:Ekey.
      * destruct (String.eqb_spec val "true") as [-> | Hval]; simpl.
        -- repeat split; try congruence; [intros t Ht; injection Ht as <-; reflexivity | left; reflexivity].
        -- intuition congruence.
      * simpl. intuition congruence.
    + simpl. intuition congruence.
Qed.

Lemma GetLLVSpec_thin_and_thick_parts_witness :
  Thick (SdsLocalVolumeCsi.GetLLVSpec (fun _ => "10Gi") "pvc-1" (group "lvg-b" "node-b" (12 * Gi))
           ∅ "Thick" (NewQuantity (10 * Gi))
           (SdsLocalVolumeCsi.IsContiguous "contiguous" (<["contiguous" := "true"]> ∅) "Thick"))
  = Some {| Contiguous := Some true |}.
Proof.
  destruct (GetLLVSpec_thin_and_thick_parts (fun _ => "10Gi") "contiguous" "pvc-1"
              (group "lvg-b" "node-b" (12 * Gi)) ∅ (<["contiguous" := "true"]> ∅) "Thick"
              (NewQuantity (10 * Gi))) as (_ & Hthick & Hcontiguous & _).
  destruct (Thick _) as [[c] |] eqn:Et.
  - pose proof (Hcontiguous _ eq_refl) as Hc. simpl in Hc. subst c. reflexivity.
  - exfalso. apply (proj2 Hthick); [split; reflexivity | reflexivity].
Defined.

(** ** The storage class parameters *)

Lemma parametersMap_other (name : string) :
  forall (entries : list (string * string)) (m : gmap string string),
    name ∉ entries.*1 -> SdsLocalVolumeCsi.parametersMap entries m !! name = m !! name.
Proof.
  induction entries as [| [n p] rest IH]; intros m Habsent; simpl.
  - reflexivity.
  - rewrite IH.
    + apply lookup_insert_ne. intros ->. apply Habsent. simpl. apply list_elem_of_here.
    + intros Hin. apply Habsent. simpl. apply list_elem_of_further. assumption.
Qed.

(** X22: the map [GetStorageClassLVGsAndParameters] builds from the
    decoded entries gives, for a group name, the pool of the last entry
    that names it, and nothing for a name no entry has. *)
Theorem parametersMap_last_entry_wins
    (before after : list (string * string)) (name poolName : string) :
  name ∉ after.*1 ->
  SdsLocalVolumeCsi.parametersMap (before ++ (name, poolName) :: after) ∅ !! name = Some poolName
  /\ (forall other, other ∉ (before ++ (name, poolName) :: after).*1 ->
                    SdsLocalVolumeCsi.parametersMap (before ++ (name, poolName) :: after) ∅ !! other = None).
Proof.
  intros Hafter. split.
  - generalize (∅ : gmap string string) as m.
    induction before as [| [n p] rest IH]; intros m; simpl.
    + rewrite (parametersMap_other name after _ Hafter). apply lookup_insert_eq.
    + apply IH.
  - intros other Hother. rewrite (parametersMap_other other _ _ Hother). apply lookup_empty.
Qed.

Lemma parametersMap_last_entry_wins_witness :
  SdsLocalVolumeCsi.parametersMap ([("lvg-a", "pool0")] ++ ("lvg-a", "pool1") :: [("lvg-b", "pool1")]) ∅
    !! "lvg-a" = Some "pool1".
Proof.
  apply (proj1 (parametersMap_last_entry_wins [("lvg-a", "pool0")] [("lvg-b", "pool1")]
                  "lvg-a" "pool1"
                  ltac:(intros Hin; apply list_elem_of_In in Hin; simpl in Hin;
                        destruct Hin as [Heq | []]; discriminate Heq))).
Defined.

Section StorageClassGroups.
Import SdsLocalVolumeCsi.
Context (m : gmap string string).

Lemma storageClassLVGs_loop_filter :
  forall (items acc : list LVMVolumeGroup),
    Forall (fun lvg => is_Some (m !! lvg_Name lvg) -> Nodes lvg <> []) items ->
    storageClassLVGs_loop items m acc
    = Returns (acc ++ filter (fun lvg => is_Some (m !! lvg_Name lvg)) items).
Proof.
  induction items as [| lvg rest IH]; intros acc Hhosted; simpl.
  - rewrite app_nil_r. reflexivity.
  - apply Forall_cons in Hhosted as [Hn Hrest].
    destruct (m !! lvg_Name lvg) as [pool |] eqn:Em.
    + rewrite filter_cons_True by (rewrite Em; eauto).
      destruct (Nodes lvg) as [| node nodes] eqn:En.
      { exfalso. apply Hn; [eauto | reflexivity]. }
      simpl. rewrite IH by assumption. rewrite <- app_assoc. reflexivity.
    + rewrite filter_cons_False by (rewrite Em; intros [x Hx]; discriminate Hx).
      apply IH. assumption.
Qed.

Lemma storageClassLVGs_loop_panics :
  forall (items acc : list LVMVolumeGroup),
    Exists (fun lvg => is_Some (m !! lvg_Name lvg) /\ Nodes lvg = []) items ->
    storageClassLVGs_loop items m acc = Panics.
Proof.
  induction items as [| lvg rest IH]; intros acc Hex.
  - inversion Hex.
  - simpl. apply Exists_cons in Hex as [[[pool Hpool] Hnone] | Hex].
    + rewrite Hpool, Hnone. reflexivity.
    + destruct (m !! lvg_Name lvg); [| apply IH; assumption].
      destruct (Nodes lvg !! 0%nat); [apply IH; assumption | reflexivity].
Qed.

(** What the loop answers keeps the groups it started with and adds
    groups that the map names and that are hosted. *)
Lemma storageClassLVGs_loop_named_and_hosted :
  forall (items acc lvgs : list LVMVolumeGroup),
    storageClassLVGs_loop items m acc = Returns lvgs ->
    Forall (fun lvg => is_Some (m !! lvg_Name lvg) /\ Nodes lvg <> []) acc ->
    Forall (fun lvg => is_Some (m !! lvg_Name lvg) /\ Nodes lvg <> []) lvgs.
Proof.
  induction items as [| lvg rest IH]; intros acc lvgs Hrun Hacc; simpl in Hrun.
  - injection Hrun as <-. assumption.
  - destruct (m !! lvg_Name lvg) as [pool |] eqn:Em; [| exact (IH _ _ Hrun Hacc)].
    destruct (Nodes lvg) as [| node nodes] eqn:En; [discriminate Hrun |].
    simpl in Hrun. apply (IH _ _ Hrun).
    apply Forall_app. split; [assumption |].
    repeat constructor; [rewrite Em; eauto | rewrite En; discriminate].
Qed.

(** For thin volumes, over groups the map names, the only error of the
    capacity loop is that of a pool the group does not have. *)
Lemma GetNodeWithMaxFreeSpace_loop_named :
  forall (lvgs : list LVMVolumeGroup) node0 prev max0 n q e,
    Forall (fun lvg => is_Some (m !! lvg_Name lvg) /\ Nodes lvg <> []) lvgs ->
    GetNodeWithMaxFreeSpace_loop lvgs m LVMTypeThin node0 prev max0 = Returns (n, q, Some e) ->
    exists pool name cause,
      e = Errorf "get free space for thin pool %s in lvg %s: %w"
                 [ArgS pool; ArgS name] (Some cause).
Proof.
  induction lvgs as [| lvg rest IH]; intros node0 prev max0 n q e Hall Hrun; simpl in Hrun.
  - discriminate Hrun.
  - apply Forall_cons in Hall as [[[pool Hpool] Hn] Hrest].
    unfold freeSpaceOf in Hrun. simpl (String.eqb _ _) in Hrun. rewrite Hpool in Hrun.
    destruct (GetLVMThinPoolFreeSpace lvg pool) as [fs [cause |]].
    + injection Hrun as <- <- <-. eexists _, _, _. reflexivity.
    + destruct (Value fs >? max0).
      * destruct (Nodes lvg) as [| node nodes]; [contradiction |]. simpl in Hrun.
        exact (IH _ _ _ _ _ _ Hrest Hrun).
      * exact (IH _ _ _ _ _ _ Hrest Hrun).
Qed.

Lemma GetNodeWithMaxFreeSpace_loop_hosted :
  forall (lvgs : list LVMVolumeGroup) params lvmType node0 prev max0,
    Forall (fun lvg => Nodes lvg <> []) lvgs ->
    GetNodeWithMaxFreeSpace_loop lvgs params lvmType node0 prev max0 <> Panics.
Proof.
  induction lvgs as [| lvg rest IH]; intros params lvmType node0 prev max0 Hnodes; simpl.
  - discriminate.
  - apply Forall_cons in Hnodes as [Hn Hrest].
    destruct (freeSpaceOf params lvmType prev lvg) as [q | [q e]]; [| discriminate].
    destruct (Value q >? max0).
    + destruct (Nodes lvg) as [| node nodes]; [contradiction |]. simpl.
      apply IH. assumption.
    + apply IH. assumption.
Qed.

Lemma SelectLVG_hosted :
  forall (lvgs : list LVMVolumeGroup) nodeName,
    Forall (fun lvg => Nodes lvg <> []) lvgs -> SelectLVG lvgs nodeName <> Panics.
Proof.
  induction lvgs as [| lvg rest IH]; intros nodeName Hnodes; simpl.
  - discriminate.
  - apply Forall_cons in Hnodes as [Hn Hrest].
    destruct (Nodes lvg) as [| node nodes]; [contradiction |]. simpl.
    destruct (String.eqb (node_Name node) nodeName); [discriminate |].
    apply IH. assumption.
Qed.
End StorageClassGroups.

(** X23: [GetStorageClassLVGsAndParameters].  A text that does not decode
    is answered with the decoder's error before any call to the store, and
    a failed [List] with its error as it is.  Otherwise the function
    answers the map of the decoded entries and, provided every listed
    group the map names is hosted on a node, the listed groups the map
    names, in the order listed; a listed group the map names that has no
    node makes it panic. *)
Theorem GetStorageClassLVGsAndParameters_selects_the_named_groups
    (w : World LVMVolumeGroup) (yaml_Unmarshal : string -> list (string * string) + error)
    (text : string) (tr : Trace) :
  (forall e, yaml_Unmarshal text = inr e ->
             SdsLocalVolumeCsi.GetStorageClassLVGsAndParameters w yaml_Unmarshal text tr
             = (Returns ([], ∅, Some e), tr))
  /\ (forall entries e,
        yaml_Unmarshal text = inl entries ->
        kcList w (calls isList tr) = inr e ->
        SdsLocalVolumeCsi.GetStorageClassLVGsAndParameters w yaml_Unmarshal text tr
        = (Returns ([], ∅, Some e), tr ++ [EvList]))
  /\ (forall entries items,
        yaml_Unmarshal text = inl entries ->
        kcList w (calls isList tr) = inl items ->
        let m := SdsLocalVolumeCsi.parametersMap entries ∅ in
        (Forall (fun lvg => is_Some (m !! lvg_Name lvg) -> Nodes lvg <> []) items ->
         SdsLocalVolumeCsi.GetStorageClassLVGsAndParameters w yaml_Unmarshal text tr
         = (Returns (filter (fun lvg => is_Some (m !! lvg_Name lvg)) items, m, None),
            tr ++ [EvList]))
        /\ (Exists (fun lvg => is_Some (m !! lvg_Name lvg) /\ Nodes lvg = []) items ->
            SdsLocalVolumeCsi.GetStorageClassLVGsAndParameters w yaml_Unmarshal text tr
            = (Panics, tr ++ [EvList]))).
Proof.
  unfold SdsLocalVolumeCsi.GetStorageClassLVGsAndParameters.
  split; [| split].
  - intros e Hy. rewrite Hy. reflexivity.
  - intros entries e Hy Hl. rewrite Hy.
    unfold bind, SdsLocalVolumeCsi.GetLVGList, bind, List_. rewrite Hl. reflexivity.
  - intros entries items Hy Hl. cbv zeta. rewrite Hy.
    set (m := SdsLocalVolumeCsi.parametersMap entries ∅).
    unfold bind, SdsLocalVolumeCsi.GetLVGList, bind, List_. rewrite Hl.
    unfold ret. split.
    + intros Hhosted. rewrite (storageClassLVGs_loop_filter m items [] Hhosted). reflexivity.
    + intros Hex. rewrite (storageClassLVGs_loop_panics m items [] Hex). reflexivity.
Qed.

Lemma GetStorageClassLVGsAndParameters_selects_the_named_groups_witness :
  SdsLocalVolumeCsi.GetStorageClassLVGsAndParameters thinWorld sampleYaml sampleYamlText []
  = (Returns (filter (fun lvg =>
                        is_Some (SdsLocalVolumeCsi.parametersMap
                                   [("lvg-a", "pool1"); ("lvg-b", "pool1")] ∅
                                 !! lvg_Name lvg))
                (thinGroups ++ [homelessGroup]),
              SdsLocalVolumeCsi.parametersMap [("lvg-a", "pool1"); ("lvg-b", "pool1")] ∅,
              None),
     [] ++ [EvList])
  /\ SdsLocalVolumeCsi.GetStorageClassLVGsAndParameters thinWorld sampleYaml "lvg-a" []
     = (Returns ([], ∅, Some (ParseError "yaml: unmarshal errors")), []).
Proof.
  split.
  - apply (proj1 (proj2 (proj2 (GetStorageClassLVGsAndParameters_selects_the_named_groups
                                   thinWorld sampleYaml sampleYamlText []))
                    [("lvg-a", "pool1"); ("lvg-b", "pool1")] (thinGroups ++ [homelessGroup])
                    eq_refl eq_refl)).
    repeat constructor.
    + discriminate.
    + discriminate.
    + intros [x Hx]. vm_compute in Hx. discriminate Hx.
  - apply (proj1 (GetStorageClassLVGsAndParameters_selects_the_named_groups
                    thinWorld sampleYaml "lvg-a" [])).
    reflexivity.
Defined.

(** X24: the groups and the map that [GetStorageClassLVGsAndParameters]
    answers are safe to place on: over them neither
    [GetNodeWithMaxFreeSpace] nor [SelectLVG] panics, and for thin volumes
    [GetNodeWithMaxFreeSpace] does not fail for want of a pool name: its
    only error is that of a thin pool the group does not have. *)
Theorem placement_over_the_groups_of_the_storage_class
    (w : World LVMVolumeGroup) (yaml_Unmarshal : string -> list (string * string) + error)
    (text : string) (tr tr' : Trace) (lvgs : list LVMVolumeGroup) (m : gmap string string)
    (err : option error) :
  SdsLocalVolumeCsi.GetStorageClassLVGsAndParameters w yaml_Unmarshal text tr
  = (Returns (lvgs, m, err), tr') ->
  (forall lvmType, SdsLocalVolumeCsi.GetNodeWithMaxFreeSpace lvgs m lvmType <> Panics)
  /\ (forall nodeName, SdsLocalVolumeCsi.SelectLVG lvgs nodeName <> Panics)
  /\ (forall n q e,
        SdsLocalVolumeCsi.GetNodeWithMaxFreeSpace lvgs m SdsLocalVolumeCsi.LVMTypeThin
        = Returns (n, q, Some e) ->
        exists pool name cause,
          e = Errorf "get free space for thin pool %s in lvg %s: %w"
                     [ArgS pool; ArgS name] (Some cause)).
Proof.
  intros Hrun.
  assert (Hall : Forall (fun lvg => is_Some (m !! lvg_Name lvg) /\ Nodes lvg <> []) lvgs).
  { unfold SdsLocalVolumeCsi.GetStorageClassLVGsAndParameters in Hrun.
    destruct (yaml_Unmarshal text) as [entries | e].
    - unfold bind, SdsLocalVolumeCsi.GetLVGList, bind, List_ in Hrun.
      destruct (kcList w (calls isList tr)) as [items | e]; unfold ret in Hrun.
      + destruct (SdsLocalVolumeCsi.storageClassLVGs_loop items
                    (SdsLocalVolumeCsi.parametersMap entries ∅) []) as [l |] eqn:El;
          [| discriminate Hrun].
        injection Hrun as <- <- <- <-.
        apply (storageClassLVGs_loop_named_and_hosted _ items [] l El). constructor.
      + injection Hrun as <- <- <- <-. constructor.
    - unfold ret in Hrun. injection Hrun as <- <- <- <-. constructor. }
  assert (Hnodes : Forall (fun lvg => Nodes lvg <> []) lvgs).
  { eapply Forall_impl; [exact Hall |]. simpl. intros x [_ Hx]. exact Hx. }
  split; [| split].
  - intros lvmType. apply GetNodeWithMaxFreeSpace_loop_hosted. assumption.
  - intros nodeName. apply SelectLVG_hosted. assumption.
  - intros n q e Hret.
    exact (GetNodeWithMaxFreeSpace_loop_named m lvgs _ _ _ n q e Hall Hret).
Qed.

Lemma placement_over_the_groups_of_the_storage_class_witness :
  (forall lvmType,
      SdsLocalVolumeCsi.GetNodeWithMaxFreeSpace thinGroups
        (SdsLocalVolumeCsi.parametersMap [("lvg-a", "pool1"); ("lvg-b", "pool1")] ∅) lvmType
      <> Panics)
  /\ (forall nodeName, SdsLocalVolumeCsi.SelectLVG thinGroups nodeName <> Panics)
  /\ (forall n q e,
        SdsLocalVolumeCsi.GetNodeWithMaxFreeSpace thinGroups
          (SdsLocalVolumeCsi.parametersMap [("lvg-a", "pool1"); ("lvg-b", "pool1")] ∅)
          SdsLocalVolumeCsi.LVMTypeThin
        = Returns (n, q, Some e) ->
        exists pool name cause,
          e = Errorf "get free space for thin pool %s in lvg %s: %w"
                     [ArgS pool; ArgS name] (Some cause)).
Proof.
  apply (placement_over_the_groups_of_the_storage_class thinWorld sampleYaml sampleYamlText
           [] [EvList] thinGroups
           (SdsLocalVolumeCsi.parametersMap [("lvg-a", "pool1"); ("lvg-b", "pool1")] ∅) None).
  vm_compute. reflexivity.
Defined.

(** ** Looking up the group of a node in the store *)

Section LocalGroupParams.
Import SdsLocalVolumeCsi.
Context (lvmVG : gmap string string) (nodeName : string).

Lemma GetLVMVolumeGroupParams_loop_passes (before rest : list LVMVolumeGroup) lvmType :
  Forall (passedOver lvmVG nodeName) before ->
  GetLVMVolumeGroupParams_loop (before ++ rest) lvmVG nodeName lvmType
  = GetLVMVolumeGroupParams_loop rest lvmVG nodeName lvmType.
Proof.
  induction 1 as [| g pre Hg Hpre IH]; simpl; [reflexivity |].
  destruct Hg as [Hnone | [Hn Hne]].
  - rewrite Hnone. exact IH.
  - destruct (lvmVG !! lvg_Name g); [| exact IH].
    destruct (Nodes g) as [| node nodes] eqn:En; [contradiction |]. simpl.
    unfold hostNode in Hne. simpl in Hne.
    apply String.eqb_neq in Hne. rewrite Hne. exact IH.
Qed.

Lemma GetLVMVolumeGroupParams_loop_any_type (items : list LVMVolumeGroup) lvmType lvmType' :
  GetLVMVolumeGroupParams_loop items lvmVG nodeName lvmType
  = GetLVMVolumeGroupParams_loop items lvmVG nodeName lvmType'.
Proof.
  induction items as [| g rest IH]; simpl; [reflexivity |].
  destruct (lvmVG !! lvg_Name g); [| exact IH].
  destruct (Nodes g !! 0%nat) as [node |]; [| reflexivity].
  destruct (String.eqb (node_Name node) nodeName); [| exact IH].
  destruct (String.eqb lvmType LLVTypeThin && thinPoolListed lvmVG g);
    destruct (String.eqb lvmType' LLVTypeThin && thinPoolListed lvmVG g); reflexivity.
Qed.
End LocalGroupParams.

(** X25: [GetLVMVolumeGroupParams] of sds-local-volume-csi answers the
    name and the volume group of the first listed group that the map
    names and that is hosted on the node asked for; the error "there are
    no matches" when the list has no such group; and a failed [List]
    wrapped.  The volume type makes no difference to any of this: for the
    Thin type a group is answered whether or not it has one of the thin
    pools of the map. *)
Theorem GetLVMVolumeGroupParams_first_named_group_on_the_node
    (w : World LVMVolumeGroup) (lvmVG : gmap string string) (nodeName lvmType : string)
    (tr : Trace) (before : list LVMVolumeGroup) :
  Forall (passedOver lvmVG nodeName) before ->
  (forall lvg after,
      kcList w (calls isList tr) = inl (before ++ lvg :: after) ->
      is_Some (lvmVG !! lvg_Name lvg) ->
      Nodes lvg <> [] ->
      hostNode (Nodes lvg) = nodeName ->
      SdsLocalVolumeCsi.GetLVMVolumeGroupParams w lvmVG nodeName lvmType tr
      = (Returns (lvg_Name lvg, ActualVGNameOnTheNode lvg, None), tr ++ [EvList]))
  /\ (kcList w (calls isList tr) = inl before ->
      SdsLocalVolumeCsi.GetLVMVolumeGroupParams w lvmVG nodeName lvmType tr
      = (Returns ("", "", Some (Errorf "there are no matches" [] None)), tr ++ [EvList]))
  /\ (forall e,
        kcList w (calls isList tr) = inr e ->
        SdsLocalVolumeCsi.GetLVMVolumeGroupParams w lvmVG nodeName lvmType tr
        = (Returns ("", "", Some (Errorf "error getting LVMVolumeGroup list: %w" [] (Some e))),
           tr ++ [EvList]))
  /\ (forall lvmType',
        SdsLocalVolumeCsi.GetLVMVolumeGroupParams w lvmVG nodeName lvmType' tr
        = SdsLocalVolumeCsi.GetLVMVolumeGroupParams w lvmVG nodeName lvmType tr).
Proof.
  intros Hbefore.
  unfold SdsLocalVolumeCsi.GetLVMVolumeGroupParams, bind, List_, ret.
  split; [| split; [| split]].
  - intros lvg after Hl [pool Hpool] Hn Hhost. rewrite Hl.
    rewrite (GetLVMVolumeGroupParams_loop_passes lvmVG nodeName before (lvg :: after) lvmType Hbefore).
    simpl. rewrite Hpool.
    destruct (Nodes lvg) as [| node nodes] eqn:En; [contradiction |]. simpl.
    unfold hostNode in Hhost. simpl in Hhost. rewrite Hhost, String.eqb_refl.
    destruct (String.eqb lvmType SdsLocalVolumeCsi.LLVTypeThin
              && SdsLocalVolumeCsi.thinPoolListed lvmVG lvg); reflexivity.
  - intros Hl. rewrite Hl.
    rewrite <- (app_nil_r before) at 1.
    rewrite (GetLVMVolumeGroupParams_loop_passes lvmVG nodeName before [] lvmType Hbefore).
    reflexivity.
  - intros e Hl. rewrite Hl. reflexivity.
  - intros lvmType'.
    destruct (kcList w (calls isList tr)) as [items | e]; [| reflexivity].
    rewrite (GetLVMVolumeGroupParams_loop_any_type lvmVG nodeName items lvmType' lvmType).
    reflexivity.
Qed.

Lemma GetLVMVolumeGroupParams_first_named_group_on_the_node_witness :
  SdsLocalVolumeCsi.GetLVMVolumeGroupParams (listWorld LVMVolumeGroup threeGroups)
    (<["lvg-b" := ""]> (<["lvg-c" := ""]> ∅)) "node-c" "Thin" []
  = (Returns ("lvg-c", "lvg-c", None), [] ++ [EvList]).
Proof.
  apply (proj1 (GetLVMVolumeGroupParams_first_named_group_on_the_node
                  (listWorld LVMVolumeGroup threeGroups)
                  (<["lvg-b" := ""]> (<["lvg-c" := ""]> ∅)) "node-c" "Thin" []
                  [group "lvg-a" "node-a" (5 * Gi); group "lvg-b" "node-b" (12 * Gi)]
                  ltac:(apply Forall_cons_2;
                        [left; vm_compute; reflexivity
                        | apply Forall_cons_2;
                          [right; split; discriminate | apply Forall_nil_2]]))
           (group "lvg-c" "node-c" (12 * Gi)) []).
  - reflexivity.
  - exists "". vm_compute. reflexivity.
  - discriminate.
  - reflexivity.
Defined.

(** ** Errors of the capacity loop of sds-lvm-csi *)

(** X26: [GetNodeMaxFreeVGSize] fails with an empty node name and a zero
    quantity in two ways.  When all three [List] attempts fail, the error
    wraps the third with the attempt count.  When a listed group has a
    size that does not parse, the error names the group and wraps the
    parse error, whatever room the groups before it have. *)
Theorem lvm_GetNodeMaxFreeVGSize_errors
    (w : World LvmVolumeGroup) {Q : Type} (R : SdsLvmCsi.ResourceQuantity Q) (tr : Trace) :
  ((forall j, (j < 3)%nat -> exists e, kcList w (calls isList tr + j) = inr e) ->
   exists e,
     kcList w (calls isList tr + 2) = inr e
     /\ SdsLvmCsi.GetNodeMaxFreeVGSize w R tr
        = (Returns ("", SdsLvmCsi.Quantity_zero R,
                    Some (Errorf "after %d attempts of getting LvmVolumeGroups, last error: %w"
                                 [ArgD 3] (Some e))),
           tr ++ failedAttempts 3 EvList))
  /\ (forall free before lvg after e,
        kcList w (calls isList tr) = inl (before ++ lvg :: after) ->
        Forall (parsesFree R free) before ->
        Forall (fun lvg => lvmvg_Nodes lvg <> []) before ->
        SdsLvmCsi.ParseQuantity R (lvmvg_VGSize lvg) = inr e ->
        SdsLvmCsi.GetNodeMaxFreeVGSize w R tr
        = (Returns ("", SdsLvmCsi.Quantity_zero R,
                    Some (Errorf "get free space for lvg %s: %w" [ArgS (lvmvg_Name lvg)]
                            (Some (Errorf "parse size vgSize (%s): %w"
                                          [ArgS (lvmvg_VGSize lvg)] (Some e))))),
           tr ++ [EvList])).
Proof.
  split.
  - intros Hfail.
    destruct (Hfail 0%nat ltac:(lia)) as (e0 & He0).
    destruct (Hfail 1%nat ltac:(lia)) as (e1 & He1).
    destruct (Hfail 2%nat ltac:(lia)) as (e2 & He2).
    rewrite Nat.add_0_r in He0.
    exists e2. split; [assumption |].
    unfold SdsLvmCsi.GetNodeMaxFreeVGSize.
    change (Z.to_nat SdsLvmCsi.KubernetesApiRequestLimit) with 3%nat.
    unfold bind at 1. cbn [SdsLvmCsi.GetNodeMaxFreeVGSize_list].
    unfold bind at 1. unfold List_ at 1. rewrite He0.
    unfold bind at 1. unfold Sleep at 1.
    unfold bind at 1. unfold List_ at 1.
    replace (calls isList ((tr ++ [EvList]) ++ [EvSleep SdsLvmCsi.KubernetesApiRequestTimeout]))
      with (calls isList tr + 1)%nat by count_calls.
    rewrite He1.
    unfold bind at 1. unfold Sleep at 1.
    unfold bind at 1. unfold List_ at 1.
    match goal with
    | |- context [kcList w (calls isList ?t)] =>
        replace (calls isList t) with (calls isList tr + 2)%nat by count_calls
    end.
    rewrite He2.
    unfold bind at 1. unfold Sleep at 1. unfold ret.
    rewrite <- !app_assoc. reflexivity.
  - intros free before lvg after e Hl Hfree Hnodes Hparse.
    unfold SdsLvmCsi.GetNodeMaxFreeVGSize.
    change (Z.to_nat SdsLvmCsi.KubernetesApiRequestLimit) with 3%nat.
    unfold bind at 1. cbn [SdsLvmCsi.GetNodeMaxFreeVGSize_list].
    unfold bind at 1. unfold List_ at 1. rewrite Hl. unfold ret.
    rewrite (GetNodeMaxFreeVGSize_loop_app R free before (lvg :: after) Hfree
               ltac:(eapply Forall_impl; [exact Hnodes |]; simpl; intros x Hx _; exact Hx)
               "" 0 ltac:(lia)).
    simpl. unfold SdsLvmCsi.GetLVMVolumeGroupFreeSpace. rewrite Hparse. reflexivity.
Qed.

Lemma lvm_GetNodeMaxFreeVGSize_errors_witness :
  (exists e,
      kcList (failingWorld LvmVolumeGroup) (calls isList [] + 2) = inr e
      /\ SdsLvmCsi.GetNodeMaxFreeVGSize (failingWorld LvmVolumeGroup) sampleQuantities []
         = (Returns ("", SdsLvmCsi.Quantity_zero sampleQuantities,
                     Some (Errorf "after %d attempts of getting LvmVolumeGroups, last error: %w"
                                  [ArgD 3] (Some e))),
            [] ++ failedAttempts 3 EvList))
  /\ SdsLvmCsi.GetNodeMaxFreeVGSize
       (listWorld LvmVolumeGroup (threeLvmGroups ++ brokenLvmGroup :: []))
       sampleQuantities []
     = (Returns ("", SdsLvmCsi.Quantity_zero sampleQuantities,
                 Some (Errorf "get free space for lvg %s: %w" [ArgS (lvmvg_Name brokenLvmGroup)]
                         (Some (Errorf "parse size vgSize (%s): %w"
                                       [ArgS (lvmvg_VGSize brokenLvmGroup)]
                                       (Some (ParseError "twenty")))))),
        [] ++ [EvList]).
Proof.
  split.
  - apply (proj1 (lvm_GetNodeMaxFreeVGSize_errors (failingWorld LvmVolumeGroup)
                    sampleQuantities [])).
    intros j Hj. exists transient. reflexivity.
  - apply (proj2 (lvm_GetNodeMaxFreeVGSize_errors
                    (listWorld LvmVolumeGroup (threeLvmGroups ++ brokenLvmGroup :: []))
                    sampleQuantities []) sampleLvmFree threeLvmGroups brokenLvmGroup []).
    + reflexivity.
    + repeat constructor; do 2 eexists; repeat split; reflexivity.
    + repeat constructor; discriminate.
    + reflexivity.
Defined.

(** ** Publishing a volume on the node (sds-lvm-csi) *)

(** X27: [NodePublishVolume] calls the mounter once, on the device
    /dev/<volume group>/<volume id> and the target path, with false as the
    boolean that follows the file system type.  A block volume is mounted
    with the
    single option bind, even when the request is read-only; a mount volume
    with its file system type and with ro, when the request is read-only,
    followed by its mount flags.  The result is an empty response, or the
    mounter's error as it is with no response. *)
Theorem NodePublishVolume_mount_arguments
    (mounter : SdsLvmCsiDriver.Mounter) (VGNameKey : string)
    (request : SdsLvmCsiDriver.NodePublishVolumeRequest) :
  exists args,
    (SdsLvmCsiDriver.NodePublishVolume mounter VGNameKey request).2
    = [SdsLvmCsiDriver.CallMount args]
    /\ SdsLvmCsiDriver.source args
       = "/dev/" +:+ default "" (SdsLvmCsiDriver.VolumeContext request !! VGNameKey)
         +:+ "/" +:+ SdsLvmCsiDriver.VolumeId request
    /\ SdsLvmCsiDriver.target args = SdsLvmCsiDriver.TargetPath request
    /\ SdsLvmCsiDriver.flag args = false
    /\ (SdsLvmCsiDriver.GetBlock (SdsLvmCsiDriver.volumeCapability request) = true ->
        SdsLvmCsiDriver.isBlock args = true
        /\ SdsLvmCsiDriver.fsType args = ""
        /\ SdsLvmCsiDriver.mntOpts args = ["bind"])
    /\ (forall fs flags,
          SdsLvmCsiDriver.GetMount (SdsLvmCsiDriver.volumeCapability request) = Some (fs, flags) ->
          SdsLvmCsiDriver.isBlock args = false
          /\ SdsLvmCsiDriver.fsType args = fs
          /\ SdsLvmCsiDriver.mntOpts args
             = (if SdsLvmCsiDriver.Readonly request then ["ro"] else []) ++ flags)
    /\ (SdsLvmCsiDriver.NodePublishVolume mounter VGNameKey request).1
       = match SdsLvmCsiDriver.mounter_Mount mounter args with
         | Some err => (None, Some err)
         | None => (Some tt, None)
         end.
Proof.
  assert (Hcalls : forall args,
    (match SdsLvmCsiDriver.mounter_Mount mounter args with
     | Some err => (None, Some err, [SdsLvmCsiDriver.CallMount args])
     | None => (Some tt, None, [SdsLvmCsiDriver.CallMount args])
     end).2 = [SdsLvmCsiDriver.CallMount args]).
  { intros args. destruct (SdsLvmCsiDriver.mounter_Mount mounter args); reflexivity. }
  assert (Hresult : forall args,
    (match SdsLvmCsiDriver.mounter_Mount mounter args with
     | Some err => (None, Some err, [SdsLvmCsiDriver.CallMount args])
     | None => (Some tt, None, [SdsLvmCsiDriver.CallMount args])
     end).1 = match SdsLvmCsiDriver.mounter_Mount mounter args with
              | Some err => (None, Some err)
              | None => (Some tt, None)
              end).
  { intros args. destruct (SdsLvmCsiDriver.mounter_Mount mounter args); reflexivity. }
  unfold SdsLvmCsiDriver.NodePublishVolume.
  destruct request as [vid tp cap ro ctx]. simpl.
  destruct cap as [[[[| fs flags] |]] |]; simpl;
    (eexists; split; [apply Hcalls |]; simpl;
     repeat split; try discriminate; try apply Hresult;
     intros; simplify_eq; reflexivity).
Qed.

Lemma NodePublishVolume_mount_arguments_witness :
  (SdsLvmCsiDriver.NodePublishVolume failingMounter "vgname"
     (readonlyRequest (Some SdsLvmCsiDriver.Block))).2
  = [SdsLvmCsiDriver.CallMount
       {| SdsLvmCsiDriver.source := "/dev/vg-w1/pvc-1";
          SdsLvmCsiDriver.target := "/var/lib/kubelet/pods/p/volumes/pvc-1/mount";
          SdsLvmCsiDriver.isBlock := true;
          SdsLvmCsiDriver.fsType := "";
          SdsLvmCsiDriver.flag := false;
          SdsLvmCsiDriver.mntOpts := ["bind"] |}].
Proof.
  destruct (NodePublishVolume_mount_arguments failingMounter "vgname"
              (readonlyRequest (Some SdsLvmCsiDriver.Block)))
    as (args & Hcalls & Hsource & Htarget & Hro & Hblock & _).
  destruct (Hblock eq_refl) as (Hb & Hfs & Hopts).
  destruct args as [src tgt blk fs ro opts]. simpl in *. subst.
  exact Hcalls.
Defined.

(** X28: [NodeUnpublishVolume] of sds-lvm-csi answers an empty response
    and a nil error whatever the mounter says: a failed unmount is logged
    and not reported.  It calls the mounter once, to unmount the target
    path. *)
Theorem NodeUnpublishVolume_never_fails
    (mounter : SdsLvmCsiDriver.Mounter) (targetPath : string) :
  SdsLvmCsiDriver.NodeUnpublishVolume mounter targetPath
  = (Some tt, None, [SdsLvmCsiDriver.CallUnmount targetPath]).
Proof.
  unfold SdsLvmCsiDriver.NodeUnpublishVolume.
  destruct (SdsLvmCsiDriver.mounter_Unmount mounter targetPath); reflexivity.
Qed.

(** ** Ends of the wait in sds-lvm-csi *)

(** X29: in sds-lvm-csi the wait ends on the attempt at which the context
    is done before the half second is over, with the context's error and
    without a fetch; and on the attempt whose fetch fails three times in a
    row, with the third error wrapped by [GetLVMLogicalVolume]. *)
Theorem lvm_WaitForStatusUpdate_cancellation_and_fetch_errors
    (w : World LvmVolumeGroup) (name namespace : string) (llvSize delta : Quantity)
    (tr : Trace) (k fuel : nat) :
  waitsThrough w name namespace (stillWaitingLvm llvSize delta) tr k ->
  (ctxDone w (calls isDone tr + k) = true ->
   exists tr',
     SdsLvmCsi.WaitForStatusUpdate w (S k + fuel) name namespace llvSize delta tr
     = (Some (int_wrap (Z.of_nat (S k)), Some (ctxErr w)), tr')
     /\ calls isGet tr' = (calls isGet tr + k)%nat)
  /\ (forall e,
        ctxDone w (calls isDone tr + k) = false ->
        (forall j, (j < 3)%nat ->
           exists e', kcGet w (calls isGet tr + k + j) name namespace = inr e') ->
        kcGet w (calls isGet tr + k + 2) name namespace = inr e ->
        exists tr',
          SdsLvmCsi.WaitForStatusUpdate w (S k + fuel) name namespace llvSize delta tr
          = (Some (int_wrap (Z.of_nat (S k)),
                   Some (Errorf "after %d attempts of getting LVMLogicalVolume %s in namespace %s, last error: %w"
                                [ArgD 3; ArgS name; ArgS namespace] (Some e))), tr')
          /\ calls isGet tr' = (calls isGet tr + k + 3)%nat).
Proof.
  intros Hwait.
  destruct (lvm_WaitForStatusUpdate_loop_waits w name namespace llvSize delta k (S fuel) 0 false tr Hwait)
    as (c' & se' & tr' & Hrun & Hc & Hd & Hg).
  assert (Hcount : int_wrap (c' + 1) = int_wrap (Z.of_nat (S k))).
  { rewrite Hc. f_equal. lia. }
  assert (Hstart :
    SdsLvmCsi.WaitForStatusUpdate w (S k + fuel) name namespace llvSize delta tr
    = SdsLvmCsi.WaitForStatusUpdate_loop w (S fuel) name namespace llvSize delta c' se' tr').
  { unfold SdsLvmCsi.WaitForStatusUpdate.
    replace (S k + fuel)%nat with (k + S fuel)%nat by lia. exact Hrun. }
  rewrite Hstart. cbn [SdsLvmCsi.WaitForStatusUpdate_loop].
  unfold bind at 1. unfold After at 1.
  unfold bind at 1. unfold Done at 1.
  rewrite calls_app. simpl (calls isDone [_]). rewrite Nat.add_0_r, Hd.
  split.
  - intros Hdone. rewrite Hdone. unfold ret. rewrite Hcount.
    eexists. split; [reflexivity |]. rewrite !calls_app, Hg. simpl. lia.
  - intros e Hdone Hfail Hlast.
    cbn [SdsLvmCsi.WaitForStatusUpdate_loop].
    unfold bind at 1. unfold After at 1.
    unfold bind at 1. unfold Done at 1.
    rewrite calls_app. simpl (calls isDone [_]). rewrite Nat.add_0_r, Hd, Hdone.
    set (tr1 := (tr' ++ [EvAfter (500 * Millisecond)]) ++ [EvDone]).
    assert (Hg1 : calls isGet tr1 = (calls isGet tr + k)%nat).
    { unfold tr1. rewrite !calls_app, Hg. simpl. lia. }
    destruct (GetLVMLogicalVolume_loop_runs w name namespace 3 0 None tr1) as
      (err1 & Hget & _ & HS & Hcalls).
    { intros j Hj. rewrite Hg1. apply Hfail. assumption. }
    unfold bind at 1. unfold SdsLvmCsi.GetLVMLogicalVolume.
    change (Z.to_nat SdsLvmCsi.KubernetesApiRequestLimit) with (3 + 0)%nat.
    rewrite Hget.
    rewrite (HS 2%nat e eq_refl) by (rewrite Hg1; exact Hlast).
    simpl. unfold ret. rewrite Hcount.
    eexists. split; [reflexivity |].
    change (tr1 ++ EvGet name namespace :: EvSleep SdsLvmCsi.KubernetesApiRequestTimeout
              :: EvGet name namespace :: EvSleep SdsLvmCsi.KubernetesApiRequestTimeout
              :: EvGet name namespace :: [EvSleep SdsLvmCsi.KubernetesApiRequestTimeout])
      with (tr1 ++ failedAttempts 3 (EvGet name namespace)).
    rewrite Hcalls, Hg1. reflexivity.
Qed.

Lemma lvm_WaitForStatusUpdate_cancellation_and_fetch_errors_witness :
  (exists tr',
      SdsLvmCsi.WaitForStatusUpdate
        (cancellingWorld LvmVolumeGroup convergingScript 2) (3 + 0) "pvc-1" ""
        (NewQuantity (10 * Gi)) (NewQuantity Gi) []
      = (Some (int_wrap (Z.of_nat 3), Some canceled), tr')
      /\ calls isGet tr' = (calls isGet [] + 2)%nat)
  /\ (exists tr',
      SdsLvmCsi.WaitForStatusUpdate
        (scriptedWorld LvmVolumeGroup [observed None (Some pendingStatus)]) (2 + 0) "pvc-1" ""
        (NewQuantity (10 * Gi)) (NewQuantity Gi) []
      = (Some (int_wrap (Z.of_nat 2),
               Some (Errorf "after %d attempts of getting LVMLogicalVolume %s in namespace %s, last error: %w"
                            [ArgD 3; ArgS "pvc-1"; ArgS ""] (Some transient))), tr')
      /\ calls isGet tr' = (calls isGet [] + 1 + 3)%nat).
Proof.
  split.
  - apply (proj1 (lvm_WaitForStatusUpdate_cancellation_and_fetch_errors
                    (cancellingWorld LvmVolumeGroup convergingScript 2) "pvc-1" ""
                    (NewQuantity (10 * Gi)) (NewQuantity Gi) [] 2%nat 0%nat
                    ltac:(intros [| [| j]] Hj; [| | lia];
                          (split; [reflexivity | eexists; split; reflexivity])))).
    reflexivity.
  - apply (proj2 (lvm_WaitForStatusUpdate_cancellation_and_fetch_errors
                    (scriptedWorld LvmVolumeGroup [observed None (Some pendingStatus)]) "pvc-1" ""
                    (NewQuantity (10 * Gi)) (NewQuantity Gi) [] 1%nat 0%nat
                    ltac:(intros [| j] Hj; [| lia];
                          (split; [reflexivity | eexists; split; reflexivity]))) transient).
    + reflexivity.
    + intros j Hj. exists transient. destruct j as [| [| [| j]]]; [reflexivity .. | lia].
    + reflexivity.
Defined.
